(** * MESA-Docsynth: the document generation pipeline

    A shallow embedding of [generate.py] and
    [utils/load_names_locations.py], and the properties of the
    specification proved (or refuted) about it.

    Python values are modelled as follows.
    - [str]: a sequence of Unicode code points ([list N]);
    - [bytes]: a sequence of octets ([list N], each below 256);
    - [dict] literals with fixed keys and JSON objects: association lists
      in insertion order;
    - [set]: stdpp's [gset]; the file system: a [gmap] from paths to
      file contents and a [gset] of directories;
    - exceptions, logging, printing and the external collaborators
      (prompt builder, LLM client, clock, random generator): a state and
      exception monad [M] over an explicit [World]. *)

From Stdlib Require Import ZArith NArith List String Ascii Lia.
From Stdlib Require Import Numbers.DecimalString.
From Stdlib Require DecimalFacts DecimalPos DecimalN.
From stdpp Require Import base option list gmap sets.

Local Open Scope N_scope.

(** ** Python strings *)

Module PyStr.

(** A code point of a Python [str]. *)
Definition char := N.
Definition str := list char.

(** A source literal (ASCII only) as a [str]. *)
Definition lit (s : string) : str :=
  List.map N_of_ascii (list_ascii_of_string s).

Arguments lit : simpl never.

(** [str.isspace] on one character: CPython's [_PyUnicode_IsWhitespace]. *)
Definition isspace (c : char) : bool :=
  ((0x09 <=? c) && (c <=? 0x0D)) || ((0x1C <=? c) && (c <=? 0x20))
  || (c =? 0x85) || (c =? 0xA0) || (c =? 0x1680)
  || ((0x2000 <=? c) && (c <=? 0x200A))
  || (c =? 0x2028) || (c =? 0x2029) || (c =? 0x202F) || (c =? 0x205F)
  || (c =? 0x3000).

(** [s.lstrip()], [s.rstrip()] and [s.strip()] without argument. *)
Fixpoint lstrip (s : str) : str :=
  match s with
  | [] => []
  | c :: s' => if isspace c then lstrip s' else s
  end.

Definition rstrip (s : str) : str := rev (lstrip (rev s)).

Definition strip (s : str) : str := rstrip (lstrip s).

(** [s.startswith(p)], returning what follows the prefix. *)
Fixpoint strip_prefix (p s : str) : option str :=
  match p, s with
  | [], _ => Some s
  | _ :: _, [] => None
  | a :: p', b :: s' => if a =? b then strip_prefix p' s' else None
  end.

(** [str(n)] for an [int]. *)
Definition str_of_Z (z : Z) : str :=
  lit (NilZero.string_of_int (Z.to_int z)).

(** [s] occurs in [t]. *)
Definition occurs (s t : str) : Prop := ∃ a b, t = a ++ s ++ b.

(** [s in t], computed. *)
Fixpoint contains (s t : str) : bool :=
  match strip_prefix s t with
  | Some _ => true
  | None =>
      match t with
      | [] => false
      | _ :: t' => contains s t'
      end
  end.

End PyStr.
Export PyStr.

(** ** The regular expression of [extract_output_content]

    [re.search(r"<output>(.*?)</output>", text, re.DOTALL)]: the engine
    tries every start position from the left; at a start position the
    literal [<output>] must match, then the lazy [.*?] (with [DOTALL] the
    dot matches every character, newlines included) takes as few
    characters as possible before the literal [</output>]. *)

Module Re.

Definition open_tag : str := Eval cbv in lit "<output>".
Definition close_tag : str := Eval cbv in lit "</output>".

(** The lazy group followed by the literal [lit_after]: the shortest
    prefix of [s] that is followed by [lit_after]. Returns the group and
    the text after the literal. *)
Fixpoint lazy_until (lit_after s : str) : option (str * str) :=
  match strip_prefix lit_after s with
  | Some rest => Some ([], rest)
  | None =>
      match s with
      | [] => None
      | c :: s' =>
          match lazy_until lit_after s' with
          | Some (g, rest) => Some (c :: g, rest)
          | None => None
          end
      end
  end.

(** The pattern anchored at the start of [s]. *)
Definition match_here (s : str) : option (str * str) :=
  match strip_prefix open_tag s with
  | Some s1 => lazy_until close_tag s1
  | None => None
  end.

(** [re.search]: the match at the leftmost start position that has one.
    The result is [match.group(1)]. *)
Fixpoint search (s : str) : option str :=
  match match_here s with
  | Some (g, _) => Some g
  | None =>
      match s with
      | [] => None
      | _ :: s' => search s'
      end
  end.

(** [re.findall]: the groups of all non-overlapping matches, from the
    left. [fuel] bounds the number of start positions tried. *)
Fixpoint findall_fuel (fuel : nat) (s : str) : list str :=
  match fuel with
  | O => []
  | S fuel' =>
      match match_here s with
      | Some (g, rest) => g :: findall_fuel fuel' rest
      | None =>
          match s with
          | [] => []
          | _ :: s' => findall_fuel fuel' s'
          end
      end
  end.

Definition findall (s : str) : list str := findall_fuel (S (length s)) s.

Arguments open_tag : simpl never.
Arguments close_tag : simpl never.

End Re.

(** ** Python values: exceptions, JSON data, hashable keys *)

Module Py.

(** The exception classes that occur; all derive from [Exception].
    [OtherError name] is any other subclass of [Exception], such as the
    errors of the prompt builder or of an LLM provider. *)
Inductive exn_class :=
  | JSONDecodeError | KeyError | AttributeError | TypeError
  | UnicodeEncodeError | IndexError | FileExistsError
  | OtherError (name : str).

(** An exception object: its class and [str(e)]. *)
Record exn := Exn { exn_cls : exn_class; exn_msg : str }.

Inductive result (A : Type) :=
  | Ok (a : A)
  | Raise (e : exn).
Arguments Ok {A} a.
Arguments Raise {A} e.

(** What [json.load] returns and [json.dump] takes. A [dict] keeps its
    insertion order. Floating-point numbers are left out. *)
#[warnings="-register-all"]
Inductive json :=
  | JNull
  | JBool (b : bool)
  | JInt (z : Z)
  | JStr (s : str)
  | JList (l : list json)
  | JDict (kv : list (str * json)).

(** [d.get(k)] on a [dict]: the value of the key, or [None]. *)
Fixpoint dict_get (k : str) (kv : list (str * json)) : json :=
  match kv with
  | [] => JNull
  | (k', v) :: kv' => if decide (k' = k) then v else dict_get k kv'
  end.

Definition dict_keys (kv : list (str * json)) : list str := kv.*1.

(** Truth value of an object ([if v:]). *)
Definition truthy (v : json) : bool :=
  match v with
  | JNull => false
  | JBool b => b
  | JInt z => negb (z =? 0)%Z
  | JStr s => negb (bool_decide (s = []))
  | JList l => negb (bool_decide (l = []))
  | JDict kv => negb (bool_decide (kv = []))
  end.

(** The elements of a [set] of JSON scalars, up to Python equality:
    [True == 1], so a boolean is the integer it equals. *)
Inductive hkey :=
  | HStr (s : str)
  | HInt (z : Z)
  | HNone.

#[export] Instance hkey_eq_dec : EqDecision hkey.
Proof. solve_decision. Defined.

#[export] Instance hkey_countable : Countable hkey.
Proof.
  refine (inj_countable'
    (λ k, match k with HStr s => inl s | HInt z => inr (Some z) | HNone => inr None end)
    (λ x, match x with inl s => HStr s | inr (Some z) => HInt z | inr None => HNone end) _).
  by intros [].
Defined.

(** [hash(v)] succeeds on scalars and raises [TypeError] on lists and
    dicts. *)
Definition hashable (v : json) : result hkey :=
  match v with
  | JNull => Ok HNone
  | JBool b => Ok (HInt (if b then 1 else 0))
  | JInt z => Ok (HInt z)
  | JStr s => Ok (HStr s)
  | JList _ => Raise (Exn TypeError (lit "unhashable type: 'list'"))
  | JDict _ => Raise (Exn TypeError (lit "unhashable type: 'dict'"))
  end.

(** The name of the type of a value, as in error messages. *)
Definition type_name (v : json) : str :=
  match v with
  | JNull => lit "NoneType"
  | JBool _ => lit "bool"
  | JInt _ => lit "int"
  | JStr _ => lit "str"
  | JList _ => lit "list"
  | JDict _ => lit "dict"
  end.

(** [data.get(k)]: only a [dict] has the method. *)
Definition method_get (data : json) (k : str) : result json :=
  match data with
  | JDict kv => Ok (dict_get k kv)
  | _ => Raise (Exn AttributeError
           (lit "'" ++ type_name data ++ lit "' object has no attribute 'get'"))
  end.

End Py.
Export Py.

(** ** UTF-8 and MD5 ([str.encode], [hashlib.md5]) *)

Module Utf8.

Definition is_surrogate (c : char) : bool := (0xD800 <=? c) && (c <=? 0xDFFF).

(** The UTF-8 octets of one code point; [None] for a surrogate, which
    the strict error handler rejects. *)
Definition encode_char (c : char) : option (list N) :=
  if c <? 0x80 then Some [c]
  else if c <? 0x800 then
    Some [N.lor 0xC0 (N.shiftr c 6); N.lor 0x80 (N.land c 0x3F)]
  else if c <? 0x10000 then
    if is_surrogate c then None
    else Some [N.lor 0xE0 (N.shiftr c 12);
               N.lor 0x80 (N.land (N.shiftr c 6) 0x3F);
               N.lor 0x80 (N.land c 0x3F)]
  else if c <? 0x110000 then
    Some [N.lor 0xF0 (N.shiftr c 18);
          N.lor 0x80 (N.land (N.shiftr c 12) 0x3F);
          N.lor 0x80 (N.land (N.shiftr c 6) 0x3F);
          N.lor 0x80 (N.land c 0x3F)]
  else None.

(** [s.encode('utf-8')]. *)
Fixpoint encode (s : str) : result (list N) :=
  match s with
  | [] => Ok []
  | c :: s' =>
      match encode_char c with
      | None => Raise (Exn UnicodeEncodeError
                  (lit "'utf-8' codec can't encode character: surrogates not allowed"))
      | Some bs =>
          match encode s' with
          | Ok r => Ok (bs ++ r)
          | Raise e => Raise e
          end
      end
  end.

(** The text has a UTF-8 encoding: it holds no lone surrogate. *)
Definition encodable (s : str) : bool :=
  forallb (λ c, bool_decide (is_Some (encode_char c))) s.

End Utf8.

(** [hashlib.md5(data).hexdigest()] (RFC 1321), on 32-bit words held
    in [N] with the wrap-around written out. *)
Module MD5.

Definition mask32 : N := 0xFFFFFFFF.
Definition add32 (a b : N) : N := N.land (a + b) mask32.
Definition not32 (a : N) : N := N.lxor a mask32.
Definition rotl32 (x : N) (c : N) : N :=
  N.lor (N.land (N.shiftl x c) mask32) (N.shiftr x (32 - c)).

(** The per-round additive constants, [floor(2^32 * abs(sin(i + 1)))]. *)
Definition K : list N :=
  [ 0xd76aa478; 0xe8c7b756; 0x242070db; 0xc1bdceee;
    0xf57c0faf; 0x4787c62a; 0xa8304613; 0xfd469501;
    0x698098d8; 0x8b44f7af; 0xffff5bb1; 0x895cd7be;
    0x6b901122; 0xfd987193; 0xa679438e; 0x49b40821;
    0xf61e2562; 0xc040b340; 0x265e5a51; 0xe9b6c7aa;
    0xd62f105d; 0x02441453; 0xd8a1e681; 0xe7d3fbc8;
    0x21e1cde6; 0xc33707d6; 0xf4d50d87; 0x455a14ed;
    0xa9e3e905; 0xfcefa3f8; 0x676f02d9; 0x8d2a4c8a;
    0xfffa3942; 0x8771f681; 0x6d9d6122; 0xfde5380c;
    0xa4beea44; 0x4bdecfa9; 0xf6bb4b60; 0xbebfbc70;
    0x289b7ec6; 0xeaa127fa; 0xd4ef3085; 0x04881d05;
    0xd9d4d039; 0xe6db99e5; 0x1fa27cf8; 0xc4ac5665;
    0xf4292244; 0x432aff97; 0xab9423a7; 0xfc93a039;
    0x655b59c3; 0x8f0ccc92; 0xffeff47d; 0x85845dd1;
    0x6fa87e4f; 0xfe2ce6e0; 0xa3014314; 0x4e0811a1;
    0xf7537e82; 0xbd3af235; 0x2ad7d2bb; 0xeb86d391 ].

(** The per-round rotation amounts. *)
Definition S : list N :=
  [ 7; 12; 17; 22; 7; 12; 17; 22; 7; 12; 17; 22; 7; 12; 17; 22;
    5; 9; 14; 20; 5; 9; 14; 20; 5; 9; 14; 20; 5; 9; 14; 20;
    4; 11; 16; 23; 4; 11; 16; 23; 4; 11; 16; 23; 4; 11; 16; 23;
    6; 10; 15; 21; 6; 10; 15; 21; 6; 10; 15; 21; 6; 10; 15; 21 ].

(** A little-endian word of [n] octets, and back. *)
Fixpoint le_word (bs : list N) : N :=
  match bs with
  | [] => 0
  | b :: bs' => b + 256 * le_word bs'
  end.

Fixpoint le_bytes (n : nat) (w : N) : list N :=
  match n with
  | O => []
  | Datatypes.S n' => N.land w 0xFF :: le_bytes n' (N.shiftr w 8)
  end.

(** The message followed by the bit [1], zeros up to 56 modulo 64, and
    the length in bits as a 64-bit little-endian word. *)
Definition pad (msg : list N) : list N :=
  let len := length msg in
  let zeros := ((55 + 64 - len mod 64) mod 64)%nat in
  msg ++ [0x80] ++ repeat 0 zeros
      ++ le_bytes 8 (N.land (8 * N.of_nat len) 0xFFFFFFFFFFFFFFFF).

(** The sixteen words of a 64-octet block. *)
Fixpoint words (n : nat) (block : list N) : list N :=
  match n with
  | O => []
  | Datatypes.S n' => le_word (take 4 block) :: words n' (drop 4 block)
  end.

Definition state : Type := N * N * N * N.

(** One of the 64 operations on the block [M]. *)
Definition round (M : list N) (st : state) (i : nat) : state :=
  let '(A, B, C, D) := st in
  let '(F, g) :=
    if (i <? 16)%nat then
      (N.lor (N.land B C) (N.land (not32 B) D), i)
    else if (i <? 32)%nat then
      (N.lor (N.land D B) (N.land (not32 D) C), ((5 * i + 1) mod 16)%nat)
    else if (i <? 48)%nat then
      (N.lxor (N.lxor B C) D, ((3 * i + 5) mod 16)%nat)
    else
      (N.lxor C (N.lor B (not32 D)), ((7 * i) mod 16)%nat) in
  let F' := add32 (add32 (add32 F A) (nth i K 0)) (nth g M 0) in
  (D, add32 B (rotl32 F' (nth i S 0)), B, C).

Definition process_block (st : state) (block : list N) : state :=
  let M := words 16 block in
  let '(A, B, C, D) := fold_left (round M) (seq 0 64) st in
  let '(a0, b0, c0, d0) := st in
  (add32 a0 A, add32 b0 B, add32 c0 C, add32 d0 D).

Fixpoint process (nblocks : nat) (st : state) (data : list N) : state :=
  match nblocks with
  | O => st
  | Datatypes.S n' => process n' (process_block st (take 64 data)) (drop 64 data)
  end.

Definition init : state := (0x67452301, 0xefcdab89, 0x98badcfe, 0x10325476).

(** [hashlib.md5(msg).digest()]. *)
Definition digest (msg : list N) : list N :=
  let data := pad msg in
  let '(a, b, c, d) := process (length data / 64) init data in
  le_bytes 4 a ++ le_bytes 4 b ++ le_bytes 4 c ++ le_bytes 4 d.

Definition hex_digit (n : N) : char :=
  if n <? 10 then 48 + n else 87 + n.

Definition hex_of_bytes (bs : list N) : str :=
  flat_map (λ b, [hex_digit (N.shiftr b 4); hex_digit (N.land b 0xF)]) bs.

(** [hashlib.md5(msg).hexdigest()]. *)
Definition hexdigest (msg : list N) : str := hex_of_bytes (digest msg).

End MD5.

(** [hashlib.md5(s.encode('utf-8')).hexdigest()]. *)
Definition md5_hex (s : str) : result str :=
  match Utf8.encode s with
  | Ok bs => Ok (MD5.hexdigest bs)
  | Raise e => Raise e
  end.

(** ** Dates ([datetime.strftime]) *)

Module Clock.

Record datetime := Datetime {
  year : N; month : N; day : N;
  hour : N; minute : N; second : N; microsecond : N }.

(** A decimal number, zero-padded on the left to [width] digits. *)
Definition zpad (width : nat) (n : N) : str :=
  let d := lit (NilZero.string_of_uint (N.to_uint n)) in
  repeat 48 (width - length d) ++ d.

(** One directive of a format string; an unknown one is kept as it is. *)
Definition directive (c : char) (dt : datetime) : str :=
  if c =? 89 then zpad 4 (year dt)            (* %Y *)
  else if c =? 109 then zpad 2 (month dt)     (* %m *)
  else if c =? 100 then zpad 2 (day dt)       (* %d *)
  else if c =? 72 then zpad 2 (hour dt)       (* %H *)
  else if c =? 77 then zpad 2 (minute dt)     (* %M *)
  else if c =? 83 then zpad 2 (second dt)     (* %S *)
  else if c =? 102 then zpad 6 (microsecond dt) (* %f *)
  else [37; c].

(** [dt.strftime(fmt)] for the directives above. *)
Fixpoint strftime (fmt : str) (dt : datetime) : str :=
  match fmt with
  | [] => []
  | c :: fmt' =>
      if c =? 37 then
        match fmt' with
        | d :: fmt'' => directive d dt ++ strftime fmt'' dt
        | [] => [c]
        end
      else c :: strftime fmt' dt
  end.

(** The fields of a [datetime] are within their ranges. *)
Definition valid (dt : datetime) : Prop :=
  1000 ≤ year dt ≤ 9999 ∧ 1 ≤ month dt ≤ 12 ∧ 1 ≤ day dt ≤ 31
  ∧ hour dt ≤ 23 ∧ minute dt ≤ 59 ∧ second dt ≤ 59
  ∧ microsecond dt ≤ 999999.

End Clock.
Export Clock.

(** ** The world the pipeline runs in *)

Inductive level := DEBUG | INFO | WARNING | ERROR.

#[export] Instance level_eq_dec : EqDecision level.
Proof. solve_decision. Defined.

(** A path is the list of its components; [d / name]. *)
Definition Path := list str.
Definition path_div (d : Path) (name : str) : Path := d ++ [name].

(** [str(path)]. *)
Definition path_str (p : Path) : str :=
  flat_map (λ c, lit "/" ++ c) p.

(** [path.name]. *)
Definition path_name (p : Path) : str := List.last p [].

(** [path.parent]. *)
Definition path_parent (p : Path) : Path := removelast p.

(** A regular file, by what [json.load] does on it: [Json j] parses to
    [j]; on [NotJson msg] the decoder raises [JSONDecodeError] with the
    message [msg]. *)
Inductive file_content :=
  | Json (j : json)
  | NotJson (msg : str).

(** The collaborators that are outside the repository's two modules:
    the prompt builder, the LLM client, the clock and the random
    generator. Each acts on its own state [Env]. *)
Class Externals := {
  Env : Type;
  Profile : Type;
  LLMClient : Type;
  (** the identifier of a profile *)
  profile_key : Profile → str;
  (** [builder.build_prompt(profile, include_style, include_content)],
      returning [(prompt, structure_name, profile_id)] *)
  ext_build_prompt :
    Profile → bool → bool → Env → result (str * str * str) * Env;
  (** [llm_client.generate(prompt)] *)
  ext_generate : LLMClient → str → Env → result str * Env;
  (** [datetime.now()] *)
  ext_now : Env → datetime * Env;
  (** [random._randbelow(n)], which is below [n] *)
  ext_randbelow : nat → Env → nat * Env;
  ext_randbelow_lt :
    ∀ n e, (0 < n)%nat → ((ext_randbelow n e).1 < n)%nat;
}.

Section Pipeline.
Context `{Ext : Externals}.

(** A call to a collaborator, as a test double would record it. *)
Inductive call :=
  | CallBuildPrompt (p : Profile)
  | CallGenerate (prompt : str)
  | CallWrite (path : Path).

Record World := mkWorld {
  w_files : gmap Path file_content;  (** regular files *)
  w_dirs : gset Path;                (** directories *)
  w_log : list (level * str);        (** records of [debug.log] *)
  w_out : list str;                  (** lines printed *)
  w_calls : list call;               (** calls to the collaborators *)
  w_profiles : list Profile;         (** the builder's available profiles *)
  w_env : Env;                       (** state of the collaborators *)
}.

(** Computations that read and change the world and may raise. *)
Definition M (A : Type) : Type := World → result A * World.

Definition ret {A} (a : A) : M A := λ w, (Ok a, w).
Definition raise {A} (e : exn) : M A := λ w, (Raise e, w).
Definition bind {A B} (m : M A) (k : A → M B) : M B :=
  λ w, match m w with
       | (Ok a, w') => k a w'
       | (Raise e, w') => (Raise e, w')
       end.

#[global] Instance M_ret : MRet M := @ret.
#[global] Instance M_bind : MBind M := λ A B k m, bind m k.

(** [try: m except classes as e: h e]. *)
Definition try_except {A} (m : M A) (catches : exn_class → bool)
    (h : exn → M A) : M A :=
  λ w, match m w with
       | (Ok a, w') => (Ok a, w')
       | (Raise e, w') =>
           if catches (exn_cls e) then h e w' else (Raise e, w')
       end.

(** [except Exception]: every class modelled derives from it. *)
Definition any_Exception (c : exn_class) : bool := true.

Definition lift {A} (r : result A) : M A := λ w, (r, w).

(** Every run of [m] relates the world before to the world after,
    whether it returns or raises. *)
Definition preserves {A} (R : World → World → Prop) (m : M A) : Prop :=
  ∀ w, R w (m w).2.

(** The relation "the projection [f] of the world is unchanged". *)
Definition same {X} (f : World → X) : World → World → Prop :=
  λ w w', f w' = f w.

(** Every value [m] returns satisfies [P]. *)
Definition returns {A} (P : A → Prop) (m : M A) : Prop :=
  ∀ w a, (m w).1 = Ok a → P a.

(** From a world in [P], [m] returns a value in [Q] and leaves the
    world in [P]. *)
Definition total {A} (P : World → Prop) (m : M A) (Q : A → Prop) : Prop :=
  ∀ w, P w → P (m w).2 ∧ ∃ a, (m w).1 = Ok a ∧ Q a.

(** From a world in [P], [m] leaves the world in [P], and a value it
    returns is in [Q]. *)
Definition partial {A} (P : World → Prop) (m : M A) (Q : A → Prop) : Prop :=
  ∀ w, P w → P (m w).2 ∧ ∀ a, (m w).1 = Ok a → Q a.

(** *** Primitive effects *)

(** The world with records appended to the log, lines to the output,
    calls to the trace; with another state of the collaborators. *)
Definition add_log (l : list (level * str)) (w : World) : World :=
  mkWorld (w_files w) (w_dirs w) (w_log w ++ l) (w_out w) (w_calls w)
    (w_profiles w) (w_env w).

Definition add_out (l : list str) (w : World) : World :=
  mkWorld (w_files w) (w_dirs w) (w_log w) (w_out w ++ l) (w_calls w)
    (w_profiles w) (w_env w).

Definition add_calls (l : list call) (w : World) : World :=
  mkWorld (w_files w) (w_dirs w) (w_log w) (w_out w) (w_calls w ++ l)
    (w_profiles w) (w_env w).

Definition set_env (e : Env) (w : World) : World :=
  mkWorld (w_files w) (w_dirs w) (w_log w) (w_out w) (w_calls w)
    (w_profiles w) e.

(** [logger.debug(msg)], [logger.info(msg)], ... *)
Definition logger (lv : level) (msg : str) : M () := λ w,
  (Ok (), add_log [(lv, msg)] w).

(** [print(line)]. *)
Definition print (line : str) : M () := λ w, (Ok (), add_out [line] w).

Definition record_call (c : call) : M () := λ w, (Ok (), add_calls [c] w).

(** A collaborator acting on its own state. *)
Definition external {A} (f : Env → A * Env) : M A := λ w,
  let '(a, e) := f (w_env w) in (Ok a, set_env e w).

Definition external_result {A} (f : Env → result A * Env) : M A :=
  bind (external f) lift.

(** The profiles [build_prompt] was called on, the prompts [generate]
    was called on, and the paths written, in the order of the calls. *)
Fixpoint build_calls (cs : list call) : list Profile :=
  match cs with
  | [] => []
  | CallBuildPrompt p :: cs' => p :: build_calls cs'
  | _ :: cs' => build_calls cs'
  end.

Fixpoint generate_calls (cs : list call) : list str :=
  match cs with
  | [] => []
  | CallGenerate prompt :: cs' => prompt :: generate_calls cs'
  | _ :: cs' => generate_calls cs'
  end.

Fixpoint write_calls (cs : list call) : list Path :=
  match cs with
  | [] => []
  | CallWrite path :: cs' => path :: write_calls cs'
  | _ :: cs' => write_calls cs'
  end.

(** The profiles a generation was attempted for so far. *)
Definition attempted (w : World) : list Profile := build_calls (w_calls w).

(** The prompts sent to the LLM so far. *)
Definition generated (w : World) : list str := generate_calls (w_calls w).

(** The relations "one attempt more, for the profile [p]" and "one
    prompt more sent to the LLM". *)
Definition attempt_for (p : Profile) (w w' : World) : Prop :=
  attempted w' = attempted w ++ [p].

Definition sent (prompt : str) (w w' : World) : Prop :=
  generated w' = generated w ++ [prompt].

(** The calls to the LLM one generation attempt makes. *)
Definition calls_per_attempt (llm_client : option LLMClient) : nat :=
  match llm_client with
  | Some _ => 1
  | None => 0
  end.

(** All prefixes of a path, itself included. *)
Definition path_prefixes (p : Path) : list Path :=
  List.map (λ n, take n p) (seq 0 (Datatypes.S (length p))).

(** [path.exists()]. *)
Definition path_exists (p : Path) : M bool := λ w,
  (Ok (bool_decide (p ∈ w_dirs w) || bool_decide (is_Some (w_files w !! p))), w).

(** [path.mkdir(parents=True, exist_ok=True)]. *)
Definition mkdir_parents (p : Path) : M () := λ w,
  if bool_decide (is_Some (w_files w !! p)) then
    (Raise (Exn FileExistsError (lit "File exists: " ++ path_str p)), w)
  else
    (Ok (), mkWorld (w_files w) (w_dirs w ∪ list_to_set (path_prefixes p))
              (w_log w) (w_out w) (w_calls w) (w_profiles w) (w_env w)).

(** [with open(path, "w") as f: json.dump(obj, f, indent=2)]: the file
    then holds a text that parses to [obj]. *)
Definition write_json (p : Path) (obj : json) : M () := λ w,
  (Ok (), mkWorld (<[p := Json obj]> (w_files w)) (w_dirs w) (w_log w)
            (w_out w) (w_calls w ++ [CallWrite p]) (w_profiles w) (w_env w)).

(** [with open(path, 'r') as f: json.load(f)]. *)
Definition read_json (p : Path) : M json := λ w,
  match w_files w !! p with
  | Some (Json j) => (Ok j, w)
  | Some (NotJson msg) => (Raise (Exn JSONDecodeError msg), w)
  | None => (Raise (Exn (OtherError (lit "FileNotFoundError")) (path_str p)), w)
  end.

(** [s.endswith(suffix)]. *)
Definition endswith (suffix s : str) : bool :=
  bool_decide (drop (length s - length suffix) s = suffix).

(** [list(dir.glob("*.json"))]: the files of the directory whose name
    ends in [.json], in the order the file system lists them. *)
Definition glob_json (dir : Path) : M (list Path) := λ w,
  (Ok (filter (λ p, path_parent p = dir ∧ p ≠ [] ∧ endswith (lit ".json") (path_name p))
         (map_to_list (w_files w)).*1), w).

End Pipeline.

(** ** [generate.py] *)

Section Generate.
Context `{Ext : Externals}.

(** [len(s)] in an f-string. *)
Definition str_of_len (s : str) : str := str_of_Z (Z.of_nat (length s)).

(** [extract_output_content(response_text)]. *)
Definition extract_output_content (response_text : str) : M str :=
  match Re.search response_text with
  | Some group1 =>
      let content := strip group1 in
      _ ← logger DEBUG
            (lit "Successfully extracted content from <output> tags (length="
             ++ str_of_len content ++ lit " chars)");
      mret content
  | None =>
      _ ← logger WARNING
            (lit "No <output> tags found in response, using full response text");
      mret (strip response_text)
  end.

(** [save_document(output_dir, structure_name, profile_id, timestamp,
    prompt, content=None)]; [content = None] is the prompt-only mode. *)
Definition save_document (output_dir : Path)
    (structure_name profile_id timestamp prompt : str)
    (content : option str) : M () :=
  _ ← mkdir_parents output_dir;
  md5_hash ← match content with
             | Some c => lift (md5_hex c)
             | None => lift (md5_hex prompt)
             end;
  let output :=
    [ (lit "doc_id", JStr md5_hash);
      (lit "document_name", JStr structure_name);
      (lit "document_sourcedb", JStr (lit "DocSynth"));
      (lit "profile", JStr profile_id);
      (lit "timestamp", JStr timestamp);
      (lit "prompt", JStr prompt) ] in
  let output :=
    match content with
    | Some c => output ++ [(lit "content", JStr c)]
    | None => output
    end in
  let output_path := path_div output_dir (md5_hash ++ lit ".json") in
  _ ← write_json output_path (JDict output);
  logger DEBUG (lit "Saved document to " ++ path_str output_path).

(** The keys every document has, in the order they are written. *)
Definition base_keys : list str :=
  [ lit "doc_id"; lit "document_name"; lit "document_sourcedb";
    lit "profile"; lit "timestamp"; lit "prompt" ].

(** The dict [save_document] builds. *)
Definition document (doc_id structure_name profile_id timestamp prompt : str)
    (content : option str) : list (str * json) :=
  [ (lit "doc_id", JStr doc_id);
    (lit "document_name", JStr structure_name);
    (lit "document_sourcedb", JStr (lit "DocSynth"));
    (lit "profile", JStr profile_id);
    (lit "timestamp", JStr timestamp);
    (lit "prompt", JStr prompt) ]
  ++ match content with Some c => [(lit "content", JStr c)] | None => [] end.

(** [generate_timestamp()]. *)
Definition generate_timestamp : M str :=
  now ← external ext_now;
  mret (take 19 (strftime (lit "%Y%m%d_%H%M%S_%f") now)).

(** What the body of a [for] loop does next. *)
Inductive ctl := Next | Break.

(** [for x in l: body x]. *)
Fixpoint for_in {A} (l : list A) (body : A → M ctl) : M () :=
  match l with
  | [] => mret ()
  | x :: l' =>
      c ← body x;
      match c with
      | Break => mret ()
      | Next => for_in l' body
      end
  end.

(** The body of the loop of [get_existing_profile_ids], for one file.
    The set built so far is threaded through. *)
Definition scan_file (existing_profiles : gset hkey) (json_file : Path)
    : M (gset hkey) :=
  try_except
    (data ← read_json json_file;
     profile_id ← lift (method_get data (lit "profile"));
     if truthy profile_id then
       k ← lift (hashable profile_id);
       mret (existing_profiles ∪ {[k]})
     else mret existing_profiles)
    (λ c, match c with JSONDecodeError | KeyError => true | _ => false end)
    (λ e,
       _ ← logger WARNING
             (lit "Could not read profile from " ++ path_name json_file
              ++ lit ": " ++ exn_msg e);
       mret existing_profiles).

Fixpoint scan_files (existing_profiles : gset hkey) (files : list Path)
    : M (gset hkey) :=
  match files with
  | [] => mret existing_profiles
  | f :: files' =>
      s ← scan_file existing_profiles f;
      scan_files s files'
  end.

(** [get_existing_profile_ids(output_dir)]. *)
Definition get_existing_profile_ids (output_dir : Path) : M (gset hkey) :=
  ex ← path_exists output_dir;
  if negb ex then mret ∅
  else
    files ← glob_json output_dir;
    scan_files ∅ files.

End Generate.

(** ** The prompt builder and the random generator *)

Section Builder.
Context `{Ext : Externals}.

(** [random.choice(seq)]. *)
Definition random_choice {A} (seq : list A) : M A :=
  if bool_decide (length seq = 0%nat) then
    raise (Exn IndexError (lit "Cannot choose from an empty sequence"))
  else
    i ← external (ext_randbelow (length seq));
    match seq !! i with
    | Some x => mret x
    | None => raise (Exn IndexError (lit "list index out of range"))
    end.

(** Modelled from the spec: [PromptBuilder.get_profile_count], of
    [utils/build_prompt.py]: the number of available profiles. *)
Definition get_profile_count : M Z := λ w,
  (Ok (Z.of_nat (length (w_profiles w))), w).

(** Modelled from the spec: [PromptBuilder.get_sequential_profiles], of
    [utils/build_prompt.py]: the available profiles in their source
    order. *)
Definition get_sequential_profiles : M (list Profile) := λ w,
  (Ok (w_profiles w), w).

(** Modelled from the spec: [PromptBuilder.get_random_profile], of
    [utils/build_prompt.py]: an independent random draw among the
    available profiles. *)
Definition get_random_profile : M Profile := λ w,
  random_choice (w_profiles w) w.

(** Modelled from the spec: [profile_loader.filter_existing_profiles], of
    the profile loader behind [utils/build_prompt.py]: removes the
    profiles whose identifier is in the given set and returns how many
    were removed. *)
Definition filter_existing_profiles (existing : gset hkey) : M Z := λ w,
  let kept := filter (λ p, HStr (profile_key p) ∉ existing) (w_profiles w) in
  (Ok (Z.of_nat (length (w_profiles w) - length kept)),
   mkWorld (w_files w) (w_dirs w) (w_log w) (w_out w) (w_calls w) kept (w_env w)).

(** [builder.build_prompt(profile, include_style, include_content)]. *)
Definition build_prompt (profile : Profile) (include_style include_content : bool)
    : M (str * str * str) :=
  _ ← record_call (CallBuildPrompt profile);
  external_result (ext_build_prompt profile include_style include_content).

(** [llm_client.generate(prompt)]. *)
Definition llm_generate (client : LLMClient) (prompt : str) : M str :=
  _ ← record_call (CallGenerate prompt);
  external_result (ext_generate client prompt).

End Builder.

(** ** The driver ([main] of [generate.py]) *)

(** The values [main] reads from [pipeline.yml] after the builder and
    the LLM client are set up. *)
Record Config := mkConfig {
  output_dir : Path;          (** [base_dir / "output" / subdirectory] *)
  skip_existing : bool;       (** [output.skip_existing] *)
  mode : str;                 (** [profile_selection.mode] *)
  count : Z;                  (** [profile_selection.count] *)
  include_style : bool;       (** [prompt_config.include_style] *)
  include_content : bool;     (** [prompt_config.include_content] *)
}.

Section Driver.
Context `{Ext : Externals}.

(** [enumerate(l, start)]. *)
Fixpoint enumerate {A} (start : Z) (l : list A) : list (Z * A) :=
  match l with
  | [] => []
  | x :: l' => (start, x) :: enumerate (start + 1) l'
  end.

(** [range(a, b)]. *)
Definition range (a b : Z) : list Z := seqZ a (b - a).

(** [f"{structure_name}_{profile_id}"]. *)
Definition doc_label (structure_name profile_id : str) : str :=
  structure_name ++ lit "_" ++ profile_id.

(** [f"[{i}/{total_docs}] "]. *)
Definition progress (i total_docs : Z) : str :=
  lit "[" ++ str_of_Z i ++ lit "/" ++ str_of_Z total_docs ++ lit "] ".

(** The statements both loops of [main] run for one profile: build the
    prompt, take the timestamp, generate when there is a client, and
    save. A caught generation error ends the iteration ([continue]). *)
Definition generate_document (cfg : Config) (llm_client : option LLMClient)
    (total_docs i : Z) (profile : Profile) : M ctl :=
  '(prompt, structure_name, profile_id) ←
     build_prompt profile (include_style cfg) (include_content cfg);
  timestamp ← generate_timestamp;
  outcome ←
    match llm_client with
    | Some client =>
        try_except
          (_ ← logger INFO
                 (lit "Generating content for " ++ doc_label structure_name profile_id);
           response ← llm_generate client prompt;
           content ← extract_output_content response;
           _ ← logger INFO
                 (lit "Successfully generated content for "
                  ++ doc_label structure_name profile_id
                  ++ lit " (length=" ++ str_of_len content ++ lit " chars)");
           mret (Some (Some content)))
          any_Exception
          (λ e,
             _ ← logger ERROR
                   (lit "Error generating content for "
                    ++ doc_label structure_name profile_id ++ lit ": " ++ exn_msg e);
             _ ← print (progress i total_docs ++ lit "error: "
                        ++ doc_label structure_name profile_id
                        ++ lit " - " ++ exn_msg e);
             mret None)
    | None => mret (Some None)
    end;
  match outcome with
  | None => mret Next
  | Some content =>
      _ ← print (progress i total_docs ++ lit "Generated: "
                 ++ doc_label structure_name profile_id ++ lit "_" ++ timestamp);
      _ ← save_document (output_dir cfg) structure_name profile_id timestamp
            prompt content;
      mret Next
  end.

(** The body of the loop of the sequential mode. *)
Definition sequential_body (cfg : Config) (llm_client : option LLMClient)
    (total_docs : Z) : Z * Profile → M ctl :=
  λ '(i, profile),
    if (i >? total_docs)%Z then mret Break
    else generate_document cfg llm_client total_docs i profile.

(** The loop of the sequential mode. *)
Definition sequential_loop (cfg : Config) (llm_client : option LLMClient)
    (total_docs : Z) : M () :=
  profiles ← get_sequential_profiles;
  for_in (enumerate 1 profiles) (sequential_body cfg llm_client total_docs).

(** The body of the loop of the random mode. *)
Definition random_body (cfg : Config) (llm_client : option LLMClient)
    (total_docs : Z) : Z → M ctl :=
  λ i,
    profile ← get_random_profile;
    generate_document cfg llm_client total_docs i profile.

(** The loop of the random mode. *)
Definition random_loop (cfg : Config) (llm_client : option LLMClient)
    (total_docs : Z) : M () :=
  for_in (range 1 (total_docs + 1)) (random_body cfg llm_client total_docs).

(** [if mode == "sequential": ... elif mode == "random": ...]. *)
Definition mode_loop (cfg : Config) (llm_client : option LLMClient)
    (total_docs : Z) : M () :=
  if bool_decide (mode cfg = lit "sequential") then
    sequential_loop cfg llm_client total_docs
  else if bool_decide (mode cfg = lit "random") then
    random_loop cfg llm_client total_docs
  else mret ().

(** The [skip_existing] step. *)
Definition skip_existing_step (cfg : Config) : M () :=
  if skip_existing cfg then
    existing_profiles ← get_existing_profile_ids (output_dir cfg);
    filtered_count ← filter_existing_profiles existing_profiles;
    _ ← print (lit "Skip existing enabled: Filtered out "
               ++ str_of_Z filtered_count ++ lit " existing profiles");
    logger INFO (lit "Skip existing enabled: " ++ str_of_Z filtered_count
                 ++ lit " profiles already generated")
  else mret ().

(** [total_docs = builder.get_profile_count() if count == -1 else count]. *)
Definition compute_total_docs (cfg : Config) : M Z :=
  if (count cfg =? -1)%Z then get_profile_count else mret (count cfg).

(** The value of [total_docs] in the world [w]. *)
Definition total_docs_of (cfg : Config) (w : World) : Z :=
  if (count cfg =? -1)%Z then Z.of_nat (length (w_profiles w)) else count cfg.

(** The second part of [main()], from the reading of [mode] and [count]
    to the end: the number of documents, the loop of the selected mode,
    the closing messages. *)
Definition generation_phase (cfg : Config) (llm_client : option LLMClient)
    : M () :=
  total_docs ← compute_total_docs cfg;
  let action := match llm_client with
                | Some _ => lit "documents"
                | None => lit "prompts"
                end in
  _ ← print (lit "Generating " ++ str_of_Z total_docs ++ lit " " ++ action
             ++ lit " in '" ++ mode cfg ++ lit "' mode...");
  _ ← print (repeat 35 60);
  _ ← mode_loop cfg llm_client total_docs;
  _ ← print (repeat 35 60);
  _ ← print (lit "Generated " ++ str_of_Z total_docs ++ lit " " ++ action);
  _ ← print (lit "Saved to: " ++ path_str (output_dir cfg));
  logger INFO (lit "Pipeline completed successfully. Generated "
               ++ str_of_Z total_docs ++ lit " " ++ action).

(** [main()], from the point where the output directory is known: the
    configuration has been read into [cfg], the builder has loaded its
    profiles, and [llm_client] is the client, or [None] when generation
    is disabled. *)
Definition main (cfg : Config) (llm_client : option LLMClient) : M () :=
  _ ← print (lit "Output directory: " ++ path_str (output_dir cfg));
  _ ← skip_existing_step cfg;
  generation_phase cfg llm_client.

(** The builder returns for the profile [p], with a prompt that has a
    UTF-8 encoding. *)
Definition builder_succeeds (cfg : Config) (p : Profile) : Prop :=
  ∀ e, ∃ prompt structure_name profile_id e',
    ext_build_prompt p (include_style cfg) (include_content cfg) e
    = (Ok (prompt, structure_name, profile_id), e')
    ∧ Utf8.encodable prompt = true.

(** The responses of the LLM to such prompts have a UTF-8 encoding. *)
Definition responses_encodable : Prop :=
  ∀ client prompt e response e',
    Utf8.encodable prompt = true →
    ext_generate client prompt e = (Ok response, e') →
    Utf8.encodable response = true.

(** No regular file stands where the output directory goes, and the
    available profiles are [ps]. *)
Definition ready (cfg : Config) (ps : list Profile) (w : World) : Prop :=
  w_files w !! output_dir cfg = None ∧ w_profiles w = ps.

(** A file content that is a document saved in a run with the client
    [llm_client]: the dict of [save_document], with a timestamp read
    from the clock, and with [content] exactly when there is a client. *)
Definition saved_document (llm_client : option LLMClient) (c : file_content)
    : Prop :=
  ∃ (doc_id structure_name profile_id prompt : str) (now : datetime)
    (content : option str),
    c = Json (JDict (document doc_id structure_name profile_id
                       (take 19 (strftime (lit "%Y%m%d_%H%M%S_%f") now))
                       prompt content))
    ∧ md5_hex (default prompt content) = Ok doc_id
    ∧ (is_Some content ↔ is_Some llm_client).

(** Every file of [w'] is as it was in [w], or is a document saved with
    the client [llm_client]. *)
Definition documents_only (llm_client : option LLMClient) (w w' : World) : Prop :=
  ∀ path, w_files w' !! path = w_files w !! path
          ∨ ∃ c, w_files w' !! path = Some c ∧ saved_document llm_client c.

End Driver.

(** ** [utils/load_names_locations.py] *)

Section NamesLocations.
Context `{Ext : Externals}.

(** The attributes of a [NamesLocationsLoader] after [__init__]. *)
Record NamesLocationsLoader := mkLoader {
  patient_names : list str;
  clinician_names : list str;
  providers : list str;
  wards_clinics : list str;
}.

(** [NamesLocationsLoader.sample(self)]: a dict with four keys. *)
Definition sample (self : NamesLocationsLoader) : M (list (str * str)) :=
  patient_name ← random_choice (patient_names self);
  clinician_name ← random_choice (clinician_names self);
  provider ← random_choice (providers self);
  ward_clinic ← random_choice (wards_clinics self);
  mret [ (lit "patient_name", patient_name);
         (lit "clinician_name", clinician_name);
         (lit "provider", provider);
         (lit "ward_clinic", ward_clinic) ].

End NamesLocations.

(** ** A concrete world, for running the pipeline on examples *)

Module Demo.

(** A profile is its identifier. The builder fails on the profile
    [broken]; the LLM fails on a prompt that ends in [p2]. The state of
    the collaborators counts their calls; it is the clock's microseconds
    and the random generator's seed. *)
#[export] Program Instance demo_ext : Externals := {|
  Env := nat;
  Profile := str;
  LLMClient := unit;
  profile_key := λ p, p;
  ext_build_prompt := λ p _ _ e,
    if bool_decide (p = lit "broken") then
      (Raise (Exn (OtherError (lit "ValueError")) (lit "bad profile")), S e)
    else (Ok (lit "Write a note for " ++ p, lit "letter", p), S e);
  ext_generate := λ _ prompt e,
    if endswith (lit "p2") prompt then
      (Raise (Exn (OtherError (lit "TimeoutError")) (lit "timed out")), S e)
    else (Ok (lit "Sure. <output> Note: " ++ prompt ++ lit " </output> Bye."), S e);
  ext_now := λ e, (Datetime 2025 3 9 14 5 7 (N.of_nat e), S e);
  ext_randbelow := λ n e, ((e `mod` n)%nat, S e);
|}.
Next Obligation. intros n e Hn. cbn. apply Nat.mod_upper_bound. lia. Qed.

Definition out_dir : Path := [lit "output"; lit "run1"].

(** A world with the given profiles, files and directories. *)
Definition world (profiles : list str) (files : gmap Path file_content)
    (dirs : gset Path) : World :=
  mkWorld files dirs [] [] [] profiles 0%nat.

(** The profile with the given identifier. *)
Definition profile (id : str) : Profile := id.

(** The state of the collaborators after [n] calls. *)
Definition env (n : nat) : Env := n.

(** The LLM client. *)
Definition the_client : LLMClient := ().
Definition client : option LLMClient := Some the_client.

(** Generation disabled. *)
Definition no_client : option LLMClient := None.

Definition seq_all : Config :=
  mkConfig out_dir false (lit "sequential") (-1) true true.

Definition seq_n (n : Z) (skip : bool) : Config :=
  mkConfig out_dir skip (lit "sequential") n true true.

Definition random_n (n : Z) : Config :=
  mkConfig out_dir false (lit "random") n true true.

End Demo.

(** ** Further definitions: digits, the scan, the prompt text, the rest of [main] *)

(** ** Decimal digits *)

(** The [w] low decimal digits of [n], the lowest first. *)
Fixpoint digits_le (w : nat) (n : N) : list N :=
  match w with
  | O => []
  | S w' => n mod 10 :: digits_le w' (n / 10)
  end.

(** A digit of the decimal numbers of the library, from its value. *)
Definition digit_of (a : N) : DecimalFacts.digits :=
  match a with
  | 0 => DecimalFacts.d0 | 1 => DecimalFacts.d1 | 2 => DecimalFacts.d2
  | 3 => DecimalFacts.d3 | 4 => DecimalFacts.d4 | 5 => DecimalFacts.d5
  | 6 => DecimalFacts.d6 | 7 => DecimalFacts.d7 | 8 => DecimalFacts.d8
  | _ => DecimalFacts.d9
  end.

(** The character of a digit. *)
Definition char_of_digit (d : DecimalFacts.digits) : char :=
  match d with
  | DecimalFacts.d0 => 48 | DecimalFacts.d1 => 49 | DecimalFacts.d2 => 50
  | DecimalFacts.d3 => 51 | DecimalFacts.d4 => 52 | DecimalFacts.d5 => 53
  | DecimalFacts.d6 => 54 | DecimalFacts.d7 => 55 | DecimalFacts.d8 => 56
  | DecimalFacts.d9 => 57
  end.

(** ** The scan, file by file *)

Section ScanSpec.
Context `{Ext : Externals}.

(** The files the loop of [get_existing_profile_ids] gets past: a text
    that is not JSON (the error is caught), or a JSON object whose
    [profile] value is falsy or can be hashed. On any other content the
    body raises an exception that the [except] clause does not catch. *)
Definition scannable (c : file_content) : bool :=
  match c with
  | NotJson _ => true
  | Json (JDict kv) =>
      let profile_id := dict_get (lit "profile") kv in
      negb (truthy profile_id)
      || match hashable profile_id with Ok _ => true | Raise _ => false end
  | Json _ => false
  end.

(** The element the loop adds to the set for a file, if any. *)
Definition collected_key (c : file_content) : option hkey :=
  match c with
  | Json (JDict kv) =>
      let profile_id := dict_get (lit "profile") kv in
      if truthy profile_id then
        match hashable profile_id with Ok k => Some k | Raise _ => None end
      else None
  | _ => None
  end.

(** The warning the loop logs for a file, if any. *)
Definition scan_warning (files : gmap Path file_content) (f : Path)
    : option (level * str) :=
  match files !! f with
  | Some (NotJson msg) =>
      Some (WARNING, lit "Could not read profile from " ++ path_name f
                     ++ lit ": " ++ msg)
  | _ => None
  end.

(** Every file of the list exists and is scannable. *)
Definition all_scannable (fs : gmap Path file_content) (files : list Path) : bool :=
  forallb (λ f, from_option scannable false (fs !! f)) files.

End ScanSpec.

(** ** [NamesLocationsLoader.format_prompt] *)

Section FormatPrompt.
Context `{Ext : Externals}.

(** [d[k]] on a dict with string values; on a missing key, [KeyError]
    with the [repr] of the key. *)
Fixpoint dict_item (k : str) (d : list (str * str)) : result str :=
  match d with
  | [] => Raise (Exn KeyError (lit "'" ++ k ++ lit "'"))
  | (k', v) :: d' => if decide (k' = k) then Ok v else dict_item k d'
  end.

(** [sep.join(lines)]. *)
Fixpoint str_join (sep : str) (lines : list str) : str :=
  match lines with
  | [] => []
  | [l] => l
  | l :: ls => l ++ sep ++ str_join sep ls
  end.

(** [s.split(sep)] for a separator of one character. *)
Fixpoint str_split (sep : char) (s : str) : list str :=
  match s with
  | [] => [[]]
  | c :: s' =>
      if c =? sep then [] :: str_split sep s'
      else match str_split sep s' with
           | l :: ls => (c :: l) :: ls
           | [] => [[c]]
           end
  end.

(** [NamesLocationsLoader.format_prompt(self, sampled)]. *)
Definition format_prompt (self : NamesLocationsLoader)
    (sampled : list (str * str)) : M str :=
  let lines := [lit "## USE THESE NAMES AND LOCATIONS (BUT REDACT AS PROMPTED)"] in
  let lines := lines ++ [[]] in
  patient_name ← lift (dict_item (lit "patient_name") sampled);
  let lines := lines ++ [lit "**Patient Name:** " ++ patient_name] in
  clinician_name ← lift (dict_item (lit "clinician_name") sampled);
  let lines := lines ++ [lit "**Clinician Name:** " ++ clinician_name] in
  provider ← lift (dict_item (lit "provider") sampled);
  let lines := lines ++ [lit "**Hospital/Practice:** " ++ provider] in
  ward_clinic ← lift (dict_item (lit "ward_clinic") sampled);
  let lines := lines ++ [lit "**Ward/Clinic:** " ++ ward_clinic] in
  let lines := lines ++ [[]] in
  mret (str_join [10] lines).

(** The keys [format_prompt] reads, in the order it reads them. *)
Definition prompt_keys : list str :=
  [lit "patient_name"; lit "clinician_name"; lit "provider"; lit "ward_clinic"].

(** The lines of the text [format_prompt] builds. *)
Definition prompt_lines (patient_name clinician_name provider ward_clinic : str)
    : list str :=
  [ lit "## USE THESE NAMES AND LOCATIONS (BUT REDACT AS PROMPTED)";
    [];
    lit "**Patient Name:** " ++ patient_name;
    lit "**Clinician Name:** " ++ clinician_name;
    lit "**Hospital/Practice:** " ++ provider;
    lit "**Ward/Clinic:** " ++ ward_clinic;
    [] ].

End FormatPrompt.

(** ** More of [main]: the LLM client, the file system *)

Section DriverMore.
Context `{Ext : Externals}.

(** The step of [main()] that initialises the LLM client, for the
    values [enabled] and [provider] read from the [llm] section of the
    configuration ([False] and ["none"] when absent) and the factory
    [create_llm_client] applied to that section. The result is [None]
    when [main] returns at once, and else the value of [llm_client]. *)
Definition initialise_llm_client
    (create_llm_client : Env → result (option LLMClient) * Env)
    (enabled : bool) (provider : str) : M (option (option LLMClient)) :=
  if enabled then
    try_except
      (_ ← print (lit "Initialising LLM client (provider: " ++ provider ++ lit ")...");
       llm_client ← external_result create_llm_client;
       _ ← match llm_client with
           | Some _ =>
               _ ← print (lit "LLM client initialised");
               logger INFO (lit "LLM client initialised: " ++ provider)
           | None => print (lit "LLM generation disabled (provider set to 'none')")
           end;
       mret (Some llm_client))
      any_Exception
      (λ e,
         _ ← print (lit "Error initialising LLM client: " ++ exn_msg e);
         _ ← logger ERROR (lit "Failed to initialize LLM client: " ++ exn_msg e);
         mret None)
  else
    _ ← print (lit "LLM generation disabled (saving prompts only)");
    _ ← logger INFO (lit "LLM generation disabled");
    mret (Some None).

(** [main()] from the initialisation of the LLM client to the end. *)
Definition main_from_llm_client
    (create_llm_client : Env → result (option LLMClient) * Env)
    (enabled : bool) (provider : str) (cfg : Config) : M () :=
  r ← initialise_llm_client create_llm_client enabled provider;
  match r with
  | None => mret ()
  | Some llm_client => main cfg llm_client
  end.

(** The changes to the file system that stay within the directory
    [dir]: a file that changed or appeared is a [.json] file of [dir],
    no file disappeared, no directory disappeared, and a directory that
    appeared is [dir] or one of its ancestors. *)
Definition confined (dir : Path) (w w' : World) : Prop :=
  (∀ path, w_files w' !! path = w_files w !! path
           ∨ ∃ name, path = path_div dir name
                     ∧ endswith (lit ".json") name = true
                     ∧ is_Some (w_files w' !! path))
  ∧ (∀ path, is_Some (w_files w !! path) → is_Some (w_files w' !! path))
  ∧ (∀ d, d ∈ w_dirs w → d ∈ w_dirs w')
  ∧ (∀ d, d ∈ w_dirs w' → d ∈ w_dirs w ∨ d `prefix_of` dir).

End DriverMore.

(** ** Accounting for the attempts *)

Section Accounting.
Context `{Ext : Externals}.

(** The number of documents written and of errors logged so far. *)
Definition documents_written (w : World) : nat := length (write_calls (w_calls w)).

Definition errors_logged (w : World) : nat :=
  length (filter (λ r, r.1 = ERROR) (w_log w)).

(** The attempts made so far that have neither written a document nor
    logged an error. *)
Definition unsettled (w : World) : Z :=
  Z.of_nat (length (attempted w)) - Z.of_nat (documents_written w)
  - Z.of_nat (errors_logged w).

(** When [m] returns, it leaves the projection [f] of the world as it
    was. *)
Definition steady {A X} (f : World → X) (m : M A) : Prop :=
  ∀ w a, (m w).1 = Ok a → f (m w).2 = f w.

End Accounting.

Module ScanDemo.

(** An output directory with a saved document, a file that is not
    JSON, and a file with another name. *)
Definition w : World :=
  Demo.world [lit "p1"; lit "p3"]
    {[ path_div Demo.out_dir (lit "0f.json")
         := Json (JDict (document (lit "0f") (lit "letter") (lit "p1")
                           (lit "20250309_140507_000")
                           (lit "Write a note for p1") None));
       path_div Demo.out_dir (lit "bad.json") := NotJson (lit "Expecting value");
       path_div Demo.out_dir (lit "notes.txt") := Json (JList []) ]}
    {[ Demo.out_dir ]}.

End ScanDemo.

(** * Properties *)

(** ** The library functions on known values *)

Example search_ex1 :
  Re.search (lit "noise <output>
 hello
</output> tail") = Some (lit "
 hello
").
Proof. reflexivity. Qed.

Example strip_ex1 : strip (lit "  a b
 ") = lit "a b".
Proof. reflexivity. Qed.

Example str_of_Z_ex : str_of_Z 120 = lit "120" ∧ str_of_Z (-7) = lit "-7" ∧ str_of_Z 0 = lit "0".
Proof. repeat split; reflexivity. Qed.

Example md5_empty : md5_hex [] = Ok (lit "d41d8cd98f00b204e9800998ecf8427e").
Proof. vm_compute. reflexivity. Qed.

Example md5_abc : md5_hex (lit "abc") = Ok (lit "900150983cd24fb0d6963f7d28e17f72").
Proof. vm_compute. reflexivity. Qed.

Example md5_fox :
  md5_hex (lit "The quick brown fox jumps over the lazy dog")
  = Ok (lit "9e107d9d372bb6826bd81d3542a419d6").
Proof. vm_compute. reflexivity. Qed.

(** Seventy times [a]: two blocks. *)
Example md5_two_blocks :
  md5_hex (repeat 97 70) = Ok (lit "0f5c6c4e740bfcc08c3c26ccb2673d46").
Proof. vm_compute. reflexivity. Qed.

(** Non-ASCII text: [h], U+00E9, [llo ], U+20AC, U+1F600. *)
Example md5_unicode :
  md5_hex (lit "h" ++ [0xE9] ++ lit "llo " ++ [0x20AC; 0x1F600])
  = Ok (lit "4e2a2b927c97e95b189b57bcf55c3803").
Proof. vm_compute. reflexivity. Qed.

Example md5_surrogate : ∃ e, md5_hex [0xD800] = Raise e ∧ exn_cls e = UnicodeEncodeError.
Proof. eexists. split; reflexivity. Qed.

Example strftime_ex :
  strftime (lit "%Y%m%d_%H%M%S_%f") (Datetime 2025 3 9 14 5 7 1234)
  = lit "20250309_140507_001234".
Proof. vm_compute. reflexivity. Qed.

(** ** Strings and the regular expression *)

Section StringFacts.

Lemma strip_prefix_Some (p s r : str) :
  strip_prefix p s = Some r ↔ s = p ++ r.
Proof.
  revert s. induction p as [|a p IH]; intros s; simpl.
  - split; [by intros [= ->] | by intros ->].
  - destruct s as [|b s]; [split; [done | intros [=]] |].
    destruct (N.eqb_spec a b) as [->|Hne].
    + rewrite IH. split; [by intros -> | by intros [= ->]].
    + split; [done | by intros [= ? ?]].
Qed.

Lemma strip_prefix_app (p s : str) : strip_prefix p (p ++ s) = Some s.
Proof. by apply strip_prefix_Some. Qed.

(** A literal whose first character does not occur again has no proper
    overlap with itself: if it is a prefix of [X ++ literal ++ post]
    and [X] is not empty, it already occurs in [X]. *)
Lemma prefix_no_overlap (h : char) (t X post r : str) :
  h ∉ t → X ≠ [] →
  strip_prefix (h :: t) (X ++ (h :: t) ++ post) = Some r →
  occurs (h :: t) X.
Proof.
  intros Hh HX Hp. apply strip_prefix_Some in Hp.
  destruct (decide (length (h :: t) ≤ length X)%nat) as [Hle|Hgt].
  - exists [], (drop (length (h :: t)) X).
    apply (f_equal (take (length (h :: t)))) in Hp.
    rewrite take_app_le in Hp by done.
    rewrite (take_app_length (h :: t) r) in Hp.
    rewrite app_nil_l.
    transitivity (take (length (h :: t)) X ++ drop (length (h :: t)) X);
      [by rewrite take_drop | by rewrite Hp].
  - exfalso. apply Hh.
    assert (Hlk : (X ++ (h :: t) ++ post) !! length X = Some h).
    { rewrite lookup_app_r by lia. by rewrite Nat.sub_diag. }
    rewrite Hp in Hlk. rewrite lookup_app_l in Hlk by lia.
    destruct X as [|x X]; [done|]. simpl in Hlk.
    by apply list_elem_of_lookup_2 in Hlk.
Qed.

Lemma contains_occurs (s t : str) : contains s t = true ↔ occurs s t.
Proof.
  induction t as [|x t IH]; cbn [contains].
  - destruct (strip_prefix s []) as [r|] eqn:E.
    + apply strip_prefix_Some in E. split; [|done]. intros _. by exists [], r.
    + split; [done|]. intros (a & b & Hab). symmetry in Hab.
      apply app_eq_nil in Hab as [-> [-> ->]%app_eq_nil].
      by cbn in E.
  - destruct (strip_prefix s (x :: t)) as [r|] eqn:E.
    + apply strip_prefix_Some in E. split; [|done]. intros _. by exists [], r.
    + rewrite IH. split.
      * intros (a & b & ->). by exists (x :: a), b.
      * intros (a & b & Hab). destruct a as [|y a].
        -- rewrite app_nil_l in Hab. rewrite Hab, strip_prefix_app in E. done.
        -- injection Hab as -> ->. by exists a, b.
Qed.

Lemma not_contains_occurs (s t : str) : contains s t = false → ¬ occurs s t.
Proof. intros Hc Ho%contains_occurs. congruence. Qed.

Lemma occurs_cons_inv (s t : str) (c : char) :
  ¬ occurs s (c :: t) → ¬ occurs s t.
Proof. intros Hn (a & b & ->). apply Hn. by exists (c :: a), b. Qed.

Lemma lazy_until_sound (c s g r : str) :
  Re.lazy_until c s = Some (g, r) → s = g ++ c ++ r.
Proof.
  revert g. induction s as [|x s IH]; intros g; simpl.
  - destruct (strip_prefix c []) eqn:E; [|done].
    intros [= <- <-]. by apply strip_prefix_Some in E.
  - destruct (strip_prefix c (x :: s)) eqn:E.
    + intros [= <- <-]. by apply strip_prefix_Some in E.
    + destruct (Re.lazy_until c s) as [[g' r']|]; [|done].
      intros [= <- <-]. simpl. f_equal. by apply IH.
Qed.

(** The lazy group stops at the first occurrence of the literal. *)
Lemma lazy_until_first (h : char) (t X post : str) :
  h ∉ t → ¬ occurs (h :: t) X →
  Re.lazy_until (h :: t) (X ++ (h :: t) ++ post) = Some (X, post).
Proof.
  intros Hh. induction X as [|x X IH]; intros HX.
  - change ([] ++ (h :: t) ++ post) with ((h :: t) ++ post).
    destruct post; simpl Re.lazy_until; by rewrite ?strip_prefix_app, ?N.eqb_refl.
  - change ((x :: X) ++ (h :: t) ++ post) with (x :: (X ++ (h :: t) ++ post)).
    cbn [Re.lazy_until].
    change (x :: (X ++ (h :: t) ++ post)) with ((x :: X) ++ (h :: t) ++ post).
    destruct (strip_prefix (h :: t) ((x :: X) ++ (h :: t) ++ post)) eqn:E.
    + exfalso. apply HX. by eapply prefix_no_overlap.
    + rewrite IH; [done|]. by eapply occurs_cons_inv.
Qed.

Lemma open_tag_head : 60 ∉ lit "output>".
Proof. apply (bool_decide_unpack _). by vm_compute. Qed.

Lemma close_tag_head : 60 ∉ lit "/output>".
Proof. apply (bool_decide_unpack _). by vm_compute. Qed.

Lemma match_here_sound (s g r : str) :
  Re.match_here s = Some (g, r) → s = Re.open_tag ++ g ++ Re.close_tag ++ r.
Proof.
  unfold Re.match_here. destruct (strip_prefix Re.open_tag s) eqn:E; [|done].
  intros Hl%lazy_until_sound. apply strip_prefix_Some in E. by subst.
Qed.

(** A match is a tagged section of the text. *)
Lemma search_sound (s g : str) :
  Re.search s = Some g →
  ∃ pre post, s = pre ++ Re.open_tag ++ g ++ Re.close_tag ++ post.
Proof.
  induction s as [|x s IH]; cbn [Re.search].
  - destruct (Re.match_here []) as [[g' r]|] eqn:E; [|done].
    intros [= <-]. apply match_here_sound in E. by exists [], r.
  - destruct (Re.match_here (x :: s)) as [[g' r]|] eqn:E.
    + intros [= <-]. apply match_here_sound in E. by exists [], r.
    + intros (pre & post & ->)%IH. by exists (x :: pre), post.
Qed.

Lemma match_here_first (X post : str) :
  ¬ occurs Re.close_tag X →
  Re.match_here (Re.open_tag ++ X ++ Re.close_tag ++ post) = Some (X, post).
Proof.
  intros HX. unfold Re.match_here. rewrite strip_prefix_app.
  apply (lazy_until_first 60 (lit "/output>")); [apply close_tag_head | done].
Qed.

Lemma search_here (s g r : str) :
  Re.match_here s = Some (g, r) → Re.search s = Some g.
Proof. intros Hm. destruct s; cbn [Re.search]; by rewrite Hm. Qed.

Lemma search_skip (x : char) (s : str) :
  Re.match_here (x :: s) = None → Re.search (x :: s) = Re.search s.
Proof. intros Hm. cbn [Re.search]. by rewrite Hm. Qed.

(** The search returns the section that starts at the first opening tag
    and ends at the first closing tag after it. *)
Lemma search_first (pre X post : str) :
  ¬ occurs Re.open_tag pre → ¬ occurs Re.close_tag X →
  Re.search (pre ++ Re.open_tag ++ X ++ Re.close_tag ++ post) = Some X.
Proof.
  intros Hpre HX. induction pre as [|x pre IH].
  - rewrite app_nil_l. eapply search_here. by apply match_here_first.
  - rewrite <- app_comm_cons, search_skip.
    + apply IH. by eapply occurs_cons_inv.
    + unfold Re.match_here. rewrite app_comm_cons.
      destruct (strip_prefix Re.open_tag _) eqn:E; [|done].
      exfalso. apply Hpre.
      by eapply (prefix_no_overlap 60 (lit "output>")); [apply open_tag_head| |apply E].
Qed.

Lemma search_None (s : str) :
  (¬ ∃ pre X post, s = pre ++ Re.open_tag ++ X ++ Re.close_tag ++ post) →
  Re.search s = None.
Proof.
  intros Hn. destruct (Re.search s) as [g|] eqn:E; [|done].
  exfalso. apply search_sound in E as (pre & post & ->). apply Hn. eauto.
Qed.

End StringFacts.

(** ** [extract_output_content] *)

Section Extract.
Context `{Ext : Externals}.

(** What the function returns, and what it logs, in terms of the
    search. *)
Lemma extract_output_content_run (text : str) (w : World) :
  (extract_output_content text w).1
  = Ok (strip (default text (Re.search text))).
Proof.
  unfold extract_output_content. by destruct (Re.search text).
Qed.

Lemma findall_fuel_head (n : nat) (s g : str) (l : list str) :
  Re.findall_fuel n s = g :: l → Re.search s = Some g.
Proof.
  revert s. induction n as [|n IH]; intros s; [done|]. cbn [Re.findall_fuel].
  destruct (Re.match_here s) as [[g' r]|] eqn:E.
  - intros [= -> _]. by eapply search_here.
  - destruct s as [|x s]; [done|]. intros Hf%IH. by rewrite search_skip.
Qed.

Lemma match_here_shorter (s g r : str) :
  Re.match_here s = Some (g, r) → (length r < length s)%nat.
Proof.
  intros ->%match_here_sound. rewrite !length_app.
  change (length Re.open_tag) with 8%nat. lia.
Qed.

(** The fuel of [findall] is enough: more of it changes nothing. *)
Lemma findall_fuel_enough (n m : nat) (s : str) :
  (length s < n)%nat → (length s < m)%nat →
  Re.findall_fuel n s = Re.findall_fuel m s.
Proof.
  revert m s. induction n as [|n IH]; intros m s Hn Hm; [lia|].
  destruct m as [|m]; [lia|]. cbn [Re.findall_fuel].
  destruct (Re.match_here s) as [[g r]|] eqn:E.
  - apply match_here_shorter in E. f_equal. apply IH; lia.
  - destruct s as [|x s]; [done|]. cbn [length] in *. apply IH; lia.
Qed.

(** C3, as amended. The section returned is the one that starts at the
    first [<output>] of the text and ends at the first [</output>] after
    it: for a text [pre ++ "<output>" ++ X ++ "</output>" ++ post] in
    which [pre] has no [<output>] and [X] has no [</output>], the function
    returns [X] stripped of leading and trailing whitespace, whatever the
    surrounding text (newlines included). For a text with no tagged
    section at all, it returns the whole text stripped. *)
Theorem extract_output_content_first_section (w : World) :
  (∀ pre X post : str,
     ¬ occurs Re.open_tag pre → ¬ occurs Re.close_tag X →
     (extract_output_content
        (pre ++ Re.open_tag ++ X ++ Re.close_tag ++ post) w).1
     = Ok (strip X))
  ∧ (∀ text : str,
       (¬ ∃ pre X post, text = pre ++ Re.open_tag ++ X ++ Re.close_tag ++ post) →
       (extract_output_content text w).1 = Ok (strip text)).
Proof.
  split.
  - intros pre X post Hpre HX.
    by rewrite extract_output_content_run, search_first.
  - intros text Hn. by rewrite extract_output_content_run, search_None.
Qed.

(** C10. For a text with two (or more) disjoint tagged sections, the
    first of which starts at the first [<output>] and ends at the first
    [</output>] after it, the function returns the stripped content of
    that first section, whatever the later sections hold. In terms of
    the matches of the pattern ([re.findall]): with two or more matches,
    the result is the first match, stripped. *)
Theorem extract_output_content_leftmost (w : World) :
  (∀ pre X1 mid X2 post : str,
     ¬ occurs Re.open_tag pre → ¬ occurs Re.close_tag X1 →
     (extract_output_content
        (pre ++ Re.open_tag ++ X1 ++ Re.close_tag
             ++ mid ++ Re.open_tag ++ X2 ++ Re.close_tag ++ post) w).1
     = Ok (strip X1))
  ∧ (∀ (text s1 s2 : str) (more : list str),
       Re.findall text = s1 :: s2 :: more →
       (extract_output_content text w).1 = Ok (strip s1)).
Proof.
  split.
  - intros pre X1 mid X2 post Hpre HX.
    by rewrite extract_output_content_run, search_first.
  - intros text s1 s2 more Hf.
    by rewrite extract_output_content_run, (findall_fuel_head _ _ _ _ Hf).
Qed.

End Extract.

Lemma no_section_short (text : str) :
  (length text < 17)%nat →
  ¬ ∃ pre X post, text = pre ++ Re.open_tag ++ X ++ Re.close_tag ++ post.
Proof.
  intros Hlen (pre & X & post & ->). rewrite !length_app in Hlen.
  change (length Re.open_tag) with 8%nat in Hlen.
  change (length Re.close_tag) with 9%nat in Hlen. lia.
Qed.

Lemma extract_output_content_first_section_witness :
  (extract_output_content
     (lit "Here it is:
<output>
  Dear Dr <output> Smith
</output> trailing </output>") (Demo.world [] ∅ ∅)).1
  = Ok (lit "Dear Dr <output> Smith")
  ∧ (extract_output_content (lit "  no tags here ") (Demo.world [] ∅ ∅)).1
    = Ok (lit "no tags here").
Proof.
  split.
  - apply (proj1 (extract_output_content_first_section (Demo.world [] ∅ ∅))
             (lit "Here it is:
") (lit "
  Dear Dr <output> Smith
") (lit " trailing </output>")); by apply not_contains_occurs.
  - apply (proj2 (extract_output_content_first_section (Demo.world [] ∅ ∅))
             (lit "  no tags here ")).
    apply no_section_short. vm_compute. lia.
Defined.

(** C3 as stated fails: the text below contains [<output>b</output>],
    yet the function returns [a], not [b]. *)
Lemma extract_output_content_not_any_section :
  lit "<output>a</output><output>b</output>"
  = lit "<output>a</output>" ++ Re.open_tag ++ lit "b" ++ Re.close_tag ++ []
  ∧ (extract_output_content (lit "<output>a</output><output>b</output>")
       (Demo.world [] ∅ ∅)).1 = Ok (lit "a")
  ∧ strip (lit "b") ≠ lit "a".
Proof. repeat split. by vm_compute. Qed.

Lemma extract_output_content_leftmost_witness :
  (extract_output_content
     (lit "x <output> one </output> y <output> two </output> z")
     (Demo.world [] ∅ ∅)).1 = Ok (lit "one")
  ∧ Re.findall (lit "x <output> one </output> y <output> two </output> z")
    = [lit " one "; lit " two "].
Proof.
  split; [|reflexivity].
  apply (proj1 (extract_output_content_leftmost (Demo.world [] ∅ ∅))
           (lit "x ") (lit " one ") (lit " y ") (lit " two ") (lit " z"));
    by apply not_contains_occurs.
Defined.

(** ** [save_document] *)

Section Save.
Context `{Ext : Externals}.

(** A complete description of one call. *)
Lemma save_document_run (dir : Path) (sn pid ts prompt : str)
    (content : option str) (w : World) :
  save_document dir sn pid ts prompt content w =
  if bool_decide (is_Some (w_files w !! dir)) then
    (Raise (Exn FileExistsError (lit "File exists: " ++ path_str dir)), w)
  else
    let w1 := mkWorld (w_files w) (w_dirs w ∪ list_to_set (path_prefixes dir))
                (w_log w) (w_out w) (w_calls w) (w_profiles w) (w_env w) in
    match md5_hex (default prompt content) with
    | Raise e => (Raise e, w1)
    | Ok doc_id =>
        let path := path_div dir (doc_id ++ lit ".json") in
        (Ok (),
         mkWorld (<[path := Json (JDict (document doc_id sn pid ts prompt content))]>
                    (w_files w))
           (w_dirs w1)
           (w_log w ++ [(DEBUG, lit "Saved document to " ++ path_str path)])
           (w_out w) (w_calls w ++ [CallWrite path]) (w_profiles w) (w_env w))
    end.
Proof.
  unfold save_document, mbind, M_bind, bind, mkdir_parents.
  case_bool_decide; [done|].
  destruct content as [c|]; cbn [default]; unfold lift;
    destruct (md5_hex _); reflexivity.
Qed.

(** C1. A call of [save_document] that writes a file writes exactly one,
    named [<doc_id>.json] in the output directory, and the [doc_id]
    field of the JSON written is the MD5 hex digest of [content] when it
    is not [None], else of [prompt]; a call that raises writes nothing.
    So two saves of the same content, whatever the other arguments and
    the state, carry the same [doc_id]. *)
Theorem save_document_doc_id :
  (∀ (dir : Path) (sn pid ts prompt : str) (content : option str) (w : World),
     match save_document dir sn pid ts prompt content w with
     | (Ok _, w') =>
         ∃ doc_id kv,
           md5_hex (default prompt content) = Ok doc_id
           ∧ w_files w' = <[path_div dir (doc_id ++ lit ".json") := Json (JDict kv)]>
                            (w_files w)
           ∧ dict_get (lit "doc_id") kv = JStr doc_id
           ∧ w_calls w' = w_calls w ++ [CallWrite (path_div dir (doc_id ++ lit ".json"))]
     | (Raise _, w') => w_files w' = w_files w ∧ w_calls w' = w_calls w
     end)
  ∧ (∀ (c : str) (dir1 dir2 : Path) (sn1 pid1 ts1 prompt1 sn2 pid2 ts2 prompt2 : str)
       (w1 w2 : World),
       let run1 := save_document dir1 sn1 pid1 ts1 prompt1 (Some c) w1 in
       let run2 := save_document dir2 sn2 pid2 ts2 prompt2 (Some c) w2 in
       run1.1 = Ok () → run2.1 = Ok () →
       ∃ doc_id kv1 kv2,
         md5_hex c = Ok doc_id
         ∧ w_files run1.2 !! path_div dir1 (doc_id ++ lit ".json")
           = Some (Json (JDict kv1))
         ∧ w_files run2.2 !! path_div dir2 (doc_id ++ lit ".json")
           = Some (Json (JDict kv2))
         ∧ dict_get (lit "doc_id") kv1 = JStr doc_id
         ∧ dict_get (lit "doc_id") kv2 = JStr doc_id).
Proof.
  split.
  - intros. rewrite save_document_run. case_bool_decide; [done|].
    cbn zeta. destruct (md5_hex _) as [doc_id|e]; [|done].
    eexists doc_id, _. by repeat split.
  - intros c dir1 dir2 sn1 pid1 ts1 prompt1 sn2 pid2 ts2 prompt2 w1 w2.
    cbn zeta. rewrite !save_document_run. repeat case_bool_decide; try done.
    change (default ?p (Some c)) with c. cbn zeta.
    destruct (md5_hex c) as [doc_id|e]; [|done].
    intros _ _. eexists doc_id, _, _. cbn [snd w_files].
    rewrite !lookup_insert_eq. by repeat split.
Qed.

End Save.

Lemma save_document_doc_id_witness :
  let run1 := save_document Demo.out_dir (lit "letter") (lit "p1") (lit "t1")
                (lit "prompt A") (Some (lit "abc")) (Demo.world [] ∅ ∅) in
  let run2 := save_document [lit "elsewhere"] (lit "note") (lit "p9") (lit "t2")
                (lit "prompt B") (Some (lit "abc")) run1.2 in
  ∃ doc_id kv1 kv2,
    md5_hex (lit "abc") = Ok doc_id
    ∧ w_files run1.2 !! path_div Demo.out_dir (doc_id ++ lit ".json")
      = Some (Json (JDict kv1))
    ∧ w_files run2.2 !! path_div [lit "elsewhere"] (doc_id ++ lit ".json")
      = Some (Json (JDict kv2))
    ∧ dict_get (lit "doc_id") kv1 = JStr doc_id
    ∧ dict_get (lit "doc_id") kv2 = JStr doc_id.
Proof.
  apply (proj2 save_document_doc_id (lit "abc") Demo.out_dir [lit "elsewhere"]
           (lit "letter") (lit "p1") (lit "t1") (lit "prompt A")
           (lit "note") (lit "p9") (lit "t2") (lit "prompt B"));
    vm_compute; reflexivity.
Defined.

(** ** Reasoning about runs *)

Section Runs.
Context `{Ext : Externals}.

Context (R : World → World → Prop) `{!PreOrder R}.

Lemma preserves_ret {A} (a : A) : preserves R (mret a).
Proof. intros w. reflexivity. Qed.

Lemma preserves_raise {A} (e : exn) : preserves R (raise (A:=A) e).
Proof. intros w. reflexivity. Qed.

Lemma preserves_lift {A} (r : result A) : preserves R (lift r).
Proof. intros w. reflexivity. Qed.

Lemma preserves_bind {A B} (m : M A) (k : A → M B) :
  preserves R m → (∀ a, preserves R (k a)) → preserves R (m ≫= k).
Proof.
  intros Hm Hk w. unfold mbind, M_bind, bind.
  specialize (Hm w). destruct (m w) as [[a|e] w1]; [|done].
  etransitivity; [exact Hm | apply Hk].
Qed.

Lemma preserves_try_except {A} (m : M A) (c : exn_class → bool) (h : exn → M A) :
  preserves R m → (∀ e, preserves R (h e)) → preserves R (try_except m c h).
Proof.
  intros Hm Hh w. unfold try_except.
  specialize (Hm w). destruct (m w) as [[a|e] w1]; [done|].
  destruct (c (exn_cls e)); [|done].
  etransitivity; [exact Hm | apply Hh].
Qed.

Lemma preserves_for_in {A} (l : list A) (body : A → M ctl) :
  (∀ x, x ∈ l → preserves R (body x)) → preserves R (for_in l body).
Proof.
  induction l as [|x l IH]; intros Hb; cbn [for_in].
  - apply preserves_ret.
  - apply preserves_bind; [apply Hb; left|].
    intros [|]; [|apply preserves_ret]. apply IH. intros y Hy. apply Hb. by right.
Qed.

End Runs.

#[export] Instance same_preorder `{Ext : Externals} {X} (f : World → X) :
  PreOrder (same f).
Proof. split; [by intros w | intros w1 w2 w3 H1 H2; unfold same in *; congruence]. Qed.

(** ** The trace of calls *)

Section Traces.
Context `{Ext : Externals}.

Lemma build_calls_app (a b : list call) :
  build_calls (a ++ b) = build_calls a ++ build_calls b.
Proof. induction a as [|[] a IH]; cbn; by rewrite ?IH. Qed.

Lemma generate_calls_app (a b : list call) :
  generate_calls (a ++ b) = generate_calls a ++ generate_calls b.
Proof. induction a as [|[] a IH]; cbn; by rewrite ?IH. Qed.

Lemma write_calls_app (a b : list call) :
  write_calls (a ++ b) = write_calls a ++ write_calls b.
Proof. induction a as [|[] a IH]; cbn; by rewrite ?IH. Qed.

Lemma bind_run {A B} (m : M A) (k : A → M B) (w : World) :
  (m ≫= k) w = match m w with
               | (Ok a, w1) => k a w1
               | (Raise e, w1) => (Raise e, w1)
               end.
Proof. reflexivity. Qed.

(** A sequence whose first part is in [R1] and whose second part is in
    [R2] is in their composition. *)
Lemma bind_rel {A B} (R1 R2 R3 : World → World → Prop)
    (m : M A) (k : A → M B) :
  preserves R1 m →
  (∀ a, preserves R2 (k a)) →
  (∀ w1 w2, R1 w1 w2 → R3 w1 w2) →
  (∀ w1 w2 w3, R1 w1 w2 → R2 w2 w3 → R3 w1 w3) →
  preserves R3 (m ≫= k).
Proof.
  intros Hm Hk H13 H123 w. rewrite bind_run. specialize (Hm w).
  destruct (m w) as [[a|e] w1]; [|by apply H13].
  eapply H123; [exact Hm | apply Hk].
Qed.

(** The same when the first part never raises. *)
Lemma bind_rel_total {A B} (R1 R2 R3 : World → World → Prop)
    (m : M A) (k : A → M B) :
  preserves R1 m →
  (∀ w e, (m w).1 ≠ Raise e) →
  (∀ a, preserves R2 (k a)) →
  (∀ w1 w2 w3, R1 w1 w2 → R2 w2 w3 → R3 w1 w3) →
  preserves R3 (m ≫= k).
Proof.
  intros Hm Hok Hk H123 w. rewrite bind_run.
  specialize (Hm w). specialize (Hok w).
  destruct (m w) as [[a|e] w1]; [|by destruct (Hok e)].
  eapply H123; [exact Hm | apply Hk].
Qed.

Lemma try_except_rel {A} (R1 R2 R3 : World → World → Prop)
    (m : M A) (c : exn_class → bool) (h : exn → M A) :
  preserves R1 m →
  (∀ e, preserves R2 (h e)) →
  (∀ w1 w2, R1 w1 w2 → R3 w1 w2) →
  (∀ w1 w2 w3, R1 w1 w2 → R2 w2 w3 → R3 w1 w3) →
  preserves R3 (try_except m c h).
Proof.
  intros Hm Hh H13 H123 w. unfold try_except. specialize (Hm w).
  destruct (m w) as [[a|e] w1]; [by apply H13|].
  destruct (c (exn_cls e)); [|by apply H13].
  eapply H123; [exact Hm | apply Hh].
Qed.

Lemma scan_files_preserves (R : World → World → Prop) `{!PreOrder R}
    (files : list Path) (s : gset hkey) :
  (∀ s f, preserves R (scan_file s f)) → preserves R (scan_files s files).
Proof.
  intros Hf. revert s. induction files as [|f files IH]; intros s; cbn [scan_files].
  - by apply preserves_ret.
  - apply preserves_bind; [done | apply Hf | intros s'; apply IH].
Qed.

End Traces.

(** Decomposes a goal [preserves R m] along the structure of [m]; the
    primitive effects are closed by unfolding them. *)
Ltac pres_prim :=
  let w := fresh "w" in
  intros w; unfold same, attempted, generated;
  first
    [ reflexivity
    | match goal with
      | |- context [external ?f w] =>
          unfold external; destruct (f (w_env w)); reflexivity
      end
    | unfold mkdir_parents, read_json, random_choice, glob_json, path_exists;
      repeat case_bool_decide; repeat case_match; reflexivity
    | cbn; rewrite ?build_calls_app, ?generate_calls_app, ?write_calls_app;
      cbn; rewrite ?app_nil_r; reflexivity ].

Ltac pres_step :=
  first
    [ apply preserves_ret; typeclasses eauto
    | apply preserves_raise; typeclasses eauto
    | apply preserves_lift; typeclasses eauto
    | apply preserves_bind; [ typeclasses eauto | | intros ? ]
    | apply preserves_try_except; [ typeclasses eauto | | intros ? ]
    | match goal with
      | |- preserves _ (match ?x with _ => _ end) => destruct x
      | |- preserves _ (if ?b then _ else _) => destruct b
      | |- preserves _ (let '(_, _) := ?x in _) => destruct x
      end
    | assumption
    | apply scan_files_preserves;
        [ typeclasses eauto | intros ? ?; unfold scan_file ]
    | progress unfold extract_output_content ].

Ltac pres := repeat pres_step; try pres_prim.

(** ** One iteration: [generate_document] *)

Section Iteration.
Context `{Ext : Externals}.

Lemma generate_document_profiles cfg llm total i p :
  preserves (same w_profiles) (generate_document cfg llm total i p).
Proof. unfold generate_document, build_prompt, llm_generate, external_result. pres. Qed.

Lemma build_prompt_run p a b w :
  build_prompt p a b w
  = let '(r, e) := ext_build_prompt p a b (w_env w) in
    (r, set_env e (add_calls [CallBuildPrompt p] w)).
Proof.
  unfold build_prompt, external_result. rewrite bind_run. cbn [record_call].
  unfold bind, external. cbn [w_env add_calls].
  by destruct (ext_build_prompt _ _ _ _) as [[r|e] e1].
Qed.

Lemma llm_generate_run client prompt w :
  llm_generate client prompt w
  = let '(r, e) := ext_generate client prompt (w_env w) in
    (r, set_env e (add_calls [CallGenerate prompt] w)).
Proof.
  unfold llm_generate, external_result. rewrite bind_run. cbn [record_call].
  unfold bind, external. cbn [w_env add_calls].
  by destruct (ext_generate _ _ _) as [[r|e] e1].
Qed.

Lemma generate_timestamp_run w :
  generate_timestamp w
  = let '(now, e) := ext_now (w_env w) in
    (Ok (take 19 (strftime (lit "%Y%m%d_%H%M%S_%f") now)), set_env e w).
Proof.
  unfold generate_timestamp. rewrite bind_run. unfold external.
  by destruct (ext_now _).
Qed.

Lemma try_except_run {A} (m : M A) (c : exn_class → bool) (h : exn → M A) w :
  try_except m c h w
  = match m w with
    | (Ok a, w1) => (Ok a, w1)
    | (Raise e, w1) => if c (exn_cls e) then h e w1 else (Raise e, w1)
    end.
Proof. reflexivity. Qed.

(** Every iteration is one attempt, for its profile, whatever its
    outcome. *)
Lemma generate_document_attempted cfg llm total i p w :
  attempted (generate_document cfg llm total i p w).2 = attempted w ++ [p].
Proof.
  revert w. change (preserves (attempt_for p) (generate_document cfg llm total i p)).
  unfold generate_document.
  apply (bind_rel (attempt_for p) (same attempted) (attempt_for p)).
  - intros w. rewrite build_prompt_run.
    destruct (ext_build_prompt _ _ _ _) as [r e1].
    unfold attempt_for, attempted. cbn. by rewrite build_calls_app.
  - intros [[prompt sn] pid]. unfold llm_generate, external_result. pres.
  - done.
  - unfold same, attempt_for. intros w1 w2 w3 H1 H2. congruence.
Qed.

End Iteration.

(** ** The calls to the LLM *)

Section Generated.
Context `{Ext : Externals}.

Lemma sent_after_same prompt w1 w2 w3 :
  sent prompt w1 w2 → same generated w2 w3 → sent prompt w1 w3.
Proof. unfold sent, same. congruence. Qed.

Lemma same_before_sent prompt w1 w2 w3 :
  same generated w1 w2 → sent prompt w2 w3 → sent prompt w1 w3.
Proof. unfold sent, same. congruence. Qed.

(** With a client, an iteration that ends normally has sent exactly one
    prompt to the LLM. *)
Lemma generate_document_generated cfg client total i p w c :
  let run := generate_document cfg (Some client) total i p w in
  run.1 = Ok c → ∃ prompt, generated run.2 = generated w ++ [prompt].
Proof.
  cbn zeta. unfold generate_document. rewrite bind_run, build_prompt_run.
  destruct (ext_build_prompt _ _ _ _) as [[[[prompt sn] pid]|e] e1]; [|done].
  intros _. exists prompt.
  replace (generated w)
    with (generated (set_env e1 (add_calls [CallBuildPrompt p] w)))
    by (unfold generated; cbn; rewrite generate_calls_app; cbn; by rewrite app_nil_r).
  generalize (set_env e1 (add_calls [CallBuildPrompt p] w)). clear w.
  match goal with
  | |- ∀ w, generated (?k w).2 = _ => change (preserves (sent prompt) k)
  end.
  apply (bind_rel_total (same generated) (sent prompt) (sent prompt));
    [ pres | | | apply same_before_sent].
  { intros w e. rewrite generate_timestamp_run. by destruct (ext_now _). }
  intros ts.
  apply (bind_rel (sent prompt) (same generated) (sent prompt));
    [ | | done | apply sent_after_same].
  - apply (try_except_rel (sent prompt) (same generated) (sent prompt));
      [ | intros e; pres | done | apply sent_after_same].
    apply (bind_rel_total (same generated) (sent prompt) (sent prompt));
      [ pres | done | | apply same_before_sent].
    intros _.
    apply (bind_rel (sent prompt) (same generated) (sent prompt));
      [ | intros response; pres | done | apply sent_after_same].
    intros w. rewrite llm_generate_run. destruct (ext_generate _ _ _) as [r e].
    unfold sent, generated. cbn. by rewrite generate_calls_app.
  - intros [content|]; [|pres]. unfold save_document. pres.
Qed.

(** Without a client, nothing is sent. *)
Lemma generate_document_not_generated cfg total i p :
  preserves (same generated) (generate_document cfg None total i p).
Proof. unfold generate_document, build_prompt, external_result. pres. Qed.

(** The prompts an iteration that ends normally has sent: one with a
    client, none without. *)
Lemma generate_document_sent cfg llm total i p w c :
  let run := generate_document cfg llm total i p w in
  run.1 = Ok c →
  length (generated run.2)
  = (length (generated w) + calls_per_attempt llm)%nat.
Proof.
  cbn zeta. intros Hok. destruct llm as [client|]; cbn [calls_per_attempt].
  - destruct (generate_document_generated cfg client total i p w c Hok) as [prompt ->].
    by rewrite length_app.
  - rewrite (generate_document_not_generated cfg total i p w). lia.
Qed.

End Generated.

(** ** The loops *)

Section Loops.
Context `{Ext : Externals}.

Lemma returns_bind {A B} (P : B → Prop) (m : M A) (k : A → M B) :
  (∀ a, returns P (k a)) → returns P (m ≫= k).
Proof.
  intros Hk w b. rewrite bind_run.
  destruct (m w) as [[a|e] w1]; [apply Hk | done].
Qed.

Lemma returns_ret {A} (P : A → Prop) (a : A) : P a → returns P (mret a).
Proof. by intros Ha w b [= <-]. Qed.

Lemma returns_try_except {A} (P : A → Prop) (m : M A) (c : exn_class → bool)
    (h : exn → M A) :
  returns P m → (∀ e, returns P (h e)) → returns P (try_except m c h).
Proof.
  intros Hm Hh w a. rewrite try_except_run. specialize (Hm w).
  destruct (m w) as [[a'|e] w1]; [apply Hm|].
  destruct (c (exn_cls e)); [apply Hh | done].
Qed.

(** An iteration never asks to leave the loop. *)
Lemma generate_document_next cfg llm total i p :
  returns (λ c, c = Next) (generate_document cfg llm total i p).
Proof.
  unfold generate_document.
  apply returns_bind; intros [[prompt sn] pid].
  apply returns_bind; intros ts.
  apply returns_bind; intros [content|].
  - do 2 (apply returns_bind; intros _). by apply returns_ret.
  - by apply returns_ret.
Qed.

Lemma for_in_cons {A} (x : A) (l : list A) (body : A → M ctl) (w : World) :
  for_in (x :: l) body w =
  match body x w with
  | (Ok Next, w1) => for_in l body w1
  | (Ok Break, w1) => (Ok (), w1)
  | (Raise e, w1) => (Raise e, w1)
  end.
Proof.
  cbn [for_in]. rewrite bind_run. by destruct (body x w) as [[[|]|e] w1].
Qed.

(** A sequential loop that ends normally has attempted the first
    [total - i + 1] of the profiles it was given, in their order, with
    one call to the LLM for each when there is a client. *)
Lemma sequential_for_in cfg llm total (ps : list Profile) (i : Z) (w : World) :
  (1 ≤ i)%Z →
  let run := for_in (enumerate i ps) (sequential_body cfg llm total) w in
  let n := Z.to_nat (total - i + 1) in
  run.1 = Ok () →
  attempted run.2 = attempted w ++ take n ps
  ∧ w_profiles run.2 = w_profiles w
  ∧ length (generated run.2)
    = (length (generated w) + calls_per_attempt llm * length (take n ps))%nat.
Proof.
  cbn zeta. revert i w. induction ps as [|p ps IH]; intros i w Hi.
  - intros _. cbn. rewrite take_nil, app_nil_r. cbn. repeat split; lia.
  - cbn [enumerate]. rewrite for_in_cons. cbn [sequential_body].
    destruct (Z.gtb_spec i total) as [Hgt|Hle].
    + intros _. cbn [fst snd]. replace (Z.to_nat (total - i + 1)) with 0%nat by lia.
      rewrite take_0, app_nil_r. cbn. repeat split; lia.
    + pose proof (generate_document_attempted cfg llm total i p w) as Hat.
      pose proof (generate_document_profiles cfg llm total i p w) as Hpr.
      pose proof (generate_document_next cfg llm total i p w) as Hnx.
      pose proof (generate_document_sent cfg llm total i p w) as Hsent.
      cbn zeta in Hsent.
      destruct (generate_document cfg llm total i p w) as [[c|e] w1]; [|done].
      rewrite (Hnx c eq_refl). intros Hok.
      destruct (IH (i + 1)%Z w1 ltac:(lia) Hok) as (-> & -> & ->).
      cbn [snd] in Hat, Hpr, Hsent. rewrite Hat, (Hsent c eq_refl).
      unfold same in Hpr.
      replace (Z.to_nat (total - i + 1)) with (S (Z.to_nat (total - (i + 1) + 1)))
        by lia.
      rewrite <- app_assoc. cbn [take length app]. repeat split; [done|lia].
Qed.

(** [random.choice] returns an element of the sequence and touches
    nothing but the random generator. *)
Lemma random_choice_elem {A} (seq : list A) :
  returns (λ x, x ∈ seq) (random_choice seq).
Proof.
  intros w x. unfold random_choice. case_bool_decide; [done|].
  rewrite bind_run. unfold external.
  destruct (ext_randbelow (length seq) (w_env w)) as [n e].
  destruct (seq !! n) as [y|] eqn:E; [|done].
  intros [= <-]. by eapply list_elem_of_lookup_2.
Qed.

Lemma random_choice_same {A X} (f : World → X) (seq : list A) :
  (∀ w e, f (set_env e w) = f w) → preserves (same f) (random_choice seq).
Proof.
  intros Hf w. unfold same, random_choice. case_bool_decide; [done|].
  rewrite bind_run. unfold external.
  destruct (ext_randbelow (length seq) (w_env w)) as [n e].
  destruct (seq !! n); apply Hf.
Qed.

Lemma random_body_spec cfg llm total (i : Z) (w : World) (c : ctl) :
  let run := random_body cfg llm total i w in
  run.1 = Ok c →
  c = Next
  ∧ (∃ p, p ∈ w_profiles w
          ∧ attempted run.2 = attempted w ++ [p]
          ∧ w_profiles run.2 = w_profiles w)
  ∧ length (generated run.2)
    = (length (generated w) + calls_per_attempt llm)%nat.
Proof.
  cbn zeta. unfold random_body. rewrite bind_run. unfold get_random_profile.
  pose proof (random_choice_elem (w_profiles w) w) as Hel.
  pose proof (random_choice_same attempted (w_profiles w) (λ _ _, eq_refl) w) as Hat0.
  pose proof (random_choice_same w_profiles (w_profiles w) (λ _ _, eq_refl) w) as Hpr0.
  pose proof (random_choice_same generated (w_profiles w) (λ _ _, eq_refl) w) as Hge0.
  destruct (random_choice (w_profiles w) w) as [[p|e] w0]; [|done].
  specialize (Hel p eq_refl). cbn [snd] in Hat0, Hpr0, Hge0. unfold same in *.
  intros Hok. split; [by eapply generate_document_next|]. split.
  - exists p. split; [done|].
    rewrite generate_document_attempted, Hat0. split; [done|].
    rewrite <- Hpr0. apply generate_document_profiles.
  - rewrite <- Hge0. by eapply generate_document_sent.
Qed.

(** A random loop that ends normally has made one attempt per index,
    each for one of the available profiles, with one call to the LLM
    for each when there is a client. *)
Lemma random_for_in cfg llm total (l : list Z) (w : World) :
  let run := for_in l (random_body cfg llm total) w in
  run.1 = Ok () →
  ∃ extra, attempted run.2 = attempted w ++ extra
           ∧ length extra = length l
           ∧ Forall (λ p, p ∈ w_profiles w) extra
           ∧ w_profiles run.2 = w_profiles w
           ∧ length (generated run.2)
             = (length (generated w) + calls_per_attempt llm * length l)%nat.
Proof.
  cbn zeta. revert w. induction l as [|i l IH]; intros w.
  - intros _. exists []. cbn. rewrite app_nil_r. repeat split; [done|lia].
  - rewrite for_in_cons.
    pose proof (random_body_spec cfg llm total i w) as Hb. cbn zeta in Hb.
    destruct (random_body cfg llm total i w) as [[c|e] w1]; [|done].
    destruct (Hb c eq_refl) as (-> & (p & Hp & Hat & Hpr) & Hge).
    cbn [snd] in Hat, Hpr, Hge.
    intros Hok. destruct (IH w1 Hok) as (extra & -> & Hlen & Hall & -> & ->).
    exists (p :: extra). rewrite Hat, Hge, <- app_assoc. repeat split.
    + cbn. by rewrite Hlen.
    + constructor; [done|]. by rewrite Hpr in Hall.
    + done.
    + cbn [length]. lia.
Qed.

End Loops.

(** ** The driver *)

Section MainFacts.
Context `{Ext : Externals}.

Lemma skip_existing_step_attempted cfg :
  preserves (same attempted) (skip_existing_step cfg).
Proof.
  unfold skip_existing_step. pres.
Qed.

Lemma skip_existing_step_generated cfg :
  preserves (same generated) (skip_existing_step cfg).
Proof.
  unfold skip_existing_step. pres.
Qed.

Lemma skip_existing_step_off cfg :
  skip_existing cfg = false → preserves (same w_profiles) (skip_existing_step cfg).
Proof. intros Hs. unfold skip_existing_step. rewrite Hs. pres. Qed.

Lemma compute_total_docs_run cfg w :
  compute_total_docs cfg w = (Ok (total_docs_of cfg w), w).
Proof. unfold compute_total_docs, total_docs_of. by destruct (_ =? _)%Z. Qed.

(** The generation phase is the loop of the mode, between messages. *)
Lemma generation_phase_loop cfg llm w :
  ∃ w1, attempted w1 = attempted w ∧ w_profiles w1 = w_profiles w
        ∧ w_files w1 = w_files w ∧ generated w1 = generated w
        ∧ let loop := mode_loop cfg llm (total_docs_of cfg w) w1 in
          let run := generation_phase cfg llm w in
          (run.1 = Ok () → loop.1 = Ok ())
          ∧ attempted run.2 = attempted loop.2
          ∧ w_profiles run.2 = w_profiles loop.2
          ∧ w_files run.2 = w_files loop.2
          ∧ generated run.2 = generated loop.2.
Proof.
  unfold generation_phase. rewrite bind_run, compute_total_docs_run.
  do 2 (rewrite bind_run; cbn [print]).
  match goal with
  | |- context [(mode_loop _ _ _ ≫= _) ?x] => exists x
  end.
  do 4 (split; [done|]).
  cbn zeta. rewrite bind_run.
  destruct (mode_loop _ _ _ _) as [[[]|e] w2]; [|done].
  do 3 (rewrite bind_run; cbn [print]). done.
Qed.

Lemma mode_loop_sequential cfg llm total w :
  mode cfg = lit "sequential" →
  mode_loop cfg llm total w
  = for_in (enumerate 1 (w_profiles w)) (sequential_body cfg llm total) w.
Proof.
  intros Hm. unfold mode_loop. rewrite Hm.
  rewrite bool_decide_eq_true_2 by done. reflexivity.
Qed.

Lemma mode_loop_random cfg llm total w :
  mode cfg = lit "random" →
  mode_loop cfg llm total w
  = for_in (range 1 (total + 1)) (random_body cfg llm total) w.
Proof.
  intros Hm. unfold mode_loop. rewrite Hm.
  rewrite bool_decide_eq_false_2 by done.
  rewrite bool_decide_eq_true_2 by done. reflexivity.
Qed.

(** [main] is the generation phase, run after the [skip_existing] step. *)
Lemma main_phases cfg llm w :
  ∃ w0, attempted w0 = attempted w ∧ w_profiles w0 = w_profiles w
        ∧ w_files w0 = w_files w ∧ w_dirs w0 = w_dirs w
        ∧ generated w0 = generated w
        ∧ main cfg llm w
          = match skip_existing_step cfg w0 with
            | (Ok _, w1) => generation_phase cfg llm w1
            | (Raise e, w1) => (Raise e, w1)
            end.
Proof.
  unfold main. rewrite !bind_run. cbn [print]. eexists.
  split; [|split; [|split; [|split; [|split]]]]; cycle 5; [reflexivity|done..].
Qed.

Lemma mode_loop_profiles cfg llm total :
  preserves (same w_profiles) (mode_loop cfg llm total).
Proof.
  unfold mode_loop, sequential_loop, random_loop, get_sequential_profiles.
  pres.
  - apply preserves_for_in; [apply _|]. intros [i p] _. unfold sequential_body.
    destruct (_ >? _)%Z; [pres | apply generate_document_profiles].
  - apply preserves_for_in; [apply _|]. intros i _. unfold random_body.
    apply preserves_bind; [apply _ | | intros p; apply generate_document_profiles].
    intros w. unfold get_random_profile. by apply random_choice_same.
Qed.

Lemma generation_phase_profiles cfg llm :
  preserves (same w_profiles) (generation_phase cfg llm).
Proof.
  unfold generation_phase, compute_total_docs, get_profile_count. pres.
  all: apply mode_loop_profiles.
Qed.

End MainFacts.

(** ** Number and order of the attempts *)

Section Attempts.
Context `{Ext : Externals}.

(** What a run of [main] that ends normally has attempted, in terms of
    the loop of its mode. *)
Lemma main_attempts cfg llm w :
  let run := main cfg llm w in
  run.1 = Ok () →
  ∃ w2, attempted w2 = attempted w
        ∧ generated w2 = generated w
        ∧ w_profiles w2 = w_profiles run.2
        ∧ (skip_existing cfg = false → w_profiles w2 = w_profiles w)
        ∧ let loop := mode_loop cfg llm (total_docs_of cfg w2) w2 in
          loop.1 = Ok ()
          ∧ attempted run.2 = attempted loop.2
          ∧ generated run.2 = generated loop.2
          ∧ w_profiles loop.2 = w_profiles run.2.
Proof.
  cbn zeta.
  destruct (main_phases cfg llm w) as (w0 & Ha0 & Hp0 & _ & _ & Hg0 & ->).
  pose proof (skip_existing_step_attempted cfg w0) as Ha1.
  pose proof (skip_existing_step_generated cfg w0) as Hg1.
  pose proof (skip_existing_step_off cfg) as Hp1.
  destruct (skip_existing_step cfg w0) as [[[]|e] w1] eqn:E; [|done].
  intros Hrun. cbn [snd] in Ha1, Hg1. unfold same in Ha1, Hg1.
  destruct (generation_phase_loop cfg llm w1)
    as (w2 & Ha2 & Hp2 & _ & Hg2 & Hloop).
  cbn zeta in Hloop. destruct Hloop as (Hok & Hat & Hpr & _ & Hge).
  assert (Ht : total_docs_of cfg w2 = total_docs_of cfg w1).
  { unfold total_docs_of. by rewrite Hp2. }
  assert (Hsame : w_profiles (mode_loop cfg llm (total_docs_of cfg w1) w2).2
                  = w_profiles w2) by apply mode_loop_profiles.
  exists w2. rewrite Ht. split; [congruence|]. split; [congruence|].
  split; [by rewrite Hpr, Hsame|]. split.
  { intros Hoff. specialize (Hp1 Hoff w0). rewrite E in Hp1. cbn in Hp1.
    unfold same in Hp1. congruence. }
  split; [by apply Hok|]. split; [done|]. split; [done|]. by rewrite Hpr.
Qed.

End Attempts.

(** ** Errors of one document *)

Section DocumentErrors.
Context `{Ext : Externals}.

(** C2, as amended. An exception raised by the LLM generation for a
    profile is caught: it is logged as an error and printed with the
    identifier [structure_profile] of the failing document, no file is
    written for the profile, and the iteration ends normally, so that the
    loop (sequential or random) goes on with the next profile. *)
Theorem generation_error_skipped (cfg : Config) (client : LLMClient)
    (total i : Z) (p : Profile) (w : World)
    (prompt sn pid : str) (dt : datetime) (err : exn) (e1 e2 e3 : Env) :
  ext_build_prompt p (include_style cfg) (include_content cfg) (w_env w)
    = (Ok (prompt, sn, pid), e1) →
  ext_now e1 = (dt, e2) →
  ext_generate client prompt e2 = (Raise err, e3) →
  let w' :=
    set_env e3
      (add_out [progress i total ++ lit "error: " ++ doc_label sn pid
                ++ lit " - " ++ exn_msg err]
         (add_log [(INFO, lit "Generating content for " ++ doc_label sn pid);
                   (ERROR, lit "Error generating content for "
                           ++ doc_label sn pid ++ lit ": " ++ exn_msg err)]
            (add_calls [CallBuildPrompt p; CallGenerate prompt] w))) in
  generate_document cfg (Some client) total i p w = (Ok Next, w')
  ∧ w_files w' = w_files w
  ∧ write_calls (w_calls w') = write_calls (w_calls w)
  ∧ (∀ ps, (i ≤ total)%Z →
       for_in (enumerate i (p :: ps)) (sequential_body cfg (Some client) total) w
       = for_in (enumerate (i + 1) ps) (sequential_body cfg (Some client) total) w')
  ∧ (∀ (l : list Z) (w0 : World),
       get_random_profile w0 = (Ok p, w) →
       for_in (i :: l) (random_body cfg (Some client) total) w0
       = for_in l (random_body cfg (Some client) total) w').
Proof.
  intros Hb Hn Hg w'.
  assert (Hrun : generate_document cfg (Some client) total i p w = (Ok Next, w')).
  { unfold generate_document.
    rewrite bind_run, build_prompt_run, Hb. cbv beta iota.
    rewrite bind_run, generate_timestamp_run. cbn [w_env set_env].
    rewrite Hn. cbv beta iota.
    rewrite bind_run, try_except_run, bind_run. cbn [logger].
    rewrite bind_run, llm_generate_run. cbn [w_env set_env add_log add_calls].
    rewrite Hg. cbv beta iota. cbn [any_Exception].
    rewrite bind_run. cbn [logger]. rewrite bind_run. cbn [print].
    unfold mret, M_ret, ret. cbv beta iota. subst w'. f_equal.
    clear. destruct w.
    lazy beta iota delta [set_env add_out add_log add_calls w_files w_dirs
                            w_log w_out w_calls w_profiles w_env].
    by rewrite <- !app_assoc. }
  split; [done|]. split; [done|]. split.
  { subst w'. cbn. rewrite write_calls_app. cbn. by rewrite app_nil_r. }
  split.
  - intros ps Hi. cbn [enumerate]. rewrite for_in_cons. cbn [sequential_body].
    destruct (Z.gtb_spec i total); [lia|]. by rewrite Hrun.
  - intros l w0 Hr. rewrite for_in_cons. unfold random_body at 1.
    rewrite bind_run, Hr. by rewrite Hrun.
Qed.

End DocumentErrors.

Lemma generation_error_skipped_witness :
  let w := Demo.world [lit "p2"; lit "p3"] ∅ ∅ in
  let run := generate_document Demo.seq_all Demo.client 2 1 (lit "p2") w in
  run.1 = Ok Next
  ∧ w_files run.2 = w_files w
  ∧ w_out run.2 = [lit "[1/2] error: letter_p2 - timed out"]
  ∧ w_log run.2 = [(INFO, lit "Generating content for letter_p2");
                   (ERROR, lit "Error generating content for letter_p2: timed out")].
Proof.
  intros w run.
  destruct (generation_error_skipped Demo.seq_all Demo.the_client 2 1 (lit "p2") w
              (lit "Write a note for p2") (lit "letter") (lit "p2")
              (Datetime 2025 3 9 14 5 7 1)
              (Exn (OtherError (lit "TimeoutError")) (lit "timed out"))
              1%nat 2%nat 3%nat)
    as (Hrun & Hfiles & _).
  - reflexivity.
  - reflexivity.
  - vm_compute. reflexivity.
  - subst run. unfold Demo.client. rewrite Hrun. cbn [fst snd].
    split; [reflexivity|]. split; [exact Hfiles|].
    split; vm_compute; reflexivity.
Defined.

(** C2 as stated fails for prompt building: the builder raises on the
    second of three profiles; the exception is not caught, nothing is
    logged as an error or printed about it, the run ends with the
    exception and the third profile is never attempted. *)
Lemma prompt_building_error_aborts :
  let w := Demo.world [lit "p1"; lit "broken"; lit "p3"] ∅ ∅ in
  let run := main Demo.seq_all Demo.client w in
  run.1 = Raise (Exn (OtherError (lit "ValueError")) (lit "bad profile"))
  ∧ attempted run.2 = [lit "p1"; lit "broken"]
  ∧ ¬ (ERROR ∈ (w_log run.2).*1)
  ∧ w_out run.2
    = [lit "Output directory: /output/run1";
       lit "Generating 3 documents in 'sequential' mode...";
       lit "############################################################";
       lit "[1/3] Generated: letter_p1_20250309_140507_000"].
Proof.
  repeat split; try (vm_compute; reflexivity).
  apply (bool_decide_unpack _). vm_compute. exact I.
Qed.

(** ** The scan of the existing documents *)

Section Scan.
Context `{Ext : Externals}.

(** What the scan does on one file, by the content of the file. *)
Lemma scan_file_run (s : gset hkey) (f : Path) (w : World) :
  scan_file s f w =
  match w_files w !! f with
  | Some (Json data) =>
      match method_get data (lit "profile") with
      | Ok profile_id =>
          if truthy profile_id then
            match hashable profile_id with
            | Ok k => (Ok (s ∪ {[k]}), w)
            | Raise e => (Raise e, w)
            end
          else (Ok s, w)
      | Raise e => (Raise e, w)
      end
  | Some (NotJson msg) =>
      (Ok s, add_log [(WARNING, lit "Could not read profile from "
                                ++ path_name f ++ lit ": " ++ msg)] w)
  | None => (Raise (Exn (OtherError (lit "FileNotFoundError")) (path_str f)), w)
  end.
Proof.
  unfold scan_file. rewrite try_except_run, bind_run. unfold read_json.
  destruct (w_files w !! f) as [[data|msg]|]; [|done..].
  rewrite bind_run. unfold lift.
  destruct data as [|b|z|t|l|kv]; try done.
  cbn [method_get]. destruct (truthy _); [|done].
  rewrite bind_run. by destruct (dict_get _ kv).
Qed.

(** A file that does not parse is logged and skipped. *)
Lemma scan_file_not_json (s : gset hkey) (f : Path) (w : World) (msg : str) :
  w_files w !! f = Some (NotJson msg) →
  scan_file s f w
  = (Ok s, add_log [(WARNING, lit "Could not read profile from "
                              ++ path_name f ++ lit ": " ++ msg)] w).
Proof. intros Hf. by rewrite scan_file_run, Hf. Qed.

(** A file that holds JSON other than an object ends the scan. *)
Lemma scan_file_not_dict (s : gset hkey) (f : Path) (w : World) (data : json) :
  w_files w !! f = Some (Json data) →
  (∀ kv, data ≠ JDict kv) →
  ∃ e, scan_file s f w = (Raise e, w) ∧ exn_cls e = AttributeError.
Proof.
  intros Hf Hd. rewrite scan_file_run, Hf.
  destruct data as [|b|z|t|l|kv]; try (by eexists); by destruct (Hd kv).
Qed.

(** The identifier of a saved document is collected, unless it is
    empty. *)
Lemma scan_file_collects (s s' : gset hkey) (f : Path) (w : World)
    (kv : list (str * json)) (id : str) :
  w_files w !! f = Some (Json (JDict kv)) →
  dict_get (lit "profile") kv = JStr id → id ≠ [] →
  (scan_file s f w).1 = Ok s' → HStr id ∈ s'.
Proof.
  intros Hf Hp Hid. rewrite scan_file_run, Hf. cbn [method_get]. rewrite Hp.
  cbn [truthy hashable]. rewrite bool_decide_eq_false_2 by done. cbn.
  intros [= <-]. set_solver.
Qed.

Lemma scan_file_mono (s s' : gset hkey) (f : Path) (w : World) :
  (scan_file s f w).1 = Ok s' → s ⊆ s'.
Proof.
  rewrite scan_file_run. repeat case_match; cbn; try done; intros [= <-]; set_solver.
Qed.

Lemma scan_file_files s f : preserves (same w_files) (scan_file s f).
Proof. unfold scan_file. pres. Qed.

Lemma scan_files_collects (files : list Path) (s E : gset hkey) (w : World)
    (f : Path) (kv : list (str * json)) (id : str) :
  (f ∈ files ∨ HStr id ∈ s) →
  w_files w !! f = Some (Json (JDict kv)) →
  dict_get (lit "profile") kv = JStr id → id ≠ [] →
  (scan_files s files w).1 = Ok E → HStr id ∈ E.
Proof.
  intros Hin Hf Hp Hid. revert s w Hin Hf.
  induction files as [|g files IH]; intros s w Hin Hf; cbn [scan_files].
  - intros [= <-]. destruct Hin as [Hin|Hin]; [by apply elem_of_nil in Hin|done].
  - rewrite bind_run.
    pose proof (λ s', scan_file_mono s s' g w) as Hmono.
    pose proof (λ s', scan_file_collects s s' g w kv id) as Hcol.
    pose proof (scan_file_files s g w) as Hfiles.
    destruct (scan_file s g w) as [[s1|e] w1]; [|done].
    cbn [fst snd] in *. unfold same in Hfiles.
    apply IH; [|by rewrite Hfiles].
    destruct Hin as [Hin|Hin].
    + apply elem_of_cons in Hin as [->|Hin]; [|by left].
      right. by apply Hcol.
    + right. specialize (Hmono s1 eq_refl). set_solver.
Qed.

Lemma path_div_parent (dir : Path) (name : str) :
  path_parent (path_div dir name) = dir.
Proof. apply removelast_last. Qed.

Lemma path_div_name (dir : Path) (name : str) :
  path_name (path_div dir name) = name.
Proof. apply last_last. Qed.

(** The scan collects the identifier of every saved document of the
    output directory, unless it is empty. *)
Lemma get_existing_profile_ids_collects (dir : Path) (w : World)
    (name : str) (kv : list (str * json)) (id : str) (E : gset hkey) :
  dir ∈ w_dirs w →
  w_files w !! path_div dir name = Some (Json (JDict kv)) →
  endswith (lit ".json") name = true →
  dict_get (lit "profile") kv = JStr id → id ≠ [] →
  (get_existing_profile_ids dir w).1 = Ok E → HStr id ∈ E.
Proof.
  intros Hdir Hf Hname Hp Hid. unfold get_existing_profile_ids.
  rewrite bind_run. unfold path_exists.
  rewrite (bool_decide_eq_true_2 _ Hdir). cbn [orb negb].
  rewrite bind_run. unfold glob_json.
  apply (scan_files_collects _ _ _ _ (path_div dir name) kv id); try done.
  left. apply list_elem_of_filter. split.
  - rewrite path_div_parent, path_div_name, Hname. repeat split.
    unfold path_div. by destruct dir.
  - apply list_elem_of_fmap. exists (path_div dir name, Json (JDict kv)).
    split; [done|]. by apply elem_of_map_to_list.
Qed.

End Scan.

(** ** The [skip_existing] filter *)

Section SkipExisting.
Context `{Ext : Externals}.

(** The attempts of a run that ends normally are for profiles that are
    available when the loop runs. *)
Lemma main_attempts_available cfg llm w :
  let run := main cfg llm w in
  run.1 = Ok () →
  ∃ extra, attempted run.2 = attempted w ++ extra
           ∧ Forall (λ p, p ∈ w_profiles run.2) extra.
Proof.
  intros run Hrun. subst run.
  destruct (main_attempts cfg llm w Hrun) as (w2 & Ha & _ & Hp & _ & Hloop).
  cbn zeta in Hloop. destruct Hloop as (Hok & -> & _). rewrite <- Hp, <- Ha.
  destruct (decide (mode cfg = lit "sequential")) as [Hm|Hm].
  - rewrite mode_loop_sequential in * by done.
    destruct (sequential_for_in cfg llm _ (w_profiles w2) 1 w2 ltac:(lia) Hok)
      as [-> _].
    eexists. split; [done|]. apply Forall_forall. intros p Hin.
    apply elem_of_take in Hin as (j & Hj & _). by eapply list_elem_of_lookup_2.
  - destruct (decide (mode cfg = lit "random")) as [Hm'|Hm'].
    + rewrite mode_loop_random in * by done.
      destruct (random_for_in cfg llm _ _ w2 Hok) as (extra & -> & _ & Hall & _).
      by exists extra.
    + unfold mode_loop. rewrite !bool_decide_eq_false_2 by done.
      exists []. by rewrite app_nil_r.
Qed.

Lemma get_existing_profile_ids_profiles dir :
  preserves (same w_profiles) (get_existing_profile_ids dir).
Proof. unfold get_existing_profile_ids. pres. Qed.

(** After the step, no available profile has the identifier of a saved
    document (a non-empty identifier). *)
Lemma skip_existing_step_filters cfg w name kv id :
  skip_existing cfg = true →
  output_dir cfg ∈ w_dirs w →
  w_files w !! path_div (output_dir cfg) name = Some (Json (JDict kv)) →
  endswith (lit ".json") name = true →
  dict_get (lit "profile") kv = JStr id → id ≠ [] →
  let step := skip_existing_step cfg w in
  step.1 = Ok () →
  ∀ p, p ∈ w_profiles step.2 → profile_key p ≠ id.
Proof.
  intros Hs Hdir Hf Hname Hp Hid. cbn zeta. unfold skip_existing_step.
  rewrite Hs, bind_run.
  pose proof (get_existing_profile_ids_collects (output_dir cfg) w name kv id)
    as Hcol.
  pose proof (get_existing_profile_ids_profiles (output_dir cfg) w) as Hprof.
  destruct (get_existing_profile_ids (output_dir cfg) w) as [[E|e] w1]; [|done].
  specialize (Hcol E Hdir Hf Hname Hp Hid eq_refl).
  rewrite bind_run. unfold filter_existing_profiles.
  rewrite bind_run. cbn [print]. cbn [logger fst snd].
  intros _ p. cbn [add_log add_out w_profiles].
  intros [Hkey _]%list_elem_of_filter Heq. apply Hkey. by rewrite Heq.
Qed.

(** C6, as amended. With [skip_existing] on, every profile whose
    identifier is not empty and is the [profile] field of a saved JSON
    document of the output directory is removed from the available
    profiles before [total_docs] is computed and the loop of the mode
    runs: the second part of [main] runs in a world [w1] whose available
    profiles exclude it, and no generation is attempted for it. *)
Theorem skip_existing_excludes (cfg : Config) (llm : option LLMClient)
    (w : World) (name : str) (kv : list (str * json)) (id : str) :
  skip_existing cfg = true →
  output_dir cfg ∈ w_dirs w →
  w_files w !! path_div (output_dir cfg) name = Some (Json (JDict kv)) →
  endswith (lit ".json") name = true →
  dict_get (lit "profile") kv = JStr id →
  id ≠ [] →
  let run := main cfg llm w in
  run.1 = Ok () →
  ∃ w1,
    run = generation_phase cfg llm w1
    ∧ attempted w1 = attempted w
    ∧ (∀ p, p ∈ w_profiles w1 → profile_key p ≠ id)
    ∧ (count cfg = (-1)%Z →
       total_docs_of cfg w1 = Z.of_nat (length (w_profiles w1)))
    ∧ ∃ extra, attempted run.2 = attempted w ++ extra
               ∧ Forall (λ p, profile_key p ≠ id) extra.
Proof.
  intros Hs Hdir Hf Hname Hp Hid run Hrun.
  destruct (main_attempts_available cfg llm w Hrun) as (extra & Hat & Hall).
  subst run.
  destruct (main_phases cfg llm w) as (w0 & Ha0 & _ & Hf0 & Hd0 & _ & Hmain).
  rewrite <- Hf0 in Hf. rewrite <- Hd0 in Hdir.
  pose proof (skip_existing_step_filters cfg w0 name kv id Hs Hdir Hf Hname Hp Hid)
    as Hfil. cbn zeta in Hfil.
  pose proof (skip_existing_step_attempted cfg w0) as Ha1.
  rewrite Hmain in *.
  destruct (skip_existing_step cfg w0) as [[[]|e] w1]; [|done].
  cbn [fst snd] in *. unfold same in Ha1.
  exists w1. split; [done|]. split; [congruence|]. split; [by apply Hfil|].
  split.
  { intros Hc. unfold total_docs_of. by rewrite Hc. }
  exists extra. split; [done|].
  pose proof (generation_phase_profiles cfg llm w1) as Hpr. unfold same in Hpr.
  rewrite Hpr in Hall. eapply Forall_impl; [exact Hall|].
  intros p Hin. by apply Hfil.
Qed.

End SkipExisting.

Lemma skip_existing_excludes_witness :
  let kv := document (lit "0f") (lit "letter") (lit "p1") (lit "20250309_140507_000")
              (lit "Write a note for p1") None in
  let w := Demo.world [lit "p1"; lit "p3"]
             {[ path_div Demo.out_dir (lit "0f.json") := Json (JDict kv) ]}
             {[ Demo.out_dir ]} in
  let run := main (Demo.seq_n (-1) true) None w in
  ∃ w1,
    run = generation_phase (Demo.seq_n (-1) true) None w1
    ∧ attempted w1 = attempted w
    ∧ (∀ p, p ∈ w_profiles w1 → profile_key p ≠ lit "p1")
    ∧ (count (Demo.seq_n (-1) true) = (-1)%Z →
       total_docs_of (Demo.seq_n (-1) true) w1 = Z.of_nat (length (w_profiles w1)))
    ∧ ∃ extra, attempted run.2 = attempted w ++ extra
               ∧ Forall (λ p, profile_key p ≠ lit "p1") extra.
Proof.
  intros kv w.
  apply (skip_existing_excludes (Demo.seq_n (-1) true) None w (lit "0f.json") kv
           (lit "p1")).
  - reflexivity.
  - by apply elem_of_singleton.
  - apply lookup_singleton_eq.
  - vm_compute. reflexivity.
  - reflexivity.
  - discriminate.
  - vm_compute. reflexivity.
Defined.

(** C6 as stated fails for an empty identifier: a first run saves the
    documents of the profile with the empty identifier and of [p1]; a
    second run on the same output directory, with [skip_existing] on,
    removes [p1] but keeps the other profile, whose identifier is the [profile] field of a saved
    document, and generates for it again. *)
Lemma skip_existing_keeps_empty_identifier :
  let w0 := Demo.world [[]; lit "p1"] ∅ ∅ in
  let run1 := main (Demo.seq_n (-1) false) None w0 in
  let w1 := Demo.world [[]; lit "p1"] (w_files run1.2) (w_dirs run1.2) in
  let run2 := main (Demo.seq_n (-1) true) None w1 in
  let saved := path_div Demo.out_dir (lit "aa44326656c5f67fe6c369f8d22dd97b.json") in
  run1.1 = Ok ()
  ∧ run2.1 = Ok ()
  ∧ w_files w1 !! saved
    = Some (Json (JDict (document (lit "aa44326656c5f67fe6c369f8d22dd97b")
                           (lit "letter") (profile_key (Demo.profile []))
                           (lit "20250309_140507_000")
                           (lit "Write a note for ") None)))
  ∧ w_profiles run2.2 = [Demo.profile []]
  ∧ attempted run2.2 = [Demo.profile []].
Proof. repeat split; vm_compute; reflexivity. Qed.

(** C9: the code at a failing input. The output directory holds one
    file, [notes.json], whose content is the JSON array [[]]: valid
    JSON that is not an object. The scan does not log and skip it: the
    [AttributeError] of [data.get] is not among the exceptions caught,
    leaves [get_existing_profile_ids] and ends the run before anything
    is generated. A file that does not parse, by contrast, is logged
    and skipped. *)
Theorem scan_aborts_on_json_array :
  let w := Demo.world [lit "p1"]
             {[ path_div Demo.out_dir (lit "notes.json") := Json (JList []) ]}
             {[ Demo.out_dir ]} in
  let w' := Demo.world [lit "p1"]
              {[ path_div Demo.out_dir (lit "notes.json") := NotJson (lit "Expecting value") ]}
              {[ Demo.out_dir ]} in
  let err := Exn AttributeError (lit "'list' object has no attribute 'get'") in
  let run := main (Demo.seq_n (-1) true) None w in
  let run' := main (Demo.seq_n (-1) true) None w' in
  (get_existing_profile_ids Demo.out_dir w).1 = Raise err
  ∧ run.1 = Raise err
  ∧ attempted run.2 = []
  ∧ w_log run.2 = []
  ∧ run'.1 = Ok ()
  ∧ attempted run'.2 = [lit "p1"]
  ∧ hd_error (w_log run'.2)
    = Some (WARNING, lit "Could not read profile from notes.json: Expecting value").
Proof. repeat split; vm_compute; reflexivity. Qed.

(** ** The format of the saved documents *)

Section Documents.
Context `{Ext : Externals}.

#[local] Instance documents_only_preorder llm : PreOrder (documents_only llm).
Proof.
  split.
  - intros w path. by left.
  - intros w1 w2 w3 H12 H23 path.
    destruct (H23 path) as [Heq|Hdoc]; [|by right].
    rewrite Heq. apply H12.
Qed.

Lemma preserves_weaken {A} (R R' : World → World → Prop) (m : M A) :
  (∀ w w', R w w' → R' w w') → preserves R m → preserves R' m.
Proof. intros HR Hm w. apply HR, Hm. Qed.

Lemma preserves_bind_returns {A B} (R : World → World → Prop) `{!PreOrder R}
    (P : A → Prop) (m : M A) (k : A → M B) :
  preserves R m → returns P m → (∀ a, P a → preserves R (k a)) →
  preserves R (m ≫= k).
Proof.
  intros Hm HP Hk w. rewrite bind_run. specialize (Hm w). specialize (HP w).
  destruct (m w) as [[a|e] w1]; [|done].
  etransitivity; [exact Hm | apply Hk, HP; done].
Qed.

Lemma same_files_documents_only llm w w' :
  same w_files w w' → documents_only llm w w'.
Proof. intros Hs path. left. by rewrite Hs. Qed.

(** A computation that leaves the files alone. *)
Ltac files_untouched :=
  eapply preserves_weaken; [apply same_files_documents_only|]; pres.

Lemma zpad_length (width : nat) (n : N) : (width ≤ length (zpad width n))%nat.
Proof.
  unfold zpad. rewrite length_app, repeat_length.
  match goal with
  | |- (_ ≤ _ - ?a + ?b)%nat => change b with a; generalize a
  end.
  lia.
Qed.

(** The timestamp always has 19 characters. *)
Lemma timestamp_length (now : datetime) :
  length (take 19 (strftime (lit "%Y%m%d_%H%M%S_%f") now)) = 19%nat.
Proof.
  rewrite length_take.
  change (strftime (lit "%Y%m%d_%H%M%S_%f") now)
    with (zpad 4 (year now) ++ zpad 2 (month now) ++ zpad 2 (day now) ++ [95]
          ++ zpad 2 (hour now) ++ zpad 2 (minute now) ++ zpad 2 (second now)
          ++ [95] ++ zpad 6 (microsecond now) ++ []).
  rewrite !length_app. cbn [length].
  pose proof (zpad_length 4 (year now)). pose proof (zpad_length 2 (month now)).
  pose proof (zpad_length 2 (day now)). pose proof (zpad_length 2 (hour now)).
  pose proof (zpad_length 2 (minute now)). pose proof (zpad_length 2 (second now)).
  pose proof (zpad_length 6 (microsecond now)). lia.
Qed.

Lemma generate_timestamp_returns :
  returns (λ ts, ∃ now, ts = take 19 (strftime (lit "%Y%m%d_%H%M%S_%f") now))
    generate_timestamp.
Proof.
  intros w ts. rewrite generate_timestamp_run.
  destruct (ext_now (w_env w)) as [now e]. intros [= <-]. by exists now.
Qed.

(** A save whose timestamp comes from the clock, and whose content is
    there exactly when there is a client, writes a saved document. *)
Lemma save_document_documents_only llm dir sn pid now prompt content :
  (is_Some content ↔ is_Some llm) →
  preserves (documents_only llm)
    (save_document dir sn pid (take 19 (strftime (lit "%Y%m%d_%H%M%S_%f") now))
       prompt content).
Proof.
  intros Hc w path. rewrite save_document_run.
  case_bool_decide; [by left|]. cbn zeta.
  destruct (md5_hex _) as [doc_id|e] eqn:E; [|by left].
  cbn [snd w_files].
  destruct (decide (path_div dir (doc_id ++ lit ".json") = path)) as [<-|Hne].
  - right. rewrite lookup_insert_eq. eexists. split; [done|].
    by exists doc_id, sn, pid, prompt, now, content.
  - left. by rewrite lookup_insert_ne.
Qed.

Lemma generate_document_documents_only cfg llm total i p :
  preserves (documents_only llm) (generate_document cfg llm total i p).
Proof.
  unfold generate_document.
  apply preserves_bind; [apply _ | unfold build_prompt, external_result; files_untouched |].
  intros [[prompt sn] pid].
  eapply preserves_bind_returns;
    [apply _ | files_untouched | apply generate_timestamp_returns |].
  intros ts [now ->].
  eapply (preserves_bind_returns _
            (λ o, ∀ content, o = Some content → (is_Some content ↔ is_Some llm))).
  - destruct llm; unfold llm_generate, external_result; files_untouched.
  - destruct llm as [client|].
    + apply returns_try_except.
      * do 4 (apply returns_bind; intros ?). apply returns_ret.
        intros c [= <-]. split; by eexists.
      * intros e. do 2 (apply returns_bind; intros ?). by apply returns_ret.
    + apply returns_ret. intros c [= <-]. split; by intros [? [=]].
  - intros [content|] Hc; [|pres].
    apply preserves_bind; [apply _ | files_untouched | intros _].
    apply preserves_bind; [apply _ | | intros _; pres].
    apply save_document_documents_only. by apply Hc.
Qed.

Lemma mode_loop_documents_only cfg llm total :
  preserves (documents_only llm) (mode_loop cfg llm total).
Proof.
  unfold mode_loop, sequential_loop, random_loop. repeat case_bool_decide.
  - apply preserves_bind; [apply _ | unfold get_sequential_profiles; files_untouched |].
    intros ps. apply preserves_for_in; [apply _|]. intros [j p] _.
    unfold sequential_body. destruct (_ >? _)%Z; [pres|].
    apply generate_document_documents_only.
  - apply preserves_for_in; [apply _|]. intros j _. unfold random_body.
    apply preserves_bind; [apply _ | | intros p; apply generate_document_documents_only].
    eapply preserves_weaken; [apply same_files_documents_only|].
    intros w. unfold get_random_profile. by apply random_choice_same.
  - pres.
Qed.

Lemma main_documents_only cfg llm :
  preserves (documents_only llm) (main cfg llm).
Proof.
  unfold main.
  apply preserves_bind; [apply _ | files_untouched | intros _].
  apply preserves_bind;
    [apply _ | unfold skip_existing_step, filter_existing_profiles; files_untouched
    | intros _].
  unfold generation_phase.
  apply preserves_bind;
    [apply _ | unfold compute_total_docs, get_profile_count; files_untouched
    | intros total].
  do 2 (apply preserves_bind; [apply _ | files_untouched | intros _]).
  apply preserves_bind; [apply _ | apply mode_loop_documents_only | intros _].
  files_untouched.
Qed.

End Documents.

Section Format.
Context `{Ext : Externals}.

(** C8. A call of [save_document] that succeeds writes a single file,
    whose JSON object has exactly the keys [doc_id], [document_name],
    [document_sourcedb] (the constant ["DocSynth"]), [profile],
    [timestamp] and [prompt], and after them the key [content] if and
    only if [content] is not [None]. [generate_timestamp] returns the
    rendering of the clock with [%Y%m%d_%H%M%S_%f] cut to its first 19
    characters. In a run of [main], every file written is such a
    document, with a timestamp of that form and with [content] exactly
    when there is an LLM client. *)
Theorem saved_document_format :
  (∀ (dir : Path) (sn pid ts prompt : str) (content : option str) (w : World),
     let run := save_document dir sn pid ts prompt content w in
     run.1 = Ok () →
     ∃ doc_id,
       md5_hex (default prompt content) = Ok doc_id
       ∧ w_files run.2
         = <[path_div dir (doc_id ++ lit ".json")
               := Json (JDict (document doc_id sn pid ts prompt content))]> (w_files w)
       ∧ write_calls (w_calls run.2)
         = write_calls (w_calls w) ++ [path_div dir (doc_id ++ lit ".json")])
  ∧ (∀ (doc_id sn pid ts prompt : str) (content : option str),
       let d := document doc_id sn pid ts prompt content in
       dict_keys d = base_keys ++ match content with
                                  | Some _ => [lit "content"]
                                  | None => []
                                  end
       ∧ dict_get (lit "doc_id") d = JStr doc_id
       ∧ dict_get (lit "document_name") d = JStr sn
       ∧ dict_get (lit "document_sourcedb") d = JStr (lit "DocSynth")
       ∧ dict_get (lit "profile") d = JStr pid
       ∧ dict_get (lit "timestamp") d = JStr ts
       ∧ dict_get (lit "prompt") d = JStr prompt
       ∧ dict_get (lit "content") d = match content with
                                      | Some c => JStr c
                                      | None => JNull
                                      end
       ∧ (lit "content" ∈ dict_keys d ↔ content ≠ None))
  ∧ (∀ w : World,
       (generate_timestamp w).1
       = Ok (take 19 (strftime (lit "%Y%m%d_%H%M%S_%f") (ext_now (w_env w)).1)))
  ∧ (∀ now : datetime,
       length (take 19 (strftime (lit "%Y%m%d_%H%M%S_%f") now)) = 19%nat)
  ∧ (∀ (cfg : Config) (llm : option LLMClient) (w : World),
       documents_only llm w (main cfg llm w).2).
Proof.
  split; [|split; [|split; [|split]]].
  - intros dir sn pid ts prompt content w. cbn zeta. rewrite save_document_run.
    case_bool_decide; [done|]. cbn zeta.
    destruct (md5_hex _) as [doc_id|e]; [|done]. intros _. exists doc_id.
    cbn [snd w_files w_calls]. split; [done|]. split; [done|].
    rewrite write_calls_app. done.
  - intros doc_id sn pid ts prompt content. cbn zeta.
    destruct content as [c|]; (repeat split; try reflexivity).
    + done.
    + intros _. unfold dict_keys, document, lit. cbn. set_solver.
    + unfold dict_keys, document, lit. cbn. intros Hin.
      apply (bool_decide_pack _) in Hin. vm_compute in Hin. done.
    + done.
  - intros w. rewrite generate_timestamp_run. by destruct (ext_now _).
  - apply timestamp_length.
  - intros cfg llm w. apply main_documents_only.
Qed.

End Format.

Lemma saved_document_format_witness :
  let run := save_document Demo.out_dir (lit "letter") (lit "p1")
               (lit "20250309_140507_000") (lit "Write a note for p1")
               (Some (lit "abc")) (Demo.world [] ∅ ∅) in
  ∃ doc_id,
    md5_hex (lit "abc") = Ok doc_id
    ∧ w_files run.2
      = <[path_div Demo.out_dir (doc_id ++ lit ".json")
            := Json (JDict (document doc_id (lit "letter") (lit "p1")
                              (lit "20250309_140507_000")
                              (lit "Write a note for p1") (Some (lit "abc"))))]> ∅
    ∧ write_calls (w_calls run.2)
      = [] ++ [path_div Demo.out_dir (doc_id ++ lit ".json")].
Proof.
  apply (proj1 saved_document_format Demo.out_dir (lit "letter") (lit "p1")
           (lit "20250309_140507_000") (lit "Write a note for p1")
           (Some (lit "abc")) (Demo.world [] ∅ ∅)).
  vm_compute. reflexivity.
Defined.

(** ** [NamesLocationsLoader.sample] *)

Section Sample.
Context `{Ext : Externals}.

(** A choice in a sequence that is not empty: the element at the index
    drawn. *)
Lemma random_choice_run {A} (seq : list A) (w : World) :
  seq ≠ [] →
  let draw := ext_randbelow (length seq) (w_env w) in
  ∃ x, seq !! draw.1 = Some x
       ∧ random_choice seq w = (Ok x, set_env draw.2 w).
Proof.
  intros Hne. cbn zeta. unfold random_choice.
  rewrite bool_decide_eq_false_2 by (by destruct seq).
  rewrite bind_run. unfold external.
  pose proof (ext_randbelow_lt (length seq) (w_env w)) as Hlt.
  destruct (ext_randbelow (length seq) (w_env w)) as [i e]. cbn [fst snd] in *.
  destruct (lookup_lt_is_Some_2 seq i) as [x Hx].
  { apply Hlt. destruct seq; [done | cbn; lia]. }
  exists x. by rewrite Hx.
Qed.

Lemma set_env_set_env (e e' : Env) (w : World) :
  set_env e (set_env e' w) = set_env e w.
Proof. reflexivity. Qed.

Lemma w_env_set_env (e : Env) (w : World) : w_env (set_env e w) = e.
Proof. reflexivity. Qed.

(** C7. For a loader whose four lists are not empty, [sample] returns a
    dict with the four keys, each field an element of its own list: the
    element at the index of its own draw of the random generator, made
    in turn for the patient name, the clinician name, the provider and
    the ward. The draws do not depend on one another's results and the
    lists are not consumed: a second call draws from the same lists. *)
Theorem sample_membership (self : NamesLocationsLoader) (w : World) :
  patient_names self ≠ [] → clinician_names self ≠ [] →
  providers self ≠ [] → wards_clinics self ≠ [] →
  let d1 := ext_randbelow (length (patient_names self)) (w_env w) in
  let d2 := ext_randbelow (length (clinician_names self)) d1.2 in
  let d3 := ext_randbelow (length (providers self)) d2.2 in
  let d4 := ext_randbelow (length (wards_clinics self)) d3.2 in
  ∃ pn cn pr wc,
    sample self w
    = (Ok [ (lit "patient_name", pn); (lit "clinician_name", cn);
            (lit "provider", pr); (lit "ward_clinic", wc) ],
       set_env d4.2 w)
    ∧ patient_names self !! d1.1 = Some pn
    ∧ clinician_names self !! d2.1 = Some cn
    ∧ providers self !! d3.1 = Some pr
    ∧ wards_clinics self !! d4.1 = Some wc
    ∧ pn ∈ patient_names self ∧ cn ∈ clinician_names self
    ∧ pr ∈ providers self ∧ wc ∈ wards_clinics self
    ∧ ∃ pn' cn' pr' wc',
        (sample self (sample self w).2).1
        = Ok [ (lit "patient_name", pn'); (lit "clinician_name", cn');
               (lit "provider", pr'); (lit "ward_clinic", wc') ]
        ∧ pn' ∈ patient_names self ∧ cn' ∈ clinician_names self
        ∧ pr' ∈ providers self ∧ wc' ∈ wards_clinics self.
Proof.
  intros H1 H2 H3 H4.
  assert (Hone : ∀ w0 : World,
    let d1 := ext_randbelow (length (patient_names self)) (w_env w0) in
    let d2 := ext_randbelow (length (clinician_names self)) d1.2 in
    let d3 := ext_randbelow (length (providers self)) d2.2 in
    let d4 := ext_randbelow (length (wards_clinics self)) d3.2 in
    ∃ pn cn pr wc,
      sample self w0
      = (Ok [ (lit "patient_name", pn); (lit "clinician_name", cn);
              (lit "provider", pr); (lit "ward_clinic", wc) ],
         set_env d4.2 w0)
      ∧ patient_names self !! d1.1 = Some pn
      ∧ clinician_names self !! d2.1 = Some cn
      ∧ providers self !! d3.1 = Some pr
      ∧ wards_clinics self !! d4.1 = Some wc).
  { intros w0 d1 d2 d3 d4. unfold sample.
    destruct (random_choice_run (patient_names self) w0 H1) as (pn & Hpn & Hr1).
    fold d1 in Hpn, Hr1. rewrite bind_run, Hr1.
    destruct (random_choice_run (clinician_names self) (set_env d1.2 w0) H2)
      as (cn & Hcn & Hr2).
    rewrite set_env_set_env, w_env_set_env in *. fold d2 in Hcn, Hr2.
    rewrite bind_run, Hr2.
    destruct (random_choice_run (providers self) (set_env d2.2 w0) H3)
      as (pr & Hpr & Hr3).
    rewrite set_env_set_env, w_env_set_env in *. fold d3 in Hpr, Hr3.
    rewrite bind_run, Hr3.
    destruct (random_choice_run (wards_clinics self) (set_env d3.2 w0) H4)
      as (wc & Hwc & Hr4).
    rewrite set_env_set_env, w_env_set_env in *. fold d4 in Hwc, Hr4.
    rewrite bind_run, Hr4.
    by exists pn, cn, pr, wc. }
  cbn zeta.
  destruct (Hone w) as (pn & cn & pr & wc & Hs & Hpn & Hcn & Hpr & Hwc).
  exists pn, cn, pr, wc. rewrite Hs at 1. do 5 (split; [done|]).
  do 4 (split; [by eapply list_elem_of_lookup_2|]).
  destruct (Hone (sample self w).2)
    as (pn' & cn' & pr' & wc' & Hs' & Hpn' & Hcn' & Hpr' & Hwc').
  exists pn', cn', pr', wc'. rewrite Hs'.
  split; [done|]. repeat split; by eapply list_elem_of_lookup_2.
Qed.

End Sample.

Lemma sample_membership_witness :
  let self := mkLoader [lit "Ann Lee"; lit "Bo Chen"] [lit "Dr Hill"]
                [lit "St Mary"; lit "Kings"; lit "Barts"] [lit "Ward 4"; lit "ENT"] in
  let w := Demo.world [] ∅ ∅ in
  sample self w
  = (Ok [ (lit "patient_name", lit "Ann Lee"); (lit "clinician_name", lit "Dr Hill");
          (lit "provider", lit "Barts"); (lit "ward_clinic", lit "ENT") ],
     set_env (Demo.env 4) w)
  ∧ ∃ pn' cn' pr' wc',
      (sample self (sample self w).2).1
      = Ok [ (lit "patient_name", pn'); (lit "clinician_name", cn');
             (lit "provider", pr'); (lit "ward_clinic", wc') ]
      ∧ pn' ∈ patient_names self ∧ cn' ∈ clinician_names self
      ∧ pr' ∈ providers self ∧ wc' ∈ wards_clinics self.
Proof.
  intros self w.
  destruct (sample_membership self w)
    as (pn & cn & pr & wc & Hs & Hpn & Hcn & Hpr & Hwc & _ & _ & _ & _ & Hsecond);
    try discriminate.
  vm_compute in Hpn, Hcn, Hpr, Hwc.
  injection Hpn as <-. injection Hcn as <-. injection Hpr as <-. injection Hwc as <-.
  split; [exact Hs | exact Hsecond].
Defined.

(** ** Runs that end normally *)

Section Encodable.

Lemma encodable_app (a b : str) :
  Utf8.encodable (a ++ b) = Utf8.encodable a && Utf8.encodable b.
Proof. apply forallb_app. Qed.

Lemma encodable_lstrip (s : str) :
  Utf8.encodable s = true → Utf8.encodable (lstrip s) = true.
Proof.
  induction s as [|c s IH]; [done|]. cbn [lstrip].
  destruct (isspace c); [|done]. cbn. intros [_ Hs]%andb_true_iff. by apply IH.
Qed.

Lemma encodable_rev (s : str) :
  Utf8.encodable s = true → Utf8.encodable (rev s) = true.
Proof.
  induction s as [|c s IH]; [done|]. cbn [rev].
  intros [Hc Hs]%andb_true_iff. rewrite encodable_app, IH by done.
  cbn. by rewrite Hc.
Qed.

Lemma encodable_strip (s : str) :
  Utf8.encodable s = true → Utf8.encodable (strip s) = true.
Proof.
  intros Hs. unfold strip, rstrip.
  by apply encodable_rev, encodable_lstrip, encodable_rev, encodable_lstrip.
Qed.

Lemma encodable_search (s g : str) :
  Re.search s = Some g → Utf8.encodable s = true → Utf8.encodable g = true.
Proof.
  intros (pre & post & ->)%search_sound. rewrite !encodable_app.
  rewrite !andb_true_iff. by intros (_ & _ & Hg & _).
Qed.

Lemma encode_encodable (s : str) :
  Utf8.encodable s = true → ∃ bs, Utf8.encode s = Ok bs.
Proof.
  induction s as [|c s IH]; [by eexists|]. cbn [Utf8.encodable forallb Utf8.encode].
  intros [Hc Hs]%andb_true_iff. apply bool_decide_eq_true in Hc as [bs Hc].
  destruct (IH Hs) as [r Hr]. rewrite Hc, Hr. by eexists.
Qed.

(** The digest of a text that has a UTF-8 encoding. *)
Lemma md5_hex_encodable (s : str) :
  Utf8.encodable s = true → ∃ h, md5_hex s = Ok h.
Proof.
  intros [bs Hbs]%encode_encodable. unfold md5_hex. rewrite Hbs. by eexists.
Qed.

End Encodable.

Section Total.
Context `{Ext : Externals}.

Lemma total_ret {A} (P : World → Prop) (a : A) (Q : A → Prop) :
  Q a → total P (mret a) Q.
Proof. intros Ha w Hw. split; [done|]. by exists a. Qed.

Lemma total_bind {A B} (P : World → Prop) (m : M A) (k : A → M B)
    (Q1 : A → Prop) (Q2 : B → Prop) :
  total P m Q1 → (∀ a, Q1 a → total P (k a) Q2) → total P (m ≫= k) Q2.
Proof.
  intros Hm Hk w Hw. rewrite bind_run.
  destruct (Hm w Hw) as (Hw1 & a & Ha & HQ).
  destruct (m w) as [r w1]. cbn [fst snd] in *. subst r. by apply Hk.
Qed.

Lemma total_partial {A} (P : World → Prop) (m : M A) (Q : A → Prop) :
  total P m Q → partial P m Q.
Proof.
  intros Hm w Hw. destruct (Hm w Hw) as (Hw1 & a & Ha & HQ).
  split; [done|]. intros a' Ha'. rewrite Ha in Ha'. by injection Ha' as <-.
Qed.

Lemma partial_bind {A B} (P : World → Prop) (m : M A) (k : A → M B)
    (Q1 : A → Prop) (Q2 : B → Prop) :
  partial P m Q1 → (∀ a, Q1 a → partial P (k a) Q2) → partial P (m ≫= k) Q2.
Proof.
  intros Hm Hk w Hw. rewrite bind_run.
  destruct (Hm w Hw) as (Hw1 & HQ).
  destruct (m w) as [[a|e] w1]; cbn [fst snd] in *; [|done].
  by apply Hk; [apply HQ|].
Qed.

(** A block under [except Exception] whose handler returns, returns. *)
Lemma total_try_except {A} (P : World → Prop) (m : M A) (h : exn → M A)
    (Q : A → Prop) :
  partial P m Q → (∀ e, total P (h e) Q) →
  total P (try_except m any_Exception h) Q.
Proof.
  intros Hm Hh w Hw. rewrite try_except_run.
  destruct (Hm w Hw) as (Hw1 & HQ).
  destruct (m w) as [[a|e] w1]; cbn [fst snd] in *.
  - split; [done|]. exists a. split; [done|]. by apply HQ.
  - by apply Hh.
Qed.

Lemma total_for_in {A} (P : World → Prop) (l : list A) (body : A → M ctl) :
  (∀ x, x ∈ l → total P (body x) (λ _, True)) →
  total P (for_in l body) (λ _, True).
Proof.
  induction l as [|x l IH]; intros Hb; cbn [for_in].
  - by apply total_ret.
  - eapply total_bind; [apply Hb; left|].
    intros [|] _; [|by apply total_ret]. apply IH. intros y Hy. apply Hb. by right.
Qed.

(** A computation that always returns and leaves the files and the
    profiles alone. *)
Lemma total_untouched {A} cfg ps (m : M A) :
  (∀ w, ∃ a, (m w).1 = Ok a) →
  preserves (same w_files) m → preserves (same w_profiles) m →
  total (ready cfg ps) m (λ _, True).
Proof.
  intros Hok Hf Hp w [Hw1 Hw2]. split.
  - split; [by rewrite (Hf w) | by rewrite (Hp w)].
  - destruct (Hok w) as [a Ha]. by exists a.
Qed.

Lemma logger_total cfg ps lv msg : total (ready cfg ps) (logger lv msg) (λ _, True).
Proof. apply total_untouched; [by eexists | pres..]. Qed.

Lemma print_total cfg ps line : total (ready cfg ps) (print line) (λ _, True).
Proof. apply total_untouched; [by eexists | pres..]. Qed.

Lemma generate_timestamp_total cfg ps :
  total (ready cfg ps) generate_timestamp (λ _, True).
Proof.
  apply total_untouched; [|pres..].
  intros w. rewrite generate_timestamp_run. destruct (ext_now _). by eexists.
Qed.

Lemma build_prompt_total cfg ps p :
  builder_succeeds cfg p →
  total (ready cfg ps)
    (build_prompt p (include_style cfg) (include_content cfg))
    (λ r, Utf8.encodable r.1.1 = true).
Proof.
  intros Hb w Hw. rewrite build_prompt_run.
  destruct (Hb (w_env w)) as (prompt & sn & pid & e' & -> & Henc).
  split; [exact Hw|]. by eexists.
Qed.

Lemma llm_generate_partial cfg ps client prompt :
  responses_encodable → Utf8.encodable prompt = true →
  partial (ready cfg ps) (llm_generate client prompt)
    (λ r, Utf8.encodable r = true).
Proof.
  intros Hr Hprompt w Hw. rewrite llm_generate_run.
  destruct (ext_generate client prompt (w_env w)) as [r e'] eqn:E.
  split; [exact Hw|]. intros response. cbn [fst]. intros ->.
  by eapply Hr.
Qed.

Lemma extract_output_content_total cfg ps response :
  Utf8.encodable response = true →
  total (ready cfg ps) (extract_output_content response)
    (λ c, Utf8.encodable c = true).
Proof.
  intros Henc w Hw. unfold extract_output_content.
  destruct (Re.search response) as [g|] eqn:E.
  - split; [exact Hw|]. eexists. split; [done|].
    by eapply encodable_strip, encodable_search.
  - split; [exact Hw|]. eexists. split; [done|]. by apply encodable_strip.
Qed.

Lemma path_div_ne (dir : Path) (name : str) : path_div dir name ≠ dir.
Proof.
  unfold path_div. intros Heq. apply (f_equal length) in Heq.
  rewrite length_app in Heq. cbn in Heq. lia.
Qed.

Lemma save_document_total cfg ps sn pid ts prompt content :
  Utf8.encodable (default prompt content) = true →
  total (ready cfg ps) (save_document (output_dir cfg) sn pid ts prompt content)
    (λ _, True).
Proof.
  intros Henc w [Hw1 Hw2]. rewrite save_document_run.
  rewrite bool_decide_eq_false_2 by (rewrite Hw1; by intros [? [=]]).
  cbn zeta. destruct (md5_hex_encodable _ Henc) as [h ->]. cbn [fst snd].
  split; [|by eexists]. split; [|done]. cbn [w_files].
  rewrite lookup_insert_ne; [done | apply path_div_ne].
Qed.

(** An iteration returns when the builder does and the texts have a
    UTF-8 encoding: an error of the LLM is caught, and the saving
    succeeds. *)
Lemma generate_document_total cfg ps llm total_docs i p :
  builder_succeeds cfg p → responses_encodable →
  total (ready cfg ps) (generate_document cfg llm total_docs i p) (λ c, c = Next).
Proof.
  intros Hb Hr. unfold generate_document.
  eapply total_bind; [by apply build_prompt_total|].
  intros [[prompt sn] pid] Hprompt. cbn [fst] in Hprompt.
  eapply total_bind; [apply generate_timestamp_total|]. intros ts _.
  eapply (total_bind _ _ _
            (λ o, ∀ content, o = Some content →
                    Utf8.encodable (default prompt content) = true)).
  - destruct llm as [client|].
    + apply total_try_except.
      * eapply partial_bind; [apply total_partial, logger_total|]. intros _ _.
        eapply partial_bind; [by apply llm_generate_partial|]. intros response Hresp.
        eapply partial_bind;
          [by apply total_partial, extract_output_content_total|].
        intros content Hcontent.
        eapply partial_bind; [apply total_partial, logger_total|]. intros _ _.
        apply total_partial, total_ret. by intros c [= <-].
      * intros e. eapply total_bind; [apply logger_total|]. intros _ _.
        eapply total_bind; [apply print_total|]. intros _ _.
        by apply total_ret.
    + apply total_ret. by intros c [= <-].
  - intros [content|] Hc; [|by apply total_ret].
    eapply total_bind; [apply print_total|]. intros _ _.
    eapply total_bind; [apply save_document_total; by apply Hc|]. intros _ _.
    by apply total_ret.
Qed.

End Total.

Section TotalRuns.
Context `{Ext : Externals}.

Lemma total_weaken {A} (P : World → Prop) (m : M A) (Q Q' : A → Prop) :
  total P m Q → (∀ a, Q a → Q' a) → total P m Q'.
Proof.
  intros Hm HQ w Hw. destruct (Hm w Hw) as (Hw1 & a & Ha & Hq).
  split; [done|]. exists a. split; [done|]. by apply HQ.
Qed.

Lemma enumerate_elem {A} (start : Z) (l : list A) (i : Z) (x : A) :
  (i, x) ∈ enumerate start l → x ∈ l.
Proof.
  revert start. induction l as [|y l IH]; intros start; cbn [enumerate].
  - by intros ?%elem_of_nil.
  - intros [[= _ ->]|Hin]%elem_of_cons; [by left|]. right. by eapply IH.
Qed.

Lemma sequential_loop_total cfg ps llm total_docs :
  (∀ p, p ∈ ps → builder_succeeds cfg p) → responses_encodable →
  total (ready cfg ps) (sequential_loop cfg llm total_docs) (λ _, True).
Proof.
  intros Hb Hr w Hw. unfold sequential_loop. rewrite bind_run.
  cbn [get_sequential_profiles]. destruct Hw as [Hw1 Hw2].
  unfold get_sequential_profiles. rewrite Hw2.
  apply total_for_in; [|done].
  intros [i p] Hin%enumerate_elem. unfold sequential_body.
  destruct (_ >? _)%Z; [by apply total_ret|].
  eapply total_weaken; [by apply generate_document_total; [apply Hb|]|done].
Qed.

Lemma get_random_profile_total cfg ps :
  ps ≠ [] → total (ready cfg ps) get_random_profile (λ p, p ∈ ps).
Proof.
  intros Hne w [Hw1 Hw2]. unfold get_random_profile. rewrite Hw2.
  destruct (random_choice_run ps w Hne) as (x & Hx & ->). cbn [fst snd].
  split; [done|]. exists x. split; [done|]. by eapply list_elem_of_lookup_2.
Qed.

Lemma random_loop_total cfg ps llm total_docs :
  ps ≠ [] →
  (∀ p, p ∈ ps → builder_succeeds cfg p) → responses_encodable →
  total (ready cfg ps) (random_loop cfg llm total_docs) (λ _, True).
Proof.
  intros Hne Hb Hr. unfold random_loop. apply total_for_in. intros i _.
  unfold random_body.
  eapply total_bind; [by apply get_random_profile_total|]. intros p Hp.
  eapply total_weaken; [by apply generate_document_total; [apply Hb|]|done].
Qed.

Lemma mode_loop_total cfg ps llm total_docs :
  (mode cfg = lit "random" → ps ≠ []) →
  (∀ p, p ∈ ps → builder_succeeds cfg p) → responses_encodable →
  total (ready cfg ps) (mode_loop cfg llm total_docs) (λ _, True).
Proof.
  intros Hne Hb Hr. unfold mode_loop. repeat case_bool_decide.
  - by apply sequential_loop_total.
  - apply random_loop_total; auto.
  - by apply total_ret.
Qed.

Lemma generation_phase_total cfg ps llm :
  (mode cfg = lit "random" → ps ≠ []) →
  (∀ p, p ∈ ps → builder_succeeds cfg p) → responses_encodable →
  total (ready cfg ps) (generation_phase cfg llm) (λ _, True).
Proof.
  intros Hne Hb Hr. unfold generation_phase.
  eapply (total_bind _ _ _ (λ _, True)).
  { apply total_untouched.
    - intros w. rewrite compute_total_docs_run. by eexists.
    - unfold compute_total_docs, get_profile_count. pres.
    - unfold compute_total_docs, get_profile_count. pres. }
  intros total_docs _.
  do 2 (eapply total_bind; [apply print_total|]; intros _ _).
  eapply total_bind; [by apply mode_loop_total|]. intros _ _.
  do 3 (eapply total_bind; [apply print_total|]; intros _ _).
  apply logger_total.
Qed.

(** With [skip_existing] off, a run of [main] ends normally when no
    file stands in the place of the output directory, the builder
    returns for every available profile, and the prompts and the
    responses have a UTF-8 encoding; in random mode there must be a
    profile to draw. *)
Lemma main_total cfg llm w :
  skip_existing cfg = false →
  w_files w !! output_dir cfg = None →
  (mode cfg = lit "random" → w_profiles w ≠ []) →
  (∀ p, p ∈ w_profiles w → builder_succeeds cfg p) →
  responses_encodable →
  (main cfg llm w).1 = Ok () ∧ w_profiles (main cfg llm w).2 = w_profiles w.
Proof.
  intros Hs Hf Hne Hb Hr.
  assert (Hmain : total (ready cfg (w_profiles w)) (main cfg llm) (λ _, True)).
  { unfold main. eapply total_bind; [apply print_total|]. intros _ _.
    eapply (total_bind _ _ _ (λ _, True)).
    - unfold skip_existing_step. rewrite Hs. by apply total_ret.
    - intros _ _. by apply generation_phase_total. }
  destruct (Hmain w) as ((_ & Hp) & [] & Hok & _); [done|]. done.
Qed.

End TotalRuns.

(** ** Number and order of the attempts, and runs that end normally *)

Section AttemptCounts.
Context `{Ext : Externals}.

(** C4. In sequential mode with [count = -1], a run of the driver that
    ends normally has made exactly one generation attempt per available
    profile, in the order of the profile source, and none after the last
    one; with an LLM client, that is one call to the LLM per profile.
    The available profiles are those the builder holds when the loop
    starts (all of them when [skip_existing] is off). And the run does
    end normally, with [skip_existing] off, when no file stands in the
    place of the output directory, the builder returns for every
    profile and the prompts and responses have a UTF-8 encoding, errors
    of the LLM included. *)
Theorem sequential_all_profiles (cfg : Config) (llm : option LLMClient)
    (w : World) :
  mode cfg = lit "sequential" → count cfg = (-1)%Z →
  let run := main cfg llm w in
  (run.1 = Ok () →
   attempted run.2 = attempted w ++ w_profiles run.2
   ∧ length (generated run.2)
     = (length (generated w)
        + calls_per_attempt llm * length (w_profiles run.2))%nat
   ∧ (skip_existing cfg = false → w_profiles run.2 = w_profiles w))
  ∧ (skip_existing cfg = false →
     w_files w !! output_dir cfg = None →
     (∀ p, p ∈ w_profiles w → builder_succeeds cfg p) →
     responses_encodable →
     run.1 = Ok () ∧ attempted run.2 = attempted w ++ w_profiles w).
Proof.
  intros Hm Hc run.
  assert (Hcond : run.1 = Ok () →
    attempted run.2 = attempted w ++ w_profiles run.2
    ∧ length (generated run.2)
      = (length (generated w)
         + calls_per_attempt llm * length (w_profiles run.2))%nat
    ∧ (skip_existing cfg = false → w_profiles run.2 = w_profiles w)).
  { intros Hrun. subst run.
    destruct (main_attempts cfg llm w Hrun) as (w2 & Ha & Hg & Hp & Hoff & Hloop).
    cbn zeta in Hloop. destruct Hloop as (Hok & Hat & Hge & Hpr).
    split; [|split; [|intros Hs; rewrite <- Hp; by apply Hoff]];
      rewrite ?Hat, ?Hge; rewrite mode_loop_sequential in * by done;
      destruct (sequential_for_in cfg llm (total_docs_of cfg w2) (w_profiles w2) 1 w2
                  ltac:(lia) Hok) as (Hat' & _ & Hge'); cbn zeta in Hge';
      rewrite ?Hat', ?Hge', ?Ha, ?Hg, <- Hp;
      unfold total_docs_of; rewrite Hc;
      change (-1 =? -1)%Z with true; cbv iota;
      rewrite take_ge by lia; done. }
  split; [exact Hcond|].
  intros Hs Hf Hb Hr.
  destruct (main_total cfg llm w Hs Hf) as [Hok Hp]; [|done..|].
  { intros Hrandom. rewrite Hm in Hrandom. done. }
  fold run in Hok, Hp. split; [done|].
  destruct (Hcond Hok) as (-> & _ & _). by rewrite Hp.
Qed.

(** C5. With [count = N] for a number [N] smaller than the number of
    available profiles, a run of the driver that ends normally has made
    exactly [N] generation attempts, in the sequential mode (for the
    first [N] profiles, in order) as in the random mode (for [N] draws
    among the available profiles); with an LLM client, that is [N] calls
    to the LLM. And the run does end normally, with [skip_existing]
    off, when no file stands in the place of the output directory, the
    builder returns for every profile and the prompts and responses
    have a UTF-8 encoding. *)
Theorem count_attempts (cfg : Config) (llm : option LLMClient) (w : World)
    (N : nat) :
  mode cfg = lit "sequential" ∨ mode cfg = lit "random" →
  count cfg = Z.of_nat N →
  let run := main cfg llm w in
  ((N < length (w_profiles run.2))%nat →
   run.1 = Ok () →
   ∃ extra,
     attempted run.2 = attempted w ++ extra
     ∧ length extra = N
     ∧ Forall (λ p, p ∈ w_profiles run.2) extra
     ∧ (mode cfg = lit "sequential" → extra = take N (w_profiles run.2))
     ∧ length (generated run.2)
       = (length (generated w) + calls_per_attempt llm * N)%nat)
  ∧ ((N < length (w_profiles w))%nat →
     skip_existing cfg = false →
     w_files w !! output_dir cfg = None →
     (∀ p, p ∈ w_profiles w → builder_succeeds cfg p) →
     responses_encodable →
     run.1 = Ok ()
     ∧ ∃ extra, attempted run.2 = attempted w ++ extra ∧ length extra = N).
Proof.
  intros Hm Hc run.
  assert (Hcond : (N < length (w_profiles run.2))%nat → run.1 = Ok () →
    ∃ extra,
      attempted run.2 = attempted w ++ extra
      ∧ length extra = N
      ∧ Forall (λ p, p ∈ w_profiles run.2) extra
      ∧ (mode cfg = lit "sequential" → extra = take N (w_profiles run.2))
      ∧ length (generated run.2)
        = (length (generated w) + calls_per_attempt llm * N)%nat).
  { intros HN Hrun. subst run.
    destruct (main_attempts cfg llm w Hrun) as (w2 & Ha & Hg & Hp & Hoff & Hloop).
    cbn zeta in Hloop. destruct Hloop as (Hok & Hat & Hge & Hpr).
    assert (Ht : total_docs_of cfg w2 = Z.of_nat N).
    { unfold total_docs_of. rewrite Hc.
      destruct (Z.eqb_spec (Z.of_nat N) (-1)); [lia|done]. }
    rewrite Ht in *. rewrite Hat, Hge. rewrite <- Hp in HN |- *.
    destruct Hm as [Hm|Hm].
    - rewrite mode_loop_sequential in * by done.
      destruct (sequential_for_in cfg llm (Z.of_nat N) (w_profiles w2) 1 w2
                  ltac:(lia) Hok) as (-> & _ & Hge'). cbn zeta in Hge'.
      rewrite Hge'.
      replace (Z.to_nat (Z.of_nat N - 1 + 1)) with N by lia.
      exists (take N (w_profiles w2)). rewrite Ha, Hg.
      assert (Hlen : length (take N (w_profiles w2)) = N)
        by (rewrite length_take; lia).
      rewrite Hlen. repeat split; try done.
      apply Forall_forall. intros p Hin.
      apply elem_of_take in Hin as (j & Hj & _). by eapply list_elem_of_lookup_2.
    - rewrite mode_loop_random in * by done.
      destruct (random_for_in cfg llm (Z.of_nat N) _ w2 Hok)
        as (extra & -> & Hlen & Hall & _ & Hge').
      assert (Hr : length (range 1 (Z.of_nat N + 1)) = N).
      { unfold range. rewrite length_seqZ. lia. }
      rewrite Hr in *. exists extra. rewrite Ha, Hge', Hg. repeat split; try done.
      intros Hs. rewrite Hs in Hm. done. }
  split; [exact Hcond|].
  intros HN Hs Hf Hb Hr.
  destruct (main_total cfg llm w Hs Hf) as [Hok Hp]; [|done..|].
  { intros _ Hnil. rewrite Hnil in HN. cbn in HN. lia. }
  fold run in Hok, Hp. split; [done|]. rewrite <- Hp in HN.
  destruct (Hcond HN Hok) as (extra & Hat & Hlen & _). by exists extra.
Qed.

End AttemptCounts.

(** The collaborators of the concrete world behave. *)
Lemma demo_builder_succeeds (cfg : Config) (p : str) :
  p ∈ [lit "p1"; lit "p2"; lit "p3"] → builder_succeeds cfg (Demo.profile p).
Proof.
  intros Hp e.
  exists (lit "Write a note for " ++ p), (lit "letter"), p, (S e).
  repeat (apply elem_of_cons in Hp as [->|Hp]; [split; vm_compute; reflexivity|]).
  by apply elem_of_nil in Hp.
Qed.

Lemma demo_responses_encodable : responses_encodable (Ext:=Demo.demo_ext).
Proof.
  intros client prompt e response e' Hprompt.
  change (ext_generate client prompt e)
    with (if endswith (lit "p2") prompt
          then (Raise (Exn (OtherError (lit "TimeoutError")) (lit "timed out")), S e)
          else (Ok (lit "Sure. <output> Note: " ++ prompt ++ lit " </output> Bye."),
                S e)).
  destruct (endswith _ _); [done|]. intros Heq.
  assert (response = lit "Sure. <output> Note: " ++ prompt ++ lit " </output> Bye.")
    as -> by congruence.
  rewrite !encodable_app, Hprompt. reflexivity.
Qed.

Lemma sequential_all_profiles_witness :
  let w := Demo.world [lit "p1"; lit "p2"; lit "p3"] ∅ ∅ in
  let run := main Demo.seq_all Demo.client w in
  run.1 = Ok ()
  ∧ attempted run.2 = attempted w ++ w_profiles w
  ∧ length (generated run.2)
    = (length (generated w)
       + calls_per_attempt Demo.client * length (w_profiles run.2))%nat.
Proof.
  intros w run.
  destruct (sequential_all_profiles Demo.seq_all Demo.client w eq_refl eq_refl)
    as [Hcond Htotal].
  destruct Htotal as [Hok Hat].
  - reflexivity.
  - apply lookup_empty.
  - intros p Hp. by apply demo_builder_succeeds.
  - apply demo_responses_encodable.
  - destruct (Hcond Hok) as (_ & Hgen & _). by repeat split.
Defined.

Lemma count_attempts_witness :
  let w := Demo.world [lit "p1"; lit "p2"; lit "p3"] ∅ ∅ in
  (let run := main (Demo.seq_n 2 false) Demo.client w in
   run.1 = Ok ()
   ∧ ∃ extra,
       attempted run.2 = attempted w ++ extra
       ∧ length extra = 2%nat
       ∧ Forall (λ p, p ∈ w_profiles run.2) extra
       ∧ (mode (Demo.seq_n 2 false) = lit "sequential"
          → extra = take 2 (w_profiles run.2))
       ∧ length (generated run.2)
         = (length (generated w) + calls_per_attempt Demo.client * 2)%nat)
  ∧ (let run := main (Demo.random_n 2) Demo.no_client w in
     run.1 = Ok ()
     ∧ ∃ extra, attempted run.2 = attempted w ++ extra ∧ length extra = 2%nat).
Proof.
  intros w. split.
  - destruct (count_attempts (Demo.seq_n 2 false) Demo.client w 2) as [Hcond Htotal];
      [left; reflexivity | reflexivity |].
    destruct Htotal as [Hok _].
    + vm_compute. lia.
    + reflexivity.
    + apply lookup_empty.
    + intros p Hp. by apply demo_builder_succeeds.
    + apply demo_responses_encodable.
    + split; [exact Hok|]. apply Hcond; [vm_compute; lia | exact Hok].
  - destruct (count_attempts (Demo.random_n 2) Demo.no_client w 2) as [_ Htotal];
      [right; reflexivity | reflexivity |].
    apply Htotal.
    + vm_compute. lia.
    + reflexivity.
    + apply lookup_empty.
    + intros p Hp. by apply demo_builder_succeeds.
    + apply demo_responses_encodable.
Defined.

(** * Further properties of the code *)

(** ** More on [extract_output_content] *)

Section Strip.

Lemma lstrip_app (a b : str) :
  lstrip (a ++ b) = match lstrip a with [] => lstrip b | _ => lstrip a ++ b end.
Proof.
  induction a as [|c a IH]; cbn [lstrip app]; [done|].
  destruct (isspace c); [exact IH|done].
Qed.

Lemma lstrip_head (s : str) :
  match lstrip s with [] => True | c :: _ => isspace c = false end.
Proof.
  induction s as [|c s IH]; cbn [lstrip]; [done|].
  destruct (isspace c) eqn:Hc; [exact IH|done].
Qed.

Lemma lstrip_fixed (s : str) :
  match s with [] => True | c :: _ => isspace c = false end → lstrip s = s.
Proof. destruct s as [|c s]; cbn [lstrip]; [done|]. by intros ->. Qed.

Lemma lstrip_suffix (s : str) : ∃ a, s = a ++ lstrip s.
Proof.
  induction s as [|c s [a IH]]; cbn [lstrip]; [by exists []|].
  destruct (isspace c); [|by exists []].
  exists (c :: a). cbn [app]. by f_equal.
Qed.

Lemma rstrip_prefix (s : str) : ∃ b, s = rstrip s ++ b.
Proof.
  unfold rstrip. destruct (lstrip_suffix (rev s)) as [a Ha].
  exists (rev a). rewrite <- rev_app_distr, <- Ha. by rewrite rev_involutive.
Qed.

(** [rstrip] by recursion from the left. *)
Lemma rstrip_cons (c : char) (s : str) :
  rstrip (c :: s)
  = match rstrip s with
    | [] => if isspace c then [] else [c]
    | r => c :: r
    end.
Proof.
  unfold rstrip. cbn [rev]. rewrite lstrip_app.
  destruct (lstrip (rev s)) as [|x l] eqn:Hl; cbn [rev lstrip app].
  - by destruct (isspace c).
  - rewrite rev_app_distr. cbn [rev app].
    destruct (rev l ++ [x]) eqn:He; [by destruct (rev l)|done].
Qed.

Lemma rstrip_head (s : str) :
  match s with [] => True | c :: _ => isspace c = false end →
  match rstrip s with [] => True | c :: _ => isspace c = false end.
Proof.
  destruct s as [|c s]; [done|]. intros Hc. rewrite rstrip_cons.
  destruct (rstrip s); by rewrite ?Hc.
Qed.

Lemma rstrip_idemp (s : str) : rstrip (rstrip s) = rstrip s.
Proof.
  unfold rstrip. rewrite rev_involutive. f_equal.
  apply lstrip_fixed, lstrip_head.
Qed.

Lemma strip_head (s : str) :
  match strip s with [] => True | c :: _ => isspace c = false end.
Proof. apply rstrip_head, lstrip_head. Qed.

Lemma strip_last (s init : str) (c : char) :
  strip s = init ++ [c] → isspace c = false.
Proof.
  unfold strip, rstrip. intros Hc.
  pose proof (lstrip_head (rev (lstrip s))) as Hh.
  apply (f_equal (@rev _)) in Hc. rewrite rev_involutive, rev_app_distr in Hc.
  by rewrite Hc in Hh.
Qed.

Lemma strip_idemp (s : str) : strip (strip s) = strip s.
Proof.
  unfold strip at 1. rewrite (lstrip_fixed (strip s)) by apply strip_head.
  unfold strip. apply rstrip_idemp.
Qed.

Lemma strip_occurs (s : str) : occurs (strip s) s.
Proof.
  destruct (lstrip_suffix s) as [a Ha], (rstrip_prefix (lstrip s)) as [b Hb].
  exists a, b. unfold strip. by rewrite <- Hb.
Qed.

Lemma occurs_trans (a b c : str) : occurs a b → occurs b c → occurs a c.
Proof.
  intros (x & y & ->) (x' & y' & ->). exists (x' ++ x), (y ++ y').
  by rewrite <- !app_assoc.
Qed.

End Strip.

Section SearchFacts.

Lemma lazy_until_minimal (c s g r : str) :
  c ≠ [] → Re.lazy_until c s = Some (g, r) → ¬ occurs c g.
Proof.
  intros Hc. revert g. induction s as [|x s IH]; intros g; cbn [Re.lazy_until].
  - destruct (strip_prefix c []) eqn:Hp; [|done].
    intros [= <- _] (a & b & Hab). by destruct a, c.
  - destruct (strip_prefix c (x :: s)) eqn:Hp.
    { intros [= <- _] (a & b & Hab). by destruct a, c. }
    destruct (Re.lazy_until c s) as [[g' r']|] eqn:Hl; [|done].
    intros [= <- <-] (a & b & Hab).
    destruct a as [|y a]; cbn [app] in Hab.
    + apply lazy_until_sound in Hl.
      assert (strip_prefix c (x :: s) = Some (b ++ c ++ r')) as Hs.
      { apply strip_prefix_Some. rewrite Hl, app_comm_cons, Hab.
        by rewrite <- !app_assoc. }
      congruence.
    + injection Hab as _ Hg. apply (IH g'); [done|]. by exists a, b.
Qed.

Lemma lazy_until_here (c s r : str) :
  strip_prefix c s = Some r → Re.lazy_until c s = Some ([], r).
Proof. intros Hp. destruct s; cbn [Re.lazy_until]; by rewrite Hp. Qed.

Lemma lazy_until_is_Some (c X post : str) :
  is_Some (Re.lazy_until c (X ++ c ++ post)).
Proof.
  induction X as [|x X [[g r] IH]].
  - cbn [app]. by rewrite (lazy_until_here _ _ post) by apply strip_prefix_app.
  - cbn [app Re.lazy_until]. rewrite IH. by destruct (strip_prefix _ _).
Qed.

Lemma search_is_Some (pre X post : str) :
  is_Some (Re.search (pre ++ Re.open_tag ++ X ++ Re.close_tag ++ post)).
Proof.
  induction pre as [|x pre IH].
  - cbn [app].
    destruct (lazy_until_is_Some Re.close_tag X post) as [[g r] Hl].
    rewrite (search_here _ g r); [done|].
    unfold Re.match_here. by rewrite strip_prefix_app.
  - cbn [app].
    destruct (Re.match_here
                (x :: pre ++ Re.open_tag ++ X ++ Re.close_tag ++ post))
      as [[g r]|] eqn:Hm.
    + by rewrite (search_here _ g r).
    + by rewrite search_skip.
Qed.

Lemma search_no_close (s g : str) :
  Re.search s = Some g → ¬ occurs Re.close_tag g.
Proof.
  induction s as [|x s IH].
  - cbn. done.
  - destruct (Re.match_here (x :: s)) as [[g' r]|] eqn:Hm.
    + rewrite (search_here _ g' r) by done. intros [= <-].
      unfold Re.match_here in Hm. destruct (strip_prefix _ _); [|done].
      by eapply lazy_until_minimal.
    + by rewrite search_skip.
Qed.

Lemma search_occurs (s g : str) : Re.search s = Some g → occurs g s.
Proof.
  intros (pre & post & ->)%search_sound.
  exists (pre ++ Re.open_tag), (Re.close_tag ++ post). by rewrite <- !app_assoc.
Qed.

(** A text in which the closing tag does not occur has no match. *)
Lemma search_None_no_close (s : str) :
  ¬ occurs Re.close_tag s → Re.search s = None.
Proof.
  intros Hno. apply search_None. intros (pre & X & post & ->). apply Hno.
  exists (pre ++ Re.open_tag ++ X), post. by rewrite <- !app_assoc.
Qed.

(** A part of a text that has no match has none. *)
Lemma search_None_part (s t : str) :
  occurs s t → Re.search t = None → Re.search s = None.
Proof.
  intros (a & b & ->) Hnone.
  destruct (Re.search s) as [g|] eqn:Hs; [|done].
  apply search_sound in Hs as (pre & post & ->).
  destruct (search_is_Some (a ++ pre) g (post ++ b)) as [g' Hg'].
  replace (a ++ (pre ++ Re.open_tag ++ g ++ Re.close_tag ++ post) ++ b)
    with ((a ++ pre) ++ Re.open_tag ++ g ++ Re.close_tag ++ post ++ b) in Hnone
    by (repeat rewrite <- (app_assoc (A:=char)); reflexivity).
  congruence.
Qed.

End SearchFacts.

Section ExtractMore.
Context `{Ext : Externals}.

(** X1. The text [extract_output_content] returns is a contiguous part
    of the response, with no whitespace at either end: stripping it
    again changes nothing, and neither its first nor its last character
    is a whitespace character. *)
Theorem extract_output_content_stripped (text : str) (w : World) :
  ∃ c, (extract_output_content text w).1 = Ok c
       ∧ occurs c text
       ∧ strip c = c
       ∧ (∀ x rest, c = x :: rest → isspace x = false)
       ∧ (∀ init x, c = init ++ [x] → isspace x = false).
Proof.
  rewrite extract_output_content_run. eexists. split; [done|].
  split; [|split; [apply strip_idemp|split]].
  - eapply occurs_trans; [apply strip_occurs|].
    destruct (Re.search text) as [g|] eqn:Hs; cbn [default].
    + by apply search_occurs.
    + by exists [], []; rewrite app_nil_r.
  - intros x rest Hc. pose proof (strip_head (default text (Re.search text))) as Hh.
    by rewrite Hc in Hh.
  - intros init x Hc. by eapply strip_last.
Qed.

(** X2. Extraction is idempotent: applied to a text it returned, in any
    world, [extract_output_content] returns that text unchanged. *)
Theorem extract_output_content_idempotent (text : str) (w w' : World) :
  ∃ c, (extract_output_content text w).1 = Ok c
       ∧ (extract_output_content c w').1 = Ok c.
Proof.
  rewrite extract_output_content_run. eexists. split; [done|].
  rewrite extract_output_content_run.
  assert (Re.search (strip (default text (Re.search text))) = None) as ->.
  { destruct (Re.search text) as [g|] eqn:Hs; cbn [default].
    - apply search_None_no_close. intros Hocc.
      apply (search_no_close _ _ Hs).
      eapply occurs_trans; [exact Hocc|apply strip_occurs].
    - eapply search_None_part; [apply strip_occurs|done]. }
  cbn [default]. by rewrite strip_idemp.
Qed.

(** X3. [extract_output_content] never raises and changes nothing but
    the log, to which it appends exactly one record: a warning when the
    response holds no complete [<output>...</output>] section, and a
    debug record otherwise. *)
Theorem extract_output_content_log (text : str) (w : World) :
  ∃ c lv msg,
    extract_output_content text w = (Ok c, add_log [(lv, msg)] w)
    ∧ (lv = WARNING
       ↔ ¬ ∃ pre X post, text = pre ++ Re.open_tag ++ X ++ Re.close_tag ++ post)
    ∧ (lv = DEBUG
       ↔ ∃ pre X post, text = pre ++ Re.open_tag ++ X ++ Re.close_tag ++ post).
Proof.
  unfold extract_output_content.
  destruct (Re.search text) as [g|] eqn:Hs.
  - eexists _, DEBUG, _. split; [reflexivity|].
    apply search_sound in Hs as (pre & post & ->).
    split; split; try done.
    + intros H. exfalso. apply H. by exists pre, g, post.
    + intros _. by exists pre, g, post.
  - eexists _, WARNING, _. split; [reflexivity|].
    split; split; try done.
    + intros _ (pre & X & post & ->).
      destruct (search_is_Some pre X post) as [? ?]. congruence.
    + intros (pre & X & post & ->).
      destruct (search_is_Some pre X post) as [? ?]. congruence.
Qed.

End ExtractMore.

(** ** More on [save_document] *)

Section SaveMore.
Context `{Ext : Externals}.



Lemma elem_of_path_prefixes (d p : Path) :
  d ∈ path_prefixes p ↔ d `prefix_of` p.
Proof.
  unfold path_prefixes. rewrite list_elem_of_fmap. split.
  - intros (n & -> & _). exists (drop n p). by rewrite take_drop.
  - intros [k ->]. exists (length d). split.
    + by rewrite take_app_length.
    + apply elem_of_seq. rewrite length_app. lia.
Qed.

Lemma endswith_app (a suffix : str) : endswith suffix (a ++ suffix) = true.
Proof.
  unfold endswith. apply bool_decide_eq_true_2.
  rewrite length_app, Nat.add_sub. apply drop_app_length.
Qed.


(** X5. After [save_document] has returned, the output directory and
    all its ancestors are directories; the directories that existed
    before still exist, and no other directory was created. *)
Theorem save_document_directories (dir : Path) (sn pid ts prompt : str)
    (content : option str) (w : World) :
  let run := save_document dir sn pid ts prompt content w in
  run.1 = Ok () →
  ∀ d : Path, d ∈ w_dirs run.2 ↔ d ∈ w_dirs w ∨ d `prefix_of` dir.
Proof.
  cbn zeta. rewrite save_document_run. case_bool_decide as Hd; [done|].
  cbn zeta. destruct (md5_hex _) as [h|e]; [|done]. intros _ d.
  cbn [snd w_dirs]. by rewrite elem_of_union, elem_of_list_to_set,
    elem_of_path_prefixes.
Qed.

(** X6. Documents are stored under their content: when two saves into
    the same directory carry the same content, the second one succeeds
    whenever the first did and replaces the file of the first, so that
    one file is added in all, holding the name, profile, timestamp and
    prompt of the second save. *)
Theorem save_document_same_content_overwrites (dir : Path)
    (sn1 pid1 ts1 prompt1 sn2 pid2 ts2 prompt2 c : str) (w : World) :
  let run1 := save_document dir sn1 pid1 ts1 prompt1 (Some c) w in
  let run2 := save_document dir sn2 pid2 ts2 prompt2 (Some c) run1.2 in
  run1.1 = Ok () →
  ∃ doc_id,
    md5_hex c = Ok doc_id
    ∧ run2.1 = Ok ()
    ∧ w_files run2.2
      = <[path_div dir (doc_id ++ lit ".json")
            := Json (JDict (document doc_id sn2 pid2 ts2 prompt2 (Some c)))]>
          (w_files w)
    ∧ w_dirs run2.2 = w_dirs run1.2.
Proof.
  cbn zeta. rewrite (save_document_run dir sn1). case_bool_decide as Hd; [done|].
  cbn zeta. change (default ?p (Some c)) with c.
  destruct (md5_hex c) as [doc_id|e] eqn:Hh; [|done]. intros _.
  exists doc_id. split; [done|]. cbn [snd]. rewrite save_document_run.
  cbn [w_files w_dirs w_log w_out w_calls w_profiles w_env].
  rewrite bool_decide_eq_false_2.
  2:{ rewrite lookup_insert_ne by apply path_div_ne. done. }
  cbn zeta. change (default ?p (Some c)) with c. rewrite Hh.
  cbn [fst snd w_files w_dirs]. split; [done|]. split.
  - apply insert_insert_eq.
  - by rewrite <- (assoc_L (∪)), (idemp_L (∪)).
Qed.

End SaveMore.

Section SaveScan.
Context `{Ext : Externals}.

(** X7. A saved document is found again: after [save_document] has
    returned for a non-empty profile identifier, a scan of the same
    directory by [get_existing_profile_ids] that returns holds that
    identifier. *)
Theorem saved_profile_is_found (dir : Path) (sn pid ts prompt : str)
    (content : option str) (w : World) (E : gset hkey) :
  let run := save_document dir sn pid ts prompt content w in
  run.1 = Ok () →
  pid ≠ [] →
  (get_existing_profile_ids dir run.2).1 = Ok E →
  HStr pid ∈ E.
Proof.
  cbn zeta. rewrite save_document_run. case_bool_decide as Hd; [done|].
  cbn zeta. destruct (md5_hex _) as [doc_id|e]; [|done].
  cbn [fst snd]. intros _ Hpid.
  apply (get_existing_profile_ids_collects dir _ (doc_id ++ lit ".json")
           (document doc_id sn pid ts prompt content) pid).
  - cbn [w_dirs]. apply elem_of_union_r, elem_of_list_to_set, elem_of_path_prefixes.
    done.
  - cbn [w_files]. apply lookup_insert_eq.
  - apply endswith_app.
  - reflexivity.
  - done.
Qed.

End SaveScan.

Lemma save_document_directories_witness :
  let run := save_document Demo.out_dir (lit "letter") (lit "p1")
               (lit "20250309_140507_000") (lit "Write a note for p1")
               (Some (lit "abc")) (Demo.world [] ∅ {[ [lit "home"] ]}) in
  run.1 = Ok ()
  ∧ ([lit "output"] ∈ w_dirs run.2 ↔
     [lit "output"] ∈ w_dirs (Demo.world [] ∅ {[ [lit "home"] ]})
     ∨ [lit "output"] `prefix_of` Demo.out_dir).
Proof.
  intros run. assert (run.1 = Ok ()) as Hrun by (vm_compute; reflexivity).
  split; [exact Hrun|].
  exact (save_document_directories Demo.out_dir (lit "letter") (lit "p1")
           (lit "20250309_140507_000") (lit "Write a note for p1")
           (Some (lit "abc")) (Demo.world [] ∅ {[ [lit "home"] ]}) Hrun
           [lit "output"]).
Defined.

Lemma save_document_same_content_overwrites_witness :
  let w := Demo.world [] ∅ ∅ in
  let run1 := save_document Demo.out_dir (lit "letter") (lit "p1") (lit "t1")
                (lit "prompt A") (Some (lit "abc")) w in
  let run2 := save_document Demo.out_dir (lit "note") (lit "p2") (lit "t2")
                (lit "prompt B") (Some (lit "abc")) run1.2 in
  ∃ doc_id,
    md5_hex (lit "abc") = Ok doc_id
    ∧ run2.1 = Ok ()
    ∧ w_files run2.2
      = <[path_div Demo.out_dir (doc_id ++ lit ".json")
            := Json (JDict (document doc_id (lit "note") (lit "p2") (lit "t2")
                              (lit "prompt B") (Some (lit "abc"))))]> (w_files w)
    ∧ w_dirs run2.2 = w_dirs run1.2.
Proof.
  intros w run1 run2.
  apply (save_document_same_content_overwrites Demo.out_dir (lit "letter")
           (lit "p1") (lit "t1") (lit "prompt A") (lit "note") (lit "p2")
           (lit "t2") (lit "prompt B") (lit "abc") w).
  vm_compute. reflexivity.
Defined.

Lemma saved_profile_is_found_witness :
  let run := save_document Demo.out_dir (lit "letter") (lit "p1")
               (lit "20250309_140507_000") (lit "Write a note for p1")
               None (Demo.world [] ∅ ∅) in
  match (get_existing_profile_ids Demo.out_dir run.2).1 with
  | Ok E => HStr (lit "p1") ∈ E
  | Raise _ => False
  end.
Proof.
  intros run.
  assert (match (get_existing_profile_ids Demo.out_dir run.2).1 with
          | Ok _ => true
          | Raise _ => false
          end = true) as Hok by (vm_compute; reflexivity).
  destruct (get_existing_profile_ids Demo.out_dir run.2).1 as [E|e] eqn:HE;
    [|discriminate].
  apply (saved_profile_is_found Demo.out_dir (lit "letter") (lit "p1")
           (lit "20250309_140507_000") (lit "Write a note for p1") None
           (Demo.world [] ∅ ∅) E).
  - vm_compute. reflexivity.
  - discriminate.
  - exact HE.
Defined.

Section Digits.

Lemma digits_le_length (w : nat) (n : N) : length (digits_le w n) = w.
Proof. revert n. induction w as [|w IH]; intros n; cbn; [done|]. by rewrite IH. Qed.

Lemma digits_le_lt (w : nat) (n : N) : Forall (λ a, a < 10) (digits_le w n).
Proof.
  revert n. induction w as [|w IH]; intros n; cbn [digits_le]; constructor.
  - by apply N.mod_lt.
  - apply IH.
Qed.

Lemma digits_le_app (a b : nat) (n : N) :
  digits_le (a + b) n = digits_le a n ++ digits_le b (n / 10 ^ N.of_nat a).
Proof.
  revert n. induction a as [|a IH]; intros n.
  - cbn. by rewrite N.div_1_r.
  - cbn [Nat.add digits_le app]. rewrite IH. do 2 f_equal.
    rewrite Nat2N.inj_succ, N.pow_succ_r', N.Div0.div_div. done.
Qed.

Lemma small_digit (a : N) :
  a < 10 →
  a = 0 ∨ a = 1 ∨ a = 2 ∨ a = 3 ∨ a = 4 ∨ a = 5 ∨ a = 6 ∨ a = 7 ∨ a = 8 ∨ a = 9.
Proof. lia. Qed.

Lemma of_lu_cons (a : N) (l : list DecimalFacts.digits) :
  a < 10 →
  DecimalPos.Unsigned.of_lu (DecimalFacts.of_list (digit_of a :: l))
  = a + 10 * DecimalPos.Unsigned.of_lu (DecimalFacts.of_list l).
Proof.
  intros Ha. destruct (small_digit a Ha) as [->|[->|[->|[->|[->|[->|[->|[->|[->| ->]]]]]]]]];
    reflexivity.
Qed.

Lemma of_lu_digits (w : nat) (n : N) :
  DecimalPos.Unsigned.of_lu (DecimalFacts.of_list (List.map digit_of (digits_le w n)))
  = n mod 10 ^ N.of_nat w.
Proof.
  revert n. induction w as [|w IH]; intros n.
  - cbn. by rewrite N.mod_1_r.
  - cbn [digits_le List.map]. rewrite of_lu_cons by (by apply N.mod_lt).
    rewrite IH, Nat2N.inj_succ, N.pow_succ_r', N.Div0.mod_mul_r. done.
Qed.

Lemma to_uint_digits (w : nat) (n : N) :
  n < 10 ^ N.of_nat w →
  N.to_uint n
  = Decimal.unorm (Decimal.rev (DecimalFacts.of_list
                                  (List.map digit_of (digits_le w n)))).
Proof.
  intros Hn. rewrite <- DecimalN.Unsigned.to_of. f_equal.
  unfold N.of_uint. rewrite DecimalPos.Unsigned.of_lu_rev, of_lu_digits.
  by rewrite N.mod_small.
Qed.

Lemma lit_string_of_uint_gen (d : Decimal.uint) :
  lit (NilEmpty.string_of_uint d) = List.map char_of_digit (DecimalFacts.to_list d).
Proof.
  induction d; cbn [DecimalFacts.to_list List.map NilEmpty.string_of_uint];
    [reflexivity|..];
    match goal with
    | |- lit (String ?c ?s) = _ =>
        change (lit (String c s)) with (N_of_ascii c :: lit s)
    end; by rewrite IHd.
Qed.

Lemma lit_iter_D0 (k : nat) (d : Decimal.uint) :
  lit (NilEmpty.string_of_uint (Nat.iter k Decimal.D0 d))
  = repeat 48 k ++ lit (NilEmpty.string_of_uint d).
Proof.
  induction k as [|k IH]; [done|]. cbn [repeat app]. rewrite <- IH. reflexivity.
Qed.

Lemma char_of_digit_of (a : N) : a < 10 → char_of_digit (digit_of a) = 48 + a.
Proof.
  intros Ha. destruct (small_digit a Ha) as [->|[->|[->|[->|[->|[->|[->|[->|[->| ->]]]]]]]]];
    reflexivity.
Qed.

(** A number below [10 ^ w], padded to [w] digits, is its [w] decimal
    digits, the highest first. *)
Lemma zpad_digits (w : nat) (n : N) :
  (0 < w)%nat → n < 10 ^ N.of_nat w →
  zpad w n = rev (List.map (N.add 48) (digits_le w n)).
Proof.
  intros Hw Hn. unfold zpad. rewrite (to_uint_digits w n Hn).
  set (d := Decimal.rev _).
  assert (Hd : Decimal.nb_digits d = w).
  { unfold d. rewrite DecimalFacts.nb_digits_rev, DecimalFacts.nb_digits_spec,
      DecimalFacts.to_list_of_list, length_map. apply digits_le_length. }
  assert (Hne : d ≠ Decimal.Nil).
  { apply DecimalFacts.nb_digits_n0. lia. }
  assert (Hs : lit (NilZero.string_of_uint (Decimal.unorm d))
               = lit (NilEmpty.string_of_uint (Decimal.unorm d))).
  { pose proof (DecimalFacts.unorm_nonnil d). by destruct (Decimal.unorm d). }
  rewrite Hs, (lit_string_of_uint_gen (Decimal.unorm d)) at 1.
  rewrite length_map, <- DecimalFacts.nb_digits_spec, <- Hd at 1.
  rewrite Hs, <- lit_iter_D0, (DecimalFacts.iter_D0_unorm d Hne).
  rewrite lit_string_of_uint_gen.
  unfold d. rewrite DecimalFacts.rev_spec, DecimalFacts.to_list_of_list.
  rewrite map_rev, map_map. f_equal.
  apply map_ext_Forall. eapply Forall_impl; [apply digits_le_lt|].
  intros a Ha. by apply char_of_digit_of.
Qed.

Lemma zpad_width (w : nat) (n : N) :
  (0 < w)%nat → n < 10 ^ N.of_nat w → length (zpad w n) = w.
Proof.
  intros Hw Hn. rewrite zpad_digits by done.
  by rewrite length_rev, length_map, digits_le_length.
Qed.

(** The first [a] of [a + b] digits are the digits of the quotient by
    [10 ^ b]. *)
Lemma zpad_take (a b : nat) (n : N) :
  (0 < a)%nat → n < 10 ^ N.of_nat (a + b) →
  take a (zpad (a + b) n) = zpad a (n / 10 ^ N.of_nat b).
Proof.
  intros Ha Hn. rewrite zpad_digits by (done || lia).
  rewrite zpad_digits; [|done|].
  2:{ apply N.Div0.div_lt_upper_bound.
      rewrite <- N.pow_add_r, <- Nat2N.inj_add, Nat.add_comm. done. }
  rewrite (Nat.add_comm a b), digits_le_app, map_app, rev_app_distr.
  rewrite take_app_length'; [done|].
  by rewrite length_rev, length_map, digits_le_length.
Qed.

End Digits.

Section Timestamp.
Context `{Ext : Externals}.

(** X8. For a date within the ranges of its fields, the timestamp is
    [YYYYMMDD_HHMMSS_mmm]: the year on four digits, then month, day,
    hour, minute and second on two digits each, and after the second
    underscore the milliseconds on three digits, that is the
    microseconds divided by 1000, rounded down. Two readings of the
    clock within the same millisecond therefore give the same
    timestamp. *)
Theorem generate_timestamp_milliseconds (w : World) :
  let now := (ext_now (w_env w)).1 in
  valid now →
  (generate_timestamp w).1
  = Ok (zpad 4 (year now) ++ zpad 2 (month now) ++ zpad 2 (day now) ++ lit "_"
        ++ zpad 2 (hour now) ++ zpad 2 (minute now) ++ zpad 2 (second now)
        ++ lit "_" ++ zpad 3 (microsecond now / 1000))
  ∧ length (zpad 4 (year now)) = 4%nat
  ∧ length (zpad 2 (month now)) = 2%nat
  ∧ length (zpad 2 (day now)) = 2%nat
  ∧ length (zpad 2 (hour now)) = 2%nat
  ∧ length (zpad 2 (minute now)) = 2%nat
  ∧ length (zpad 2 (second now)) = 2%nat
  ∧ length (zpad 3 (microsecond now / 1000)) = 3%nat.
Proof.
  intros now (Hy & Hmo & Hd & Hh & Hmi & Hs & Hus).
  assert (H4 : length (zpad 4 (year now)) = 4%nat)
    by (apply zpad_width; [lia|change (10 ^ N.of_nat 4) with 10000; lia]).
  assert (H2 : ∀ n, n ≤ 99 → length (zpad 2 n) = 2%nat).
  { intros n Hn. apply zpad_width; [lia|change (10 ^ N.of_nat 2) with 100; lia]. }
  assert (Hms : take 3 (zpad 6 (microsecond now)) = zpad 3 (microsecond now / 1000)).
  { apply (zpad_take 3 3); [lia|].
    change (10 ^ N.of_nat (3 + 3)) with 1000000. lia. }
  assert (H3 : length (zpad 3 (microsecond now / 1000)) = 3%nat).
  { rewrite <- Hms, length_take.
    pose proof (zpad_length 6 (microsecond now)). lia. }
  pose proof (H2 (month now) ltac:(lia)) as Hl1.
  pose proof (H2 (day now) ltac:(lia)) as Hl2.
  pose proof (H2 (hour now) ltac:(lia)) as Hl3.
  pose proof (H2 (minute now) ltac:(lia)) as Hl4.
  pose proof (H2 (second now) ltac:(lia)) as Hl5.
  split; [|done].
  rewrite generate_timestamp_run. subst now.
  destruct (ext_now (w_env w)) as [now e]. cbn [fst]. f_equal.
  change (strftime (lit "%Y%m%d_%H%M%S_%f") now)
    with (zpad 4 (year now) ++ zpad 2 (month now) ++ zpad 2 (day now) ++ [95]
          ++ zpad 2 (hour now) ++ zpad 2 (minute now) ++ zpad 2 (second now)
          ++ [95] ++ zpad 6 (microsecond now) ++ []).
  change (lit "_") with [95]. cbn [fst] in *.
  rewrite app_nil_r.
  change 19%nat with (4 + (2 + (2 + (1 + (2 + (2 + (2 + (1 + 3))))))))%nat.
  rewrite (take_app_add' (zpad 4 _)) by done. f_equal.
  do 2 (rewrite (take_app_add' (zpad 2 _)) by done; f_equal).
  rewrite (take_app_add' [95]) by done. f_equal.
  do 3 (rewrite (take_app_add' (zpad 2 _)) by done; f_equal).
  rewrite (take_app_add' [95]) by done. f_equal.
  exact Hms.
Qed.

End Timestamp.

Lemma generate_timestamp_milliseconds_witness :
  let w := set_env (Demo.env 4321) (Demo.world [] ∅ ∅) in
  (generate_timestamp w).1
  = Ok (zpad 4 2025 ++ zpad 2 3 ++ zpad 2 9 ++ lit "_"
        ++ zpad 2 14 ++ zpad 2 5 ++ zpad 2 7 ++ lit "_" ++ zpad 3 (4321 / 1000))
  ∧ zpad 3 (4321 / 1000) = lit "004".
Proof.
  intros w. split; [|vm_compute; reflexivity].
  apply (generate_timestamp_milliseconds w).
  unfold valid. repeat split; apply N.leb_le; vm_compute; reflexivity.
Defined.

Section ScanMore.
Context `{Ext : Externals}.

Lemma add_log_nil (w : World) : add_log [] w = w.
Proof. destruct w. unfold add_log. cbn. by rewrite app_nil_r. Qed.

Lemma add_log_add_log (l1 l2 : list (level * str)) (w : World) :
  add_log l2 (add_log l1 w) = add_log (l1 ++ l2) w.
Proof. unfold add_log. cbn. by rewrite app_assoc. Qed.


(** One file: the body returns on a scannable file and raises, with
    the world unchanged, on any other. *)
Lemma scan_file_step (s : gset hkey) (f : Path) (w : World) :
  match w_files w !! f with
  | Some c =>
      if scannable c then
        scan_file s f w
        = (Ok (s ∪ from_option singleton ∅ (collected_key c)),
           add_log (option_list (scan_warning (w_files w) f)) w)
      else ∃ e, scan_file s f w = (Raise e, w)
  | None => ∃ e, scan_file s f w = (Raise e, w)
  end.
Proof.
  rewrite scan_file_run. unfold scan_warning.
  destruct (w_files w !! f) as [[j|msg]|] eqn:Hf; [| |by eexists].
  - destruct j as [|b|z|t|l|kv]; cbn [scannable method_get]; try by eexists.
    cbn [collected_key]. destruct (truthy _); cbn [negb orb].
    + destruct (hashable _) as [k|e]; [|by eexists].
      cbn [from_option option_list]. by rewrite add_log_nil.
    + cbn [from_option option_list]. rewrite add_log_nil.
      by rewrite (right_id_L ∅ (∪)).
  - cbn [scannable option_list collected_key from_option].
    by rewrite (right_id_L ∅ (∪)).
Qed.

Lemma scan_files_cons (s : gset hkey) (f : Path) (files : list Path) (w : World) :
  scan_files s (f :: files) w
  = match scan_file s f w with
    | (Ok s', w1) => scan_files s' files w1
    | (Raise e, w1) => (Raise e, w1)
    end.
Proof. cbn [scan_files]. by rewrite bind_run. Qed.

(** The whole loop. *)
Lemma scan_files_spec (files : list Path) (s : gset hkey) (w : World) :
  if all_scannable (w_files w) files then
    scan_files s files w
    = (Ok (s ∪ list_to_set (omap (λ f, w_files w !! f ≫= collected_key) files)),
       add_log (omap (scan_warning (w_files w)) files) w)
  else
    ∃ e l, scan_files s files w = (Raise e, add_log l w)
           ∧ Forall (λ r, r.1 = WARNING) l.
Proof.
  revert s w. induction files as [|f files IH]; intros s w.
  { cbn. rewrite add_log_nil. by rewrite (right_id_L ∅ (∪)). }
  rewrite scan_files_cons. pose proof (scan_file_step s f w) as Hstep.
  cbn [all_scannable forallb].
  destruct (w_files w !! f) as [c|] eqn:Hf; cbn [from_option].
  2:{ destruct Hstep as [e ->]. exists e, []. by rewrite add_log_nil. }
  destruct (scannable c) eqn:Hc; cbn [andb].
  2:{ destruct Hstep as [e ->]. exists e, []. by rewrite add_log_nil. }
  rewrite Hstep.
  specialize (IH (s ∪ from_option singleton ∅ (collected_key c))
                 (add_log (option_list (scan_warning (w_files w) f)) w)).
  change (w_files (add_log _ w)) with (w_files w) in IH.
  fold (all_scannable (w_files w) files).
  destruct (all_scannable (w_files w) files).
  - rewrite IH, add_log_add_log. f_equal.
    + f_equal. cbn [omap list_omap]. rewrite Hf. cbn [mbind option_bind].
      destruct (collected_key c) as [k|]; cbn [from_option list_to_set].
      * by rewrite (assoc_L (∪)).
      * by rewrite (right_id_L ∅ (∪)).
    + f_equal. cbn [omap list_omap]. by destruct (scan_warning _ f).
  - destruct IH as (e & l & -> & Hl).
    rewrite add_log_add_log. eexists e, _. split; [done|].
    apply Forall_app. split; [|done].
    unfold scan_warning. rewrite Hf. destruct c; cbn; by repeat constructor.
Qed.

Lemma scan_warning_level fs f r : scan_warning fs f = Some r → r.1 = WARNING.
Proof. unfold scan_warning. repeat case_match; by intros [= <-]. Qed.

(** What [glob("*.json")] lists. *)
Lemma elem_of_glob_json (dir : Path) (w : World) (f : Path) :
  f ∈ match (glob_json dir w).1 with Ok files => files | Raise _ => [] end ↔
  ∃ name c, f = path_div dir name ∧ w_files w !! f = Some c
            ∧ endswith (lit ".json") name = true.
Proof.
  unfold glob_json. cbn [fst]. rewrite list_elem_of_filter, list_elem_of_fmap. split.
  - intros [(Hpar & Hne & Hend) ([p c] & -> & Hin%elem_of_map_to_list)].
    cbn [fst] in *. exists (path_name p), c. repeat split; [|done|].
    + rewrite <- Hpar. unfold path_div, path_parent, path_name.
      by apply app_removelast_last.
    + by apply Is_true_true.
  - intros (name & c & -> & Hf & Hend). split.
    + rewrite path_div_parent, path_div_name, Hend. repeat split.
      unfold path_div. by destruct dir.
    + exists (path_div dir name, c). split; [done|]. by apply elem_of_map_to_list.
Qed.

Lemma get_existing_profile_ids_run (dir : Path) (w : World) :
  get_existing_profile_ids dir w
  = if bool_decide (dir ∈ w_dirs w) || bool_decide (is_Some (w_files w !! dir))
    then scan_files ∅ match (glob_json dir w).1 with
                      | Ok files => files
                      | Raise _ => []
                      end w
    else (Ok ∅, w).
Proof.
  unfold get_existing_profile_ids. rewrite bind_run. unfold path_exists.
  by destruct (_ || _).
Qed.

(** The scan leaves the world as it was, but for warnings in the log. *)
Lemma get_existing_profile_ids_world (dir : Path) (w : World) :
  ∃ l, (get_existing_profile_ids dir w).2 = add_log l w
       ∧ Forall (λ r, r.1 = WARNING) l.
Proof.
  rewrite get_existing_profile_ids_run.
  destruct (_ || _); [|exists []; by rewrite add_log_nil].
  set (files := match _ with Ok files => files | Raise _ => [] end).
  pose proof (scan_files_spec files ∅ w) as Hspec.
  destruct (all_scannable (w_files w) files).
  - rewrite Hspec. eexists. split; [done|].
    apply Forall_forall. intros r (f & _ & Hr)%list_elem_of_omap.
    by eapply scan_warning_level.
  - destruct Hspec as (e & l & -> & Hl). by exists l.
Qed.

(** X9. [get_existing_profile_ids] only reads: whether it returns or
    raises, it leaves the files, the directories, the output, the
    calls, the profiles and the collaborators as they were, and only
    appends warnings to the log. *)
Theorem get_existing_profile_ids_read_only (dir : Path) (w : World) :
  let run := get_existing_profile_ids dir w in
  w_files run.2 = w_files w
  ∧ w_dirs run.2 = w_dirs w
  ∧ w_out run.2 = w_out w
  ∧ w_calls run.2 = w_calls w
  ∧ w_profiles run.2 = w_profiles w
  ∧ w_env run.2 = w_env w
  ∧ ∃ l, w_log run.2 = w_log w ++ l ∧ Forall (λ r, r.1 = WARNING) l.
Proof.
  cbn zeta. destruct (get_existing_profile_ids_world dir w) as (l & -> & Hl).
  repeat split. by exists l.
Qed.


(** X10. What a scan that returns has collected: exactly the [profile]
    values, when truthy, of the JSON objects held by the files of the
    output directory whose name ends in [.json]. Nothing else gets into
    the set; files of other directories and with other names do not
    count. *)
Theorem get_existing_profile_ids_exact (dir : Path) (w : World) (E : gset hkey) :
  (get_existing_profile_ids dir w).1 = Ok E →
  (∀ k, k ∈ E →
     ∃ name kv,
       w_files w !! path_div dir name = Some (Json (JDict kv))
       ∧ endswith (lit ".json") name = true
       ∧ truthy (dict_get (lit "profile") kv) = true
       ∧ hashable (dict_get (lit "profile") kv) = Ok k)
  ∧ (dir ∈ w_dirs w →
     ∀ name kv k,
       w_files w !! path_div dir name = Some (Json (JDict kv)) →
       endswith (lit ".json") name = true →
       truthy (dict_get (lit "profile") kv) = true →
       hashable (dict_get (lit "profile") kv) = Ok k →
       k ∈ E).
Proof.
  rewrite get_existing_profile_ids_run.
  set (files := match _ with Ok files => files | Raise _ => [] end).
  pose proof (scan_files_spec files ∅ w) as Hspec.
  assert (Hkey : ∀ c k, collected_key c = Some k ↔
            ∃ kv, c = Json (JDict kv)
                  ∧ truthy (dict_get (lit "profile") kv) = true
                  ∧ hashable (dict_get (lit "profile") kv) = Ok k).
  { intros c k. destruct c as [j|msg]; [destruct j as [|b|z|t|l|kv]|];
      cbn [collected_key];
      try (split; [done|by intros (? & [=] & _)]).
    split.
    - intros H. exists kv. destruct (truthy _); [|done].
      by destruct (hashable _) as [k'|e]; simplify_eq.
    - intros (kv' & [= <-] & -> & ->). done. }
  destruct (bool_decide (dir ∈ w_dirs w)) eqn:Hdir; cbn [orb].
  2:{ destruct (bool_decide (is_Some _)).
      2:{ intros [= <-]. split; [set_solver|].
          intros Hd. apply bool_decide_eq_false in Hdir. done. }
      destruct (all_scannable _ _).
      2:{ by destruct Hspec as (e & l & -> & _). }
      rewrite Hspec. cbn [fst]. intros [= <-]. split.
      2:{ intros Hd. apply bool_decide_eq_false in Hdir. done. }
      intros k. rewrite (left_id_L ∅ (∪)), elem_of_list_to_set, list_elem_of_omap.
      intros (f & (name & c & -> & Hf & Hend)%elem_of_glob_json & Hk).
      rewrite Hf in Hk. cbn in Hk. apply Hkey in Hk as (kv & -> & Ht & Hh).
      by exists name, kv. }
  destruct (all_scannable _ _).
  2:{ by destruct Hspec as (e & l & -> & _). }
  rewrite Hspec. cbn [fst]. intros [= <-]. split.
  - intros k. rewrite (left_id_L ∅ (∪)), elem_of_list_to_set, list_elem_of_omap.
    intros (f & (name & c & -> & Hf & Hend)%elem_of_glob_json & Hk).
    rewrite Hf in Hk. cbn in Hk. apply Hkey in Hk as (kv & -> & Ht & Hh).
    by exists name, kv.
  - intros _ name kv k Hf Hend Ht Hh.
    rewrite (left_id_L ∅ (∪)), elem_of_list_to_set, list_elem_of_omap.
    exists (path_div dir name). split.
    + apply elem_of_glob_json. by eexists name, _.
    + rewrite Hf. apply (Hkey (Json (JDict kv)) k). by exists kv.
Qed.


(** X12. A scan that returns has logged one warning for each [.json]
    file of the directory that is not JSON, in the order of the
    listing, naming the file and giving the decoder's message, and no
    other record. *)
Theorem get_existing_profile_ids_warnings (dir : Path) (w : World)
    (E : gset hkey) (files : list Path) :
  (get_existing_profile_ids dir w).1 = Ok E →
  dir ∈ w_dirs w →
  (glob_json dir w).1 = Ok files →
  w_log (get_existing_profile_ids dir w).2
  = w_log w
    ++ omap (λ f, match w_files w !! f with
                  | Some (NotJson msg) =>
                      Some (WARNING, lit "Could not read profile from "
                                     ++ path_name f ++ lit ": " ++ msg)
                  | _ => None
                  end) files.
Proof.
  rewrite get_existing_profile_ids_run. intros Hrun Hdir Hglob. revert Hrun.
  rewrite (bool_decide_eq_true_2 _ Hdir). cbn [orb]. rewrite Hglob.
  pose proof (scan_files_spec files ∅ w) as Hspec.
  destruct (all_scannable _ _).
  - rewrite Hspec. done.
  - by destruct Hspec as (e & l & -> & _).
Qed.


End ScanMore.


Lemma get_existing_profile_ids_exact_witness :
  match (get_existing_profile_ids Demo.out_dir ScanDemo.w).1 with
  | Ok E => HStr (lit "p1") ∈ E
  | Raise _ => False
  end.
Proof.
  assert (match (get_existing_profile_ids Demo.out_dir ScanDemo.w).1 with
          | Ok _ => true
          | Raise _ => false
          end = true) as Hok by (vm_compute; reflexivity).
  destruct (get_existing_profile_ids Demo.out_dir ScanDemo.w).1 as [E|e] eqn:HE;
    [|discriminate].
  apply (proj2 (get_existing_profile_ids_exact Demo.out_dir ScanDemo.w E HE))
    with (name := lit "0f.json")
         (kv := document (lit "0f") (lit "letter") (lit "p1")
                  (lit "20250309_140507_000") (lit "Write a note for p1") None).
  - apply elem_of_singleton. reflexivity.
  - vm_compute. reflexivity.
  - vm_compute. reflexivity.
  - vm_compute. reflexivity.
  - reflexivity.
Defined.


Lemma get_existing_profile_ids_warnings_witness :
  match (get_existing_profile_ids Demo.out_dir ScanDemo.w).1,
        (glob_json Demo.out_dir ScanDemo.w).1 with
  | Ok E, Ok files =>
      w_log (get_existing_profile_ids Demo.out_dir ScanDemo.w).2
      = w_log ScanDemo.w
        ++ omap (λ f, match w_files ScanDemo.w !! f with
                      | Some (NotJson msg) =>
                          Some (WARNING, lit "Could not read profile from "
                                         ++ path_name f ++ lit ": " ++ msg)
                      | _ => None
                      end) files
  | _, _ => False
  end.
Proof.
  assert (match (get_existing_profile_ids Demo.out_dir ScanDemo.w).1 with
          | Ok _ => true
          | Raise _ => false
          end = true) as Hok by (vm_compute; reflexivity).
  destruct (get_existing_profile_ids Demo.out_dir ScanDemo.w).1 as [E|e] eqn:HE;
    [|discriminate].
  destruct (glob_json Demo.out_dir ScanDemo.w).1 as [files|e] eqn:Hg;
    [|discriminate].
  apply (get_existing_profile_ids_warnings Demo.out_dir ScanDemo.w E files HE).
  - apply elem_of_singleton. reflexivity.
  - exact Hg.
Defined.


Section NamesMore.
Context `{Ext : Externals}.

Lemma random_choice_nil {A} (w : World) :
  random_choice (A:=A) [] w
  = (Raise (Exn IndexError (lit "Cannot choose from an empty sequence")), w).
Proof. reflexivity. Qed.

Lemma dict_item_Ok (k : str) (d : list (str * str)) :
  match dict_item k d with
  | Ok _ => k ∈ d.*1
  | Raise e => ¬ (k ∈ d.*1) ∧ e = Exn KeyError (lit "'" ++ k ++ lit "'")
  end.
Proof.
  induction d as [|[k' v] d IH]; cbn [dict_item fmap list_fmap fst].
  - split; [apply not_elem_of_nil|done].
  - destruct (decide (k' = k)) as [->|Hne]; [by left|].
    destruct (dict_item k d).
    + by right.
    + destruct IH as [IH ->]. split; [|done].
      intros [?|?]%elem_of_cons; done.
Qed.

(** X14. [sample] returns exactly when none of the four lists is
    empty; with an empty list it raises the [IndexError] of
    [random.choice] and returns no partial dict. *)
Theorem sample_empty_list (self : NamesLocationsLoader) (w : World) :
  match (sample self w).1 with
  | Ok d =>
      patient_names self ≠ [] ∧ clinician_names self ≠ []
      ∧ providers self ≠ [] ∧ wards_clinics self ≠ []
  | Raise e =>
      e = Exn IndexError (lit "Cannot choose from an empty sequence")
      ∧ (patient_names self = [] ∨ clinician_names self = []
         ∨ providers self = [] ∨ wards_clinics self = [])
  end.
Proof.
  unfold sample. rewrite bind_run.
  destruct (patient_names self) as [|pn pns]; [rewrite random_choice_nil; cbn; auto 10|].
  match goal with |- context [random_choice (pn :: pns) ?w1] =>
    destruct (random_choice_run (pn :: pns) w1) as (x1 & _ & ->); [done|] end.
  rewrite bind_run.
  destruct (clinician_names self) as [|cn cns]; [rewrite random_choice_nil; cbn; auto 10|].
  match goal with |- context [random_choice (cn :: cns) ?w1] =>
    destruct (random_choice_run (cn :: cns) w1) as (x2 & _ & ->); [done|] end.
  rewrite bind_run.
  destruct (providers self) as [|pr prs]; [rewrite random_choice_nil; cbn; auto 10|].
  match goal with |- context [random_choice (pr :: prs) ?w1] =>
    destruct (random_choice_run (pr :: prs) w1) as (x3 & _ & ->); [done|] end.
  rewrite bind_run.
  destruct (wards_clinics self) as [|wc wcs];
    [rewrite random_choice_nil; cbn; auto 10|].
  match goal with |- context [random_choice (wc :: wcs) ?w1] =>
    destruct (random_choice_run (wc :: wcs) w1) as (x4 & _ & ->); [done|] end.
  cbn. done.
Qed.

Lemma format_prompt_run (self : NamesLocationsLoader) (d : list (str * str))
    (w : World) :
  format_prompt self d w
  = match dict_item (lit "patient_name") d with
    | Raise e => (Raise e, w)
    | Ok pn =>
        match dict_item (lit "clinician_name") d with
        | Raise e => (Raise e, w)
        | Ok cn =>
            match dict_item (lit "provider") d with
            | Raise e => (Raise e, w)
            | Ok pr =>
                match dict_item (lit "ward_clinic") d with
                | Raise e => (Raise e, w)
                | Ok wc => (Ok (str_join [10] (prompt_lines pn cn pr wc)), w)
                end
            end
        end
    end.
Proof.
  unfold format_prompt, lift. rewrite bind_run.
  destruct (dict_item (lit "patient_name") d); [|done]. rewrite bind_run.
  destruct (dict_item (lit "clinician_name") d); [|done]. rewrite bind_run.
  destruct (dict_item (lit "provider") d); [|done]. rewrite bind_run.
  destruct (dict_item (lit "ward_clinic") d); done.
Qed.

(** X15. [format_prompt] returns exactly when the dict has the four
    keys [patient_name], [clinician_name], [provider] and
    [ward_clinic]; otherwise it raises [KeyError] for the first of
    them, in that order, that is missing. It changes nothing. *)
Theorem format_prompt_missing_key (self : NamesLocationsLoader)
    (d : list (str * str)) (w : World) :
  (format_prompt self d w).2 = w
  ∧ match (format_prompt self d w).1 with
    | Ok _ => ∀ k, k ∈ prompt_keys → k ∈ d.*1
    | Raise e =>
        ∃ before k after,
          prompt_keys = before ++ k :: after
          ∧ (∀ k', k' ∈ before → k' ∈ d.*1)
          ∧ ¬ (k ∈ d.*1)
          ∧ e = Exn KeyError (lit "'" ++ k ++ lit "'")
    end.
Proof.
  rewrite format_prompt_run.
  pose proof (dict_item_Ok (lit "patient_name") d) as H1.
  pose proof (dict_item_Ok (lit "clinician_name") d) as H2.
  pose proof (dict_item_Ok (lit "provider") d) as H3.
  pose proof (dict_item_Ok (lit "ward_clinic") d) as H4.
  destruct (dict_item (lit "patient_name") d) as [pn|e1].
  2:{ split; [done|]. destruct H1 as [H1 ->].
      exists [], (lit "patient_name"), (tail prompt_keys).
      repeat split; try done. by intros k' ?%elem_of_nil. }
  destruct (dict_item (lit "clinician_name") d) as [cn|e2].
  2:{ split; [done|]. destruct H2 as [H2 ->].
      exists [lit "patient_name"], (lit "clinician_name"), (drop 2 prompt_keys).
      repeat split; try done. by intros k' ->%list_elem_of_singleton. }
  destruct (dict_item (lit "provider") d) as [pr|e3].
  2:{ split; [done|]. destruct H3 as [H3 ->].
      exists (take 2 prompt_keys), (lit "provider"), (drop 3 prompt_keys).
      repeat split; try done.
      intros k' [->|[->|?%elem_of_nil]%elem_of_cons]%elem_of_cons; done. }
  destruct (dict_item (lit "ward_clinic") d) as [wc|e4].
  2:{ split; [done|]. destruct H4 as [H4 ->].
      exists (take 3 prompt_keys), (lit "ward_clinic"), [].
      repeat split; try done.
      intros k' [->|[->|[->|?%elem_of_nil]%elem_of_cons]%elem_of_cons]%elem_of_cons;
        done. }
  split; [done|]. cbn [fst].
  intros k [->|[->|[->|[->|?%elem_of_nil]%elem_of_cons]%elem_of_cons]%elem_of_cons]%elem_of_cons;
    done.
Qed.

(** X16. The text built for a sampled dict: [format_prompt] applied to
    what [sample] returned never raises, and gives the heading, an
    empty line, and the four labelled lines, each ended by a newline,
    with a patient name, a clinician name, a provider and a ward or
    clinic taken from the lists of the loader. *)
Theorem format_prompt_sample (self : NamesLocationsLoader) (w w' : World)
    (d : list (str * str)) :
  (sample self w).1 = Ok d →
  ∃ pn cn pr wc,
    pn ∈ patient_names self ∧ cn ∈ clinician_names self
    ∧ pr ∈ providers self ∧ wc ∈ wards_clinics self
    ∧ format_prompt self d w'
      = (Ok (lit "## USE THESE NAMES AND LOCATIONS (BUT REDACT AS PROMPTED)"
             ++ [10; 10]
             ++ lit "**Patient Name:** " ++ pn ++ [10]
             ++ lit "**Clinician Name:** " ++ cn ++ [10]
             ++ lit "**Hospital/Practice:** " ++ pr ++ [10]
             ++ lit "**Ward/Clinic:** " ++ wc ++ [10]), w').
Proof.
  unfold sample. intros Hs.
  rewrite bind_run in Hs.
  pose proof (random_choice_elem (patient_names self) w) as H1.
  destruct (random_choice (patient_names self) w) as [[pn|e] w1]; [|done].
  specialize (H1 pn eq_refl). rewrite bind_run in Hs.
  pose proof (random_choice_elem (clinician_names self) w1) as H2.
  destruct (random_choice (clinician_names self) w1) as [[cn|e] w2]; [|done].
  specialize (H2 cn eq_refl). rewrite bind_run in Hs.
  pose proof (random_choice_elem (providers self) w2) as H3.
  destruct (random_choice (providers self) w2) as [[pr|e] w3]; [|done].
  specialize (H3 pr eq_refl). rewrite bind_run in Hs.
  pose proof (random_choice_elem (wards_clinics self) w3) as H4.
  destruct (random_choice (wards_clinics self) w3) as [[wc|e] w4]; [|done].
  specialize (H4 wc eq_refl). cbn in Hs. injection Hs as <-.
  exists pn, cn, pr, wc. repeat split; done.
Qed.

Lemma str_split_no_sep (sep : char) (a : str) : sep ∉ a → str_split sep a = [a].
Proof.
  induction a as [|c a IH]; [done|]. intros [Hc Ha]%not_elem_of_cons.
  cbn [str_split]. rewrite (proj2 (N.eqb_neq c sep)) by done. by rewrite IH.
Qed.

Lemma str_split_app (sep : char) (a b : str) :
  sep ∉ a → str_split sep (a ++ sep :: b) = a :: str_split sep b.
Proof.
  induction a as [|c a IH]; intros Ha.
  - cbn [app str_split]. by rewrite N.eqb_refl.
  - apply not_elem_of_cons in Ha as [Hc Ha]. cbn [app str_split].
    rewrite (proj2 (N.eqb_neq c sep)) by done. by rewrite IH.
Qed.

Lemma str_split_join (sep : char) (lines : list str) :
  lines ≠ [] → Forall (λ l, sep ∉ l) lines →
  str_split sep (str_join [sep] lines) = lines.
Proof.
  induction lines as [|l lines IH]; [done|]. intros _ [Hl Hall]%Forall_cons.
  destruct lines as [|l' lines]; [by apply str_split_no_sep|].
  change (str_join [sep] (l :: l' :: lines)) with (l ++ sep :: str_join [sep] (l' :: lines)).
  rewrite str_split_app by done. by rewrite IH.
Qed.

(** X17. The text can be read back: when none of the four values
    holds a newline, splitting the text of [format_prompt] at the
    newlines gives its seven lines, the last one empty; so the four
    values are recovered from the text, each after its label. *)
Theorem format_prompt_lines (self : NamesLocationsLoader) (d : list (str * str))
    (w : World) (pn cn pr wc : str) :
  dict_item (lit "patient_name") d = Ok pn →
  dict_item (lit "clinician_name") d = Ok cn →
  dict_item (lit "provider") d = Ok pr →
  dict_item (lit "ward_clinic") d = Ok wc →
  10 ∉ pn → 10 ∉ cn → 10 ∉ pr → 10 ∉ wc →
  ∃ text,
    format_prompt self d w = (Ok text, w)
    ∧ str_split 10 text
      = [ lit "## USE THESE NAMES AND LOCATIONS (BUT REDACT AS PROMPTED)";
          [];
          lit "**Patient Name:** " ++ pn;
          lit "**Clinician Name:** " ++ cn;
          lit "**Hospital/Practice:** " ++ pr;
          lit "**Ward/Clinic:** " ++ wc;
          [] ].
Proof.
  intros H1 H2 H3 H4 N1 N2 N3 N4. rewrite format_prompt_run, H1, H2, H3, H4.
  eexists. split; [done|]. apply str_split_join; [done|].
  assert (Hlit : ∀ (a b : str), 10 ∉ a → 10 ∉ b → 10 ∉ a ++ b).
  { intros a b Ha Hb [?|?]%elem_of_app; done. }
  repeat (apply Forall_cons; split); try apply Forall_nil;
    try apply not_elem_of_nil; try apply Hlit; try done;
    apply (bool_decide_unpack _); vm_compute; exact I.
Qed.

End NamesMore.

Lemma format_prompt_sample_witness :
  let self := mkLoader [lit "Ann Lee"; lit "Bo Chen"] [lit "Dr Hill"]
                [lit "St Mary"; lit "Kings"; lit "Barts"] [lit "Ward 4"; lit "ENT"] in
  let w := Demo.world [] ∅ ∅ in
  ∃ d pn cn pr wc,
    (sample self w).1 = Ok d
    ∧ pn ∈ patient_names self ∧ cn ∈ clinician_names self
    ∧ pr ∈ providers self ∧ wc ∈ wards_clinics self
    ∧ format_prompt self d w
      = (Ok (lit "## USE THESE NAMES AND LOCATIONS (BUT REDACT AS PROMPTED)"
             ++ [10; 10]
             ++ lit "**Patient Name:** " ++ pn ++ [10]
             ++ lit "**Clinician Name:** " ++ cn ++ [10]
             ++ lit "**Hospital/Practice:** " ++ pr ++ [10]
             ++ lit "**Ward/Clinic:** " ++ wc ++ [10]), w).
Proof.
  intros self w.
  assert (∃ d, (sample self w).1 = Ok d) as [d Hd].
  { eexists. vm_compute. reflexivity. }
  destruct (format_prompt_sample self w w d Hd) as (pn & cn & pr & wc & H).
  by exists d, pn, cn, pr, wc.
Defined.

Lemma format_prompt_lines_witness :
  let self := mkLoader [lit "Ann Lee"] [lit "Dr Hill"] [lit "Barts"] [lit "ENT"] in
  let d := [ (lit "patient_name", lit "Ann Lee"); (lit "clinician_name", lit "Dr Hill");
             (lit "provider", lit "Barts"); (lit "ward_clinic", lit "ENT") ] in
  ∃ text,
    format_prompt self d (Demo.world [] ∅ ∅) = (Ok text, Demo.world [] ∅ ∅)
    ∧ str_split 10 text
      = [ lit "## USE THESE NAMES AND LOCATIONS (BUT REDACT AS PROMPTED)";
          [];
          lit "**Patient Name:** " ++ lit "Ann Lee";
          lit "**Clinician Name:** " ++ lit "Dr Hill";
          lit "**Hospital/Practice:** " ++ lit "Barts";
          lit "**Ward/Clinic:** " ++ lit "ENT";
          [] ].
Proof.
  intros self d.
  apply (format_prompt_lines self d (Demo.world [] ∅ ∅));
    try (vm_compute; reflexivity);
    apply (bool_decide_unpack _); vm_compute; exact I.
Defined.

Section Frame.
Context `{Ext : Externals}.

Lemma preserves_and {A} (R1 R2 : World → World → Prop) (m : M A) :
  preserves R1 m → preserves R2 m → preserves (λ w w', R1 w w' ∧ R2 w w') m.
Proof. intros H1 H2 w. split; [apply H1|apply H2]. Qed.

Context (R : World → World → Prop) `{!PreOrder R}.
Context (cfg : Config).
Hypothesis R_untouched :
  ∀ w w', same w_files w w' ∧ same w_dirs w w' → R w w'.
Hypothesis R_save :
  ∀ sn pid ts prompt content,
    preserves R (save_document (output_dir cfg) sn pid ts prompt content).

Ltac fs_untouched :=
  eapply preserves_weaken; [exact R_untouched|]; apply preserves_and; pres.

Lemma generate_document_frame llm total i p :
  preserves R (generate_document cfg llm total i p).
Proof.
  unfold generate_document.
  apply preserves_bind; [apply _ | unfold build_prompt, external_result; fs_untouched |].
  intros [[prompt sn] pid].
  apply preserves_bind; [apply _ | fs_untouched | intros ts].
  apply preserves_bind; [apply _ | |].
  { destruct llm; unfold llm_generate, external_result; fs_untouched. }
  intros [content|]; [|pres].
  apply preserves_bind; [apply _ | fs_untouched | intros _].
  apply preserves_bind; [apply _ | apply R_save | intros _; pres].
Qed.

Lemma mode_loop_frame llm total : preserves R (mode_loop cfg llm total).
Proof.
  unfold mode_loop, sequential_loop, random_loop. repeat case_bool_decide.
  - apply preserves_bind; [apply _ | unfold get_sequential_profiles; fs_untouched |].
    intros ps. apply preserves_for_in; [apply _|]. intros [j p] _.
    unfold sequential_body. destruct (_ >? _)%Z; [pres|].
    apply generate_document_frame.
  - apply preserves_for_in; [apply _|]. intros j _. unfold random_body.
    apply preserves_bind; [apply _ | | intros p; apply generate_document_frame].
    eapply preserves_weaken; [exact R_untouched|]. apply preserves_and;
      intros w; unfold get_random_profile; by apply random_choice_same.
  - pres.
Qed.

(** A relation that holds when the file system is untouched, and of
    every save into the output directory, holds of [main]. *)
Lemma main_frame llm : preserves R (main cfg llm).
Proof.
  unfold main.
  apply preserves_bind; [apply _ | fs_untouched | intros _].
  apply preserves_bind;
    [apply _ | unfold skip_existing_step, filter_existing_profiles; fs_untouched
    | intros _].
  unfold generation_phase.
  apply preserves_bind;
    [apply _ | unfold compute_total_docs, get_profile_count; fs_untouched
    | intros total].
  do 2 (apply preserves_bind; [apply _ | fs_untouched | intros _]).
  apply preserves_bind; [apply _ | apply mode_loop_frame | intros _].
  fs_untouched.
Qed.

End Frame.

Section Confined.
Context `{Ext : Externals}.

#[local] Instance confined_preorder dir : PreOrder (confined dir).
Proof.
  split.
  - intros w. repeat split; auto.
  - intros w1 w2 w3 (F12 & K12 & D12 & N12) (F23 & K23 & D23 & N23).
    repeat split; auto.
    + intros path. destruct (F23 path) as [Heq|Hin]; [|by right].
      rewrite Heq. apply F12.
    + intros d Hd. destruct (N23 d Hd) as [Hd2|Hp]; [|by right]. by apply N12.
Qed.

Lemma save_document_confined dir sn pid ts prompt content :
  preserves (confined dir) (save_document dir sn pid ts prompt content).
Proof.
  intros w. rewrite save_document_run. case_bool_decide; [reflexivity|].
  cbn zeta. destruct (md5_hex _) as [doc_id|e]; cbn [snd].
  - repeat split; cbn [w_files w_dirs].
    + intros path.
      destruct (decide (path_div dir (doc_id ++ lit ".json") = path)) as [<-|Hne].
      * right. exists (doc_id ++ lit ".json"). split; [done|].
        split; [apply endswith_app|]. by rewrite lookup_insert_eq.
      * left. by rewrite lookup_insert_ne.
    + intros path Hp.
      destruct (decide (path_div dir (doc_id ++ lit ".json") = path)) as [<-|Hne].
      * by rewrite lookup_insert_eq.
      * by rewrite lookup_insert_ne.
    + intros d Hd. by apply elem_of_union_l.
    + intros d [Hd|Hd%elem_of_list_to_set%elem_of_path_prefixes]%elem_of_union;
        [by left|by right].
  - repeat split; cbn [w_files w_dirs]; auto.
    + intros d Hd. by apply elem_of_union_l.
    + intros d [Hd|Hd%elem_of_list_to_set%elem_of_path_prefixes]%elem_of_union;
        [by left|by right].
Qed.

(** X18. [main] keeps to the output directory: whether the run ends
    normally or not, a file that changed or appeared is a [.json] file
    directly in the output directory, no file and no directory
    disappeared, and a directory that appeared is the output directory
    or one of its ancestors. *)
Theorem main_confined (cfg : Config) (llm : option LLMClient) (w : World) :
  confined (output_dir cfg) w (main cfg llm w).2.
Proof.
  apply (main_frame (confined (output_dir cfg)) cfg).
  - intros w1 w2 [Hf Hd]. unfold same in *. unfold confined. rewrite Hf, Hd.
    repeat split; auto.
  - intros. apply save_document_confined.
Qed.

End Confined.

Section LlmClient.
Context `{Ext : Externals}.

Lemma mode_loop_not_generated cfg total :
  preserves (same generated) (mode_loop cfg None total).
Proof.
  unfold mode_loop, sequential_loop, random_loop, get_sequential_profiles.
  pres.
  - apply preserves_for_in; [apply _|]. intros [i p] _. unfold sequential_body.
    destruct (_ >? _)%Z; [pres | apply generate_document_not_generated].
  - apply preserves_for_in; [apply _|]. intros i _. unfold random_body.
    apply preserves_bind;
      [apply _ | | intros p; apply generate_document_not_generated].
    intros w. unfold get_random_profile. by apply random_choice_same.
Qed.

Lemma main_not_generated cfg : preserves (same generated) (main cfg None).
Proof.
  unfold main, skip_existing_step, generation_phase, compute_total_docs,
    get_profile_count, filter_existing_profiles.
  pres. all: apply mode_loop_not_generated.
Qed.

Lemma saved_document_no_content (c : file_content) :
  saved_document None c →
  ∃ kv, c = Json (JDict kv) ∧ dict_keys kv = base_keys.
Proof.
  intros (doc_id & sn & pid & prompt & now & content & -> & _ & Hc).
  destruct content as [x|].
  - destruct (proj1 Hc) as [? [=]]. by eexists.
  - by eexists.
Qed.

(** X19. With generation disabled in the configuration, the factory of
    the LLM client is not called, [main] goes on in prompt-only mode,
    and in the whole run the LLM is never called; a file of the end
    state is as it was before the run, or is a saved document with
    the six base keys and no [content]. *)
Theorem generation_disabled
    (create_llm_client : Env → result (option LLMClient) * Env)
    (provider : str) (cfg : Config) (w : World) :
  let run := main_from_llm_client create_llm_client false provider cfg w in
  run = main cfg None
          (add_log [(INFO, lit "LLM generation disabled")]
             (add_out [lit "LLM generation disabled (saving prompts only)"] w))
  ∧ generated run.2 = generated w
  ∧ ∀ path, w_files run.2 !! path = w_files w !! path
            ∨ ∃ kv, w_files run.2 !! path = Some (Json (JDict kv))
                    ∧ dict_keys kv = base_keys.
Proof.
  cbn zeta.
  assert (Hrun : main_from_llm_client create_llm_client false provider cfg w
                 = main cfg None
                     (add_log [(INFO, lit "LLM generation disabled")]
                        (add_out [lit "LLM generation disabled (saving prompts only)"] w)))
    by reflexivity.
  rewrite Hrun. split; [done|]. split.
  - rewrite (main_not_generated cfg _). done.
  - intros path.
    destruct (main_documents_only cfg None
                (add_log [(INFO, lit "LLM generation disabled")]
                   (add_out [lit "LLM generation disabled (saving prompts only)"] w))
                path) as [Heq|(c & Hc & Hdoc)].
    + left. by rewrite Heq.
    + right. apply saved_document_no_content in Hdoc as (kv & -> & Hk).
      by exists kv.
Qed.

(** X20. When the factory of the LLM client raises, [main] reports the
    error on the output and in the log and returns: the run ends
    normally, before the output directory is looked at, with no
    generation attempt and no file written. *)
Theorem llm_client_error_ends_run
    (create_llm_client : Env → result (option LLMClient) * Env)
    (provider : str) (cfg : Config) (w : World) (err : exn) (e1 : Env) :
  create_llm_client (w_env w) = (Raise err, e1) →
  let run := main_from_llm_client create_llm_client true provider cfg w in
  run.1 = Ok ()
  ∧ w_out run.2
    = w_out w ++ [lit "Initialising LLM client (provider: " ++ provider ++ lit ")...";
                  lit "Error initialising LLM client: " ++ exn_msg err]
  ∧ w_log run.2
    = w_log w ++ [(ERROR, lit "Failed to initialize LLM client: " ++ exn_msg err)]
  ∧ w_calls run.2 = w_calls w
  ∧ w_files run.2 = w_files w
  ∧ w_dirs run.2 = w_dirs w
  ∧ w_profiles run.2 = w_profiles w.
Proof.
  intros Hc. cbn zeta.
  assert (Hrun : main_from_llm_client create_llm_client true provider cfg w
    = (Ok (),
       add_log [(ERROR, lit "Failed to initialize LLM client: " ++ exn_msg err)]
         (add_out [lit "Error initialising LLM client: " ++ exn_msg err]
            (set_env e1
               (add_out [lit "Initialising LLM client (provider: "
                         ++ provider ++ lit ")..."] w))))).
  { unfold main_from_llm_client, initialise_llm_client.
    unfold mbind, M_bind, bind, try_except, external_result, bind, external, print.
    cbn [add_out w_env]. rewrite Hc. reflexivity. }
  rewrite Hrun. cbn. rewrite <- app_assoc. done.
Qed.

End LlmClient.

Lemma llm_client_error_ends_run_witness :
  let create : Env → result (option LLMClient) * Env :=
    λ e, (Raise (Exn (OtherError (lit "ValueError")) (lit "no API key")), e) in
  let run := main_from_llm_client create true (lit "anthropic") Demo.seq_all
               (Demo.world [lit "p1"] ∅ ∅) in
  run.1 = Ok ()
  ∧ w_out run.2
    = [] ++ [lit "Initialising LLM client (provider: " ++ lit "anthropic" ++ lit ")...";
             lit "Error initialising LLM client: " ++ lit "no API key"]
  ∧ w_calls run.2 = [].
Proof.
  intros create run.
  destruct (llm_client_error_ends_run create (lit "anthropic") Demo.seq_all
              (Demo.world [lit "p1"] ∅ ∅)
              (Exn (OtherError (lit "ValueError")) (lit "no API key")) (Demo.env 0) eq_refl)
    as (H1 & H2 & _ & H4 & _).
  by repeat split.
Defined.

Section IterationMore.
Context `{Ext : Externals}.

Lemma extract_output_content_world (text : str) (w : World) :
  ∃ lv msg,
    extract_output_content text w
    = (Ok (strip (default text (Re.search text))), add_log [(lv, msg)] w)
    ∧ (lv = DEBUG ∨ lv = WARNING).
Proof.
  unfold extract_output_content. destruct (Re.search text) as [g|].
  - eexists DEBUG, _. split; [reflexivity|by left].
  - eexists WARNING, _. split; [reflexivity|by right].
Qed.



End IterationMore.



Section MainMore.
Context `{Ext : Externals}.

(** X23. A mode other than [sequential] and [random] is not rejected:
    with [skip_existing] off, the run makes no generation attempt and
    writes nothing, and yet ends normally and reports the number of
    documents as generated. *)
Theorem main_unknown_mode (cfg : Config) (llm : option LLMClient) (w : World) :
  mode cfg ≠ lit "sequential" → mode cfg ≠ lit "random" →
  skip_existing cfg = false →
  let total_docs := str_of_Z (total_docs_of cfg w) in
  let action := match llm with Some _ => lit "documents" | None => lit "prompts" end in
  let run := main cfg llm w in
  run.1 = Ok ()
  ∧ w_calls run.2 = w_calls w
  ∧ w_files run.2 = w_files w
  ∧ w_dirs run.2 = w_dirs w
  ∧ w_out run.2
    = w_out w
      ++ [ lit "Output directory: " ++ path_str (output_dir cfg);
           lit "Generating " ++ total_docs ++ lit " " ++ action
             ++ lit " in '" ++ mode cfg ++ lit "' mode...";
           repeat 35 60;
           repeat 35 60;
           lit "Generated " ++ total_docs ++ lit " " ++ action;
           lit "Saved to: " ++ path_str (output_dir cfg) ]
  ∧ w_log run.2
    = w_log w ++ [(INFO, lit "Pipeline completed successfully. Generated "
                         ++ total_docs ++ lit " " ++ action)].
Proof.
  intros Hs Hr Hskip total_docs action.
  assert (∃ w', main cfg llm w = (Ok (), w')
    ∧ w_calls w' = w_calls w ∧ w_files w' = w_files w ∧ w_dirs w' = w_dirs w
    ∧ w_out w'
      = w_out w
        ++ [ lit "Output directory: " ++ path_str (output_dir cfg);
             lit "Generating " ++ total_docs ++ lit " " ++ action
               ++ lit " in '" ++ mode cfg ++ lit "' mode...";
             repeat 35 60;
             repeat 35 60;
             lit "Generated " ++ total_docs ++ lit " " ++ action;
             lit "Saved to: " ++ path_str (output_dir cfg) ]
    ∧ w_log w'
      = w_log w ++ [(INFO, lit "Pipeline completed successfully. Generated "
                           ++ total_docs ++ lit " " ++ action)])
    as (w' & Hrun & H).
  { unfold main. rewrite bind_run. cbn [print].
    unfold skip_existing_step. rewrite Hskip. rewrite bind_run.
    unfold mret at 1, M_ret at 1, ret at 1. cbv beta iota.
    unfold generation_phase. rewrite bind_run, compute_total_docs_run.
    cbv beta iota.
    change (total_docs_of cfg (add_out _ w)) with (total_docs_of cfg w).
    fold total_docs. fold action.
    do 2 (rewrite bind_run; cbn [print]).
    rewrite bind_run. unfold mode_loop.
    rewrite !bool_decide_eq_false_2 by done.
    unfold mret at 1, M_ret at 1, ret at 1. cbv beta iota.
    do 3 (rewrite bind_run; cbn [print]).
    cbn [logger]. eexists. split; [reflexivity|].
    destruct w as [fs ds lg ot cs ps en].
    cbn [add_out add_log w_files w_dirs w_log w_out w_calls].
    repeat split. by rewrite <- !app_assoc. }
  cbn zeta. rewrite Hrun. by split.
Qed.

(** X24. Any [count] other than [-1]: a run that ends normally has
    attempted, in sequential mode, the first [count] available
    profiles in order, which is all of them when [count] exceeds their
    number and none when [count] is zero or negative; in random mode it
    has made exactly [count] draws among the available profiles (none
    when [count] is zero or negative), so that profiles repeat when
    [count] exceeds their number. *)
Theorem count_any (cfg : Config) (llm : option LLMClient) (w : World) :
  count cfg ≠ (-1)%Z →
  let run := main cfg llm w in
  run.1 = Ok () →
  (mode cfg = lit "sequential" →
   attempted run.2
   = attempted w ++ take (Z.to_nat (count cfg)) (w_profiles run.2))
  ∧ (mode cfg = lit "random" →
     ∃ extra, attempted run.2 = attempted w ++ extra
              ∧ length extra = Z.to_nat (count cfg)
              ∧ Forall (λ p, p ∈ w_profiles run.2) extra).
Proof.
  intros Hc run Hrun. subst run.
  destruct (main_attempts cfg llm w Hrun) as (w2 & Ha & Hg & Hp & Hoff & Hloop).
  cbn zeta in Hloop. destruct Hloop as (Hok & Hat & Hge & Hpr).
  assert (Ht : total_docs_of cfg w2 = count cfg).
  { unfold total_docs_of. destruct (Z.eqb_spec (count cfg) (-1)); done. }
  rewrite Ht in *. split; intros Hm.
  - rewrite mode_loop_sequential in * by done.
    destruct (sequential_for_in cfg llm (count cfg) (w_profiles w2) 1 w2
                ltac:(lia) Hok) as (Hat' & _ & _).
    rewrite Hat, Hat', Ha, <- Hp. do 2 f_equal. lia.
  - rewrite mode_loop_random in * by done.
    destruct (random_for_in cfg llm (count cfg) _ w2 Hok)
      as (extra & Hex & Hlen & Hall & _ & _).
    exists extra. rewrite Hat, Hex, Ha, <- Hp. split; [done|]. split; [|done].
    rewrite Hlen. unfold range. rewrite length_seqZ. lia.
Qed.

End MainMore.

Lemma main_unknown_mode_witness :
  let cfg := mkConfig Demo.out_dir false (lit "Sequential") 2 true true in
  let w := Demo.world [lit "p1"; lit "p2"] ∅ ∅ in
  let run := main cfg Demo.client w in
  run.1 = Ok ()
  ∧ w_calls run.2 = []
  ∧ w_files run.2 = ∅
  ∧ nth 4 (w_out run.2) [] = lit "Generated 2 documents".
Proof.
  intros cfg w run.
  destruct (main_unknown_mode cfg Demo.client w) as (H1 & H2 & H3 & _ & H5 & _).
  - discriminate.
  - discriminate.
  - reflexivity.
  - split; [exact H1|]. split; [exact H2|]. split; [exact H3|].
    etransitivity; [exact (f_equal (λ l, nth 4 l []) H5)|].
    vm_compute. reflexivity.
Defined.

Lemma count_any_witness :
  let w := Demo.world [lit "p1"; lit "p3"] ∅ ∅ in
  let run := main (Demo.seq_n 5 false) Demo.no_client w in
  run.1 = Ok ()
  ∧ attempted run.2 = attempted w ++ take (Z.to_nat 5) (w_profiles run.2).
Proof.
  intros w run.
  assert (run.1 = Ok ()) as Hrun by (vm_compute; reflexivity).
  split; [exact Hrun|].
  destruct (count_any (Demo.seq_n 5 false) Demo.no_client w) as [Hseq _].
  - discriminate.
  - exact Hrun.
  - apply Hseq. reflexivity.
Defined.

Section AccountingFacts.
Context `{Ext : Externals}.

Lemma steady_preserves {A X} (f : World → X) (m : M A) :
  preserves (same f) m → steady f m.
Proof. intros H w a _. apply H. Qed.

Lemma steady_bind {A B X} (f : World → X) (m : M A) (k : A → M B) :
  steady f m → (∀ a, steady f (k a)) → steady f (m ≫= k).
Proof.
  intros Hm Hk w b. rewrite bind_run. specialize (Hm w).
  destruct (m w) as [[a|e] w1]; [|done]. intros Hb.
  rewrite (Hk a w1 b Hb). by apply (Hm a).
Qed.

Lemma steady_for_in {A X} (f : World → X) (l : list A) (body : A → M ctl) :
  (∀ x, steady f (body x)) → steady f (for_in l body).
Proof.
  intros Hb. induction l as [|x l IH]; intros w a; [done|].
  rewrite for_in_cons. specialize (Hb x w).
  destruct (body x w) as [[[]|e] w1]; [| |done].
  - intros Hl. rewrite (IH w1 a Hl). by apply (Hb Next).
  - intros _. by apply (Hb Break).
Qed.

Lemma errors_logged_add_log (l : list (level * str)) (w : World) :
  errors_logged (add_log l w)
  = (errors_logged w + length (filter (λ r, r.1 = ERROR) l))%nat.
Proof. unfold errors_logged. cbn [add_log w_log]. by rewrite filter_app, length_app. Qed.

Lemma unsettled_add_log (l : list (level * str)) (w : World) :
  Forall (λ r, r.1 ≠ ERROR) l → unsettled (add_log l w) = unsettled w.
Proof.
  intros Hl. unfold unsettled. rewrite errors_logged_add_log.
  change (attempted (add_log l w)) with (attempted w).
  change (documents_written (add_log l w)) with (documents_written w).
  assert (filter (λ r, r.1 = ERROR) l = []) as ->; [|cbn; lia].
  induction Hl as [|r l Hr _ IH]; [done|].
  rewrite filter_cons_False by done. exact IH.
Qed.

Lemma logger_unsettled (lv : level) (msg : str) :
  lv ≠ ERROR → preserves (same unsettled) (logger lv msg).
Proof.
  intros Hlv w. unfold same, logger. cbn [snd]. apply unsettled_add_log.
  by repeat constructor.
Qed.

Lemma get_existing_profile_ids_unsettled (dir : Path) :
  preserves (same unsettled) (get_existing_profile_ids dir).
Proof.
  intros w. destruct (get_existing_profile_ids_world dir w) as (l & -> & Hl).
  apply unsettled_add_log. eapply Forall_impl; [exact Hl|].
  intros r ->. done.
Qed.

Ltac unsettled_same :=
  pres; try (apply logger_unsettled; discriminate).

(** An iteration that returns has settled its attempt: it has written
    a document, or logged an error. *)
Lemma steady_run {A X} (f : World → X) (m : M A) :
  (∀ w, match m w with
        | (Ok _, w') => f w' = f w
        | (Raise _, _) => True
        end) →
  steady f m.
Proof. intros H w a. specialize (H w). by destruct (m w) as [[?|?] ?]. Qed.

(** How the primitive changes of the world move the count. *)
Lemma unsettled_mkWorld (w : World) fs ds (l : list (level * str)) ot
    (cs : list call) ps en :
  unsettled (mkWorld fs ds (w_log w ++ l) ot (w_calls w ++ cs) ps en)
  = (unsettled w + Z.of_nat (length (build_calls cs))
     - Z.of_nat (length (write_calls cs))
     - Z.of_nat (length (filter (λ r, r.1 = ERROR) l)))%Z.
Proof.
  unfold unsettled, attempted, documents_written, errors_logged.
  cbn [w_log w_calls].
  rewrite build_calls_app, write_calls_app, filter_app, !length_app. lia.
Qed.

Lemma unsettled_add_calls (cs : list call) (w : World) :
  unsettled (add_calls cs w)
  = (unsettled w + Z.of_nat (length (build_calls cs))
     - Z.of_nat (length (write_calls cs)))%Z.
Proof.
  unfold add_calls. rewrite <- (app_nil_r (w_log w)) at 1.
  rewrite unsettled_mkWorld. cbn. lia.
Qed.

Lemma unsettled_add_log_gen (l : list (level * str)) (w : World) :
  unsettled (add_log l w)
  = (unsettled w - Z.of_nat (length (filter (λ r, r.1 = ERROR) l)))%Z.
Proof.
  unfold add_log. rewrite <- (app_nil_r (w_calls w)) at 1.
  rewrite unsettled_mkWorld. cbn. lia.
Qed.

Lemma unsettled_add_out (l : list str) (w : World) :
  unsettled (add_out l w) = unsettled w.
Proof. reflexivity. Qed.

Lemma unsettled_set_env (e : Env) (w : World) :
  unsettled (set_env e w) = unsettled w.
Proof. reflexivity. Qed.

Ltac count_calls :=
  cbn [snd mret M_ret ret];
  rewrite <- ?app_assoc; cbn [app];
  repeat first
    [ rewrite unsettled_mkWorld | rewrite unsettled_add_out
    | rewrite unsettled_set_env | rewrite unsettled_add_log_gen
    | rewrite unsettled_add_calls ];
  cbn [build_calls write_calls length];
  repeat first [ rewrite filter_cons_False by discriminate
               | rewrite filter_cons_True by reflexivity ];
  rewrite ?filter_nil; cbn [length]; lia.

Lemma generate_document_settles cfg llm total i p :
  steady unsettled (generate_document cfg llm total i p).
Proof.
  apply steady_run. intros w. unfold generate_document.
  rewrite bind_run, build_prompt_run.
  destruct (ext_build_prompt _ _ _ _) as [[[[prompt sn] pid]|e] e1]; [|done].
  cbv beta iota. rewrite bind_run, generate_timestamp_run. cbn [w_env set_env].
  destruct (ext_now e1) as [dt e2]. cbv beta iota.
  destruct llm as [client|].
  - rewrite bind_run, try_except_run, bind_run. cbn [logger].
    rewrite bind_run, llm_generate_run. cbn [w_env set_env add_log add_calls].
    destruct (ext_generate client prompt e2) as [[response|err] e3]; cbv beta iota.
    + rewrite bind_run.
      match goal with |- context [extract_output_content response ?w1] =>
        destruct (extract_output_content_world response w1) as (lv & msg & -> & Hlv)
      end.
      rewrite bind_run. cbn [logger]. unfold mret at 1, M_ret at 1, ret at 1.
      cbv beta iota. rewrite bind_run. cbn [print]. rewrite bind_run.
      rewrite save_document_run. case_bool_decide; [done|]. cbn zeta.
      destruct (md5_hex _) as [doc_id|e]; [|done].
      cbn [w_files w_dirs w_log w_out w_calls w_profiles w_env add_out add_log
             set_env add_calls].
      fold (add_calls [CallBuildPrompt p] w).
      destruct Hlv as [-> | ->]; count_calls.
    + cbn [any_Exception]. rewrite bind_run. cbn [logger]. rewrite bind_run.
      cbn [print]. unfold mret at 1, M_ret at 1, ret at 1. cbv beta iota.
      count_calls.
  - rewrite bind_run. unfold mret at 1, M_ret at 1, ret at 1. cbv beta iota.
    rewrite bind_run. cbn [print]. rewrite bind_run.
    rewrite save_document_run. case_bool_decide; [done|]. cbn zeta.
    destruct (md5_hex _) as [doc_id|e]; [|done].
    cbn [w_files w_dirs w_log w_out w_calls w_profiles w_env add_out add_log
           set_env add_calls].
    count_calls.
Qed.

Lemma mode_loop_settles cfg llm total :
  steady unsettled (mode_loop cfg llm total).
Proof.
  unfold mode_loop, sequential_loop, random_loop. repeat case_bool_decide.
  - apply steady_bind.
    + apply steady_preserves. unfold get_sequential_profiles. pres.
    + intros ps. apply steady_for_in. intros [j p]. unfold sequential_body.
      destruct (_ >? _)%Z; [by intros ? ? _|]. apply generate_document_settles.
  - apply steady_for_in. intros j. unfold random_body. apply steady_bind.
    + apply steady_preserves. intros w. unfold get_random_profile.
      by apply random_choice_same.
    + intros p. apply generate_document_settles.
  - by intros ? ? _.
Qed.

(** X25. No attempt is lost: in a run of [main] that ends normally,
    every generation attempt has either written a document or logged
    an error; the attempts made are as many as the documents written
    and the errors logged together. *)
Theorem main_settles_attempts (cfg : Config) (llm : option LLMClient) (w : World) :
  let run := main cfg llm w in
  run.1 = Ok () →
  (length (attempted run.2) + documents_written w + errors_logged w
   = length (attempted w) + documents_written run.2 + errors_logged run.2)%nat.
Proof.
  cbn zeta. intros Hrun.
  assert (Hmain : steady unsettled (main cfg llm)).
  { unfold main. apply steady_bind; [apply steady_preserves; pres|intros _].
    apply steady_bind.
    { apply steady_preserves. unfold skip_existing_step.
      destruct (skip_existing cfg); [|pres].
      apply preserves_bind; [apply _|apply get_existing_profile_ids_unsettled|].
      intros E. unfold filter_existing_profiles. unsettled_same. }
    intros _. unfold generation_phase.
    apply steady_bind.
    { apply steady_preserves. unfold compute_total_docs, get_profile_count. pres. }
    intros total.
    do 2 (apply steady_bind; [apply steady_preserves; pres|intros _]).
    apply steady_bind; [apply mode_loop_settles|intros _].
    do 3 (apply steady_bind; [apply steady_preserves; pres|intros _]).
    apply steady_preserves. apply logger_unsettled. discriminate. }
  specialize (Hmain w () Hrun). unfold unsettled in Hmain. lia.
Qed.

End AccountingFacts.

Lemma main_settles_attempts_witness :
  let w := Demo.world [lit "p1"; lit "p2"; lit "p3"] ∅ ∅ in
  let run := main Demo.seq_all Demo.client w in
  run.1 = Ok ()
  ∧ (length (attempted run.2) + documents_written w + errors_logged w
     = length (attempted w) + documents_written run.2 + errors_logged run.2)%nat
  ∧ length (attempted run.2) = 3%nat
  ∧ errors_logged run.2 = 1%nat.
Proof.
  intros w run.
  assert (run.1 = Ok ()) as Hrun by (vm_compute; reflexivity).
  split; [exact Hrun|]. split.
  - exact (main_settles_attempts Demo.seq_all Demo.client w Hrun).
  - split; vm_compute; reflexivity.
Defined.
